(** * Blast: a static file server and its middleware pipeline

    A shallow embedding of the Blast server (the path utilities, the
    table of content types, the static resource handler, the middleware
    chain with the cache, compression, CORS and security stages, the
    server around them and the logger) together with the properties its
    specification states about them and further properties of the code.

    JavaScript strings are modelled as lists of characters, numbers that
    hold integers as [Z] or [N], the insertion-ordered [Map] as an
    association list, [Headers] as an association list over lower-cased
    names and [Response] bodies as cells of a store, so that sharing and
    single-read consumption are visible. *)

From Stdlib Require Import List String Ascii ZArith NArith Lia Bool Arith.
From Stdlib Require Import HexadecimalString HexadecimalZ HexadecimalPos.
From Stdlib Require Import DecimalString Permutation.
Import ListNotations.

Set Implicit Arguments.

(** ** JavaScript strings *)

Module JsString.

Definition jstring := list ascii.

(** A string literal of the source. *)
Definition str (s : string) : jstring := list_ascii_of_string s.

Definition slash : ascii := "/"%char.
Definition minus : ascii := "-"%char.

Definition is_slash (c : ascii) : bool := Ascii.eqb c slash.

(** [a === b] on strings. *)
Fixpoint eqb (a b : jstring) : bool :=
  match a, b with
  | [], [] => true
  | x :: a', y :: b' => Ascii.eqb x y && eqb a' b'
  | _, _ => false
  end.

(** [s.startsWith(p)] *)
Fixpoint startsWith (s p : jstring) {struct p} : bool :=
  match p, s with
  | [], _ => true
  | y :: p', x :: s' => Ascii.eqb x y && startsWith s' p'
  | _ :: _, [] => false
  end.

(** [s.endsWith(p)] *)
Definition endsWith (s p : jstring) : bool := startsWith (rev s) (rev p).

(** [s.includes(p)] *)
Fixpoint includes (s p : jstring) : bool :=
  startsWith s p ||
  match s with
  | [] => false
  | _ :: s' => includes s' p
  end.

(** [s.replace(/^\/+/, '')] *)
Fixpoint stripLeadingSlashes (s : jstring) : jstring :=
  match s with
  | [] => []
  | c :: r => if is_slash c then stripLeadingSlashes r else s
  end.

(** [s.replace(/\/+/g, '/')]: a separator directly followed by another
    one is dropped, which leaves one separator per run. *)
Fixpoint collapseSlashes (s : jstring) : jstring :=
  match s with
  | [] => []
  | c :: r =>
      match r with
      | c' :: _ =>
          if is_slash c && is_slash c' then collapseSlashes r
          else c :: collapseSlashes r
      | [] => [c]
      end
  end.

(** [s.lastIndexOf(c)], scanning from position [i] on with [found] the
    last position seen so far *)
Fixpoint lastIndexFrom (s : jstring) (c : ascii) (i : nat) (found : option nat)
  : option nat :=
  match s with
  | [] => found
  | x :: r => lastIndexFrom r c (S i) (if Ascii.eqb x c then Some i else found)
  end.

Definition lastIndexOf (s : jstring) (c : ascii) : option nat :=
  lastIndexFrom s c 0 None.

(** [s.toLowerCase()] for a string of ASCII characters: the letters A to
    Z are the only ones among them that the runtime changes.  That is
    where it is used: on the names of headers, which hold no other
    character, on string literals of the source, and on file extensions
    and URL segments, for which the statements that depend on it assume
    ASCII characters ([Segments.isAscii]).  The runtime also lowers
    letters outside ASCII; nothing is stated about those. *)
Definition lowerChar (c : ascii) : ascii :=
  let n := nat_of_ascii c in
  if (65 <=? n) && (n <=? 90) then ascii_of_nat (n + 32) else c.

Definition toLowerCase (s : jstring) : jstring := map lowerChar s.

(** [x || d] for a string [x] that may be [null]: the empty string is
    falsy as well. *)
Definition orElse (x : option jstring) (d : jstring) : jstring :=
  match x with
  | Some (c :: r) => c :: r
  | _ => d
  end.

End JsString.

Import JsString.

(** ** The POSIX [path] module of the runtime

    [utils/path.ts] imports [resolve], [join], [normalize] and [sep] from
    the runtime's [path] module, here with the separator ["/"].  They are
    modelled on the segments of a path: the runtime scans the string
    once, skipping empty and ["."] segments and letting [".."] cancel the
    segment before it; above the start of a relative path [".."] is
    kept, at the root it is dropped. *)

Module NodePath.

Definition sep : ascii := slash.

(** [s.split('/')] *)
Fixpoint split (s : jstring) : list jstring :=
  match s with
  | [] => [[]]
  | c :: r =>
      if is_slash c then [] :: split r
      else match split r with
           | seg :: segs => (c :: seg) :: segs
           | [] => [[c]]
           end
  end.

(** [segs.join('/')] *)
Fixpoint joinSlash (segs : list jstring) : jstring :=
  match segs with
  | [] => []
  | [x] => x
  | x :: rest => x ++ slash :: joinSlash rest
  end.

Definition isDot (seg : jstring) : bool := eqb seg (str ".").
Definition isDotDot (seg : jstring) : bool := eqb seg (str "..").

(** One segment of the scan of [normalizeString]; [res] holds the
    segments kept so far, the last one first. *)
Definition step (allowAboveRoot : bool) (res : list jstring) (seg : jstring)
  : list jstring :=
  if eqb seg [] || isDot seg then res
  else if isDotDot seg then
    match res with
    | top :: below =>
        if isDotDot top
        then (if allowAboveRoot then seg :: res else res)
        else below
    | [] => if allowAboveRoot then [seg] else []
    end
  else seg :: res.

Definition walk (allowAboveRoot : bool) (res : list jstring)
  (segs : list jstring) : list jstring :=
  fold_left (step allowAboveRoot) segs res.

(** [normalizeString(path, allowAboveRoot, '/', isPosixPathSeparator)] *)
Definition normalizeString (path : jstring) (allowAboveRoot : bool) : jstring :=
  joinSlash (rev (walk allowAboveRoot [] (split path))).

Definition isAbsolute (path : jstring) : bool :=
  match path with
  | c :: _ => is_slash c
  | [] => false
  end.

(** [path.normalize(p)] *)
Definition normalize (path : jstring) : jstring :=
  if eqb path [] then str "."
  else
    let isAbs := isAbsolute path in
    let trailingSeparator := endsWith path (str "/") in
    let path' := normalizeString path (negb isAbs) in
    if eqb path' [] then
      if isAbs then str "/"
      else if trailingSeparator then str "./" else str "."
    else
      let path'' := if trailingSeparator then path' ++ str "/" else path' in
      if isAbs then slash :: path'' else path''.

(** [path.join(...args)]: the non-empty arguments are glued with the
    separator and the result is normalized. *)
Fixpoint glue (joined : option jstring) (args : list jstring)
  : option jstring :=
  match args with
  | [] => joined
  | arg :: rest =>
      if eqb arg [] then glue joined rest
      else match joined with
           | None => glue (Some arg) rest
           | Some j => glue (Some (j ++ slash :: arg)) rest
           end
  end.

Definition join (args : list jstring) : jstring :=
  match glue None args with
  | None => str "."
  | Some joined => normalize joined
  end.

Section Resolve.

(** [process.cwd()] *)
Variable cwd : jstring.

(** [path.resolve(p)] with one argument: a relative (or empty) [p] is
    taken from the working directory. *)
Definition resolve (p : jstring) : jstring :=
  let resolvedPath := if eqb p [] then [] else p ++ str "/" in
  let resolvedAbsolute := isAbsolute p in
  let resolvedPath :=
    if resolvedAbsolute || eqb cwd [] then resolvedPath
    else cwd ++ slash :: resolvedPath in
  let resolvedAbsolute := resolvedAbsolute || isAbsolute cwd in
  let resolvedPath := normalizeString resolvedPath (negb resolvedAbsolute) in
  if resolvedAbsolute then slash :: resolvedPath
  else if eqb resolvedPath [] then str "." else resolvedPath.

End Resolve.

End NodePath.

(** ** URL and file system path utilities ([utils/path.ts]) *)

Module PathUtils.

Import NodePath.

(** [normalizeUrlPath]: the empty string and ["/"] are the root; otherwise
    leading separators are replaced by one, runs are collapsed and one
    trailing separator is cut off ([slice(0, -1)]). *)
Definition normalizeUrlPath (urlPath : jstring) : jstring :=
  if eqb urlPath [] || eqb urlPath (str "/") then str "/"
  else
    let normalized := slash :: collapseSlashes (stripLeadingSlashes urlPath) in
    if (1 <? List.length normalized) && endsWith normalized (str "/")
    then removelast normalized
    else normalized.

(** [resolveStaticPath] *)
Definition resolveStaticPath (rootDir urlPath : jstring) : jstring :=
  let normalizedPath := stripLeadingSlashes urlPath in
  normalize (join [rootDir; normalizedPath]).

(** [s[i] === c], false past the end of [s] *)
Definition charAtIs (s : jstring) (i : nat) (c : ascii) : bool :=
  match nth_error s i with
  | Some x => Ascii.eqb x c
  | None => false
  end.

(** [isPathUnderRoot] *)
Definition isPathUnderRoot (cwd : jstring) (filePath rootDir : jstring) : bool :=
  let normalizedPath := resolve cwd filePath in
  let normalizedRoot := resolve cwd rootDir in
  eqb normalizedPath normalizedRoot ||
  (startsWith normalizedPath normalizedRoot &&
   (endsWith normalizedRoot [sep] ||
    charAtIs normalizedPath (List.length normalizedRoot) sep)).

(** [createDirectoryUrl] and [createFileUrl]; [encodeURIComponent] is the
    runtime's. *)
Section ListingUrls.

Variable encodeURIComponent : jstring -> jstring.

Definition createDirectoryUrl (currentUrlPath dirName : jstring) : jstring :=
  let base :=
    if endsWith currentUrlPath (str "/") then currentUrlPath
    else currentUrlPath ++ str "/" in
  base ++ encodeURIComponent dirName ++ str "/".

Definition createFileUrl (currentUrlPath fileName : jstring) : jstring :=
  let base :=
    if endsWith currentUrlPath (str "/") then currentUrlPath
    else currentUrlPath ++ str "/" in
  base ++ encodeURIComponent fileName.

End ListingUrls.

(** [getParentDirectoryUrl]; [None] is [null]. *)
Definition getParentDirectoryUrl (urlPath : jstring) : option jstring :=
  if eqb urlPath (str "/") || eqb urlPath [] then None
  else
    let path :=
      if endsWith urlPath (str "/") then removelast urlPath else urlPath in
    match lastIndexOf path slash with
    | Some (S i) => Some (firstn (S i) path ++ str "/")
    | _ => Some (str "/")
    end.

(** What a function that can throw ends with. *)
Inductive Result (A : Type) : Type :=
| Returns (value : A)
| Throws (message : jstring).

Arguments Throws {A} message.

(** [safeResolveStaticPath] *)
Definition safeResolveStaticPath (cwd : jstring) (rootDir urlPath : jstring)
  : Result jstring :=
  let filePath := resolveStaticPath rootDir urlPath in
  if negb (isPathUnderRoot cwd filePath rootDir)
  then Throws (str "Path traversal attack detected")
  else Returns filePath.

(** [getUrlPathFromFilePath]; [None] is [null]. *)
Definition getUrlPathFromFilePath (cwd : jstring) (rootDir filePath : jstring)
  : option jstring :=
  let normalizedRoot := resolve cwd rootDir in
  let normalizedPath := resolve cwd filePath in
  if negb (isPathUnderRoot cwd normalizedPath normalizedRoot) then None
  else
    let relativePath := skipn (List.length normalizedRoot) normalizedPath in
    Some (normalizeUrlPath relativePath).

Definition dot : ascii := "."%char.
Definition backslash : ascii := "092"%char.
Definition tilde : ascii := "~"%char.

(** [isHiddenPath] *)
Definition isHiddenPath (urlPath : jstring) : bool :=
  existsb
    (fun segment =>
       (0 <? List.length segment) && charAtIs segment 0 dot &&
       negb (eqb segment (str ".")) && negb (eqb segment (str "..")))
    (split urlPath).

(** [mightContainPathTraversal] *)
Definition mightContainPathTraversal (urlPath : jstring) : bool :=
  includes urlPath (str "../") || includes urlPath [dot; dot; backslash] ||
  includes urlPath (str "/.") || includes urlPath [backslash; dot] ||
  includes urlPath [tilde].

(** [getExtension] *)
Definition getExtension (path : jstring) : jstring :=
  match lastIndexOf path dot with
  | Some (S i) => toLowerCase (skipn (S i) path)
  | _ => []
  end.

(** [hasExtension] *)
Definition hasExtension (path extension : jstring) : bool :=
  let ext :=
    if startsWith extension (str ".") then toLowerCase extension
    else str "." ++ toLowerCase extension in
  endsWith (toLowerCase path) ext.

End PathUtils.

(** ** Numbers as strings *)

Module JsNumber.

(** [n.toString(16)] for an integer [n]: lower-case digits, a minus sign
    in front of a negative number. *)
Definition toString16 (n : Z) : jstring :=
  str (HexadecimalString.NilZero.string_of_int (Z.to_hex_int n)).

(** [n.toString()] for an integer [n]. *)
Definition toString10 (n : Z) : jstring :=
  str (DecimalString.NilZero.string_of_int (Z.to_int n)).

End JsNumber.

(** ** Headers and responses *)

Module Http.

(** A [Headers] object: names are kept lower-cased, one entry per name, in
    insertion order. *)
Definition Headers := list (jstring * jstring).

Definition sameName (name : jstring) (entry : jstring * jstring) : bool :=
  eqb (fst entry) (toLowerCase name).

(** [headers.get(name)]; [None] is [null]. *)
Definition get (name : jstring) (h : Headers) : option jstring :=
  option_map snd (find (sameName name) h).

(** [headers.delete(name)] *)
Definition delete (name : jstring) (h : Headers) : Headers :=
  filter (fun entry => negb (sameName name entry)) h.

(** [headers.set(name, value)]: the first entry of that name takes the
    value and later ones are removed; a new name is added at the end. *)
Fixpoint set (name value : jstring) (h : Headers) : Headers :=
  match h with
  | [] => [(toLowerCase name, value)]
  | entry :: rest =>
      if sameName name entry then (fst entry, value) :: delete name rest
      else entry :: set name value rest
  end.

(** [new Headers(init)] for an object literal [init]. *)
Definition ofList (init : list (jstring * jstring)) : Headers :=
  fold_left (fun h entry => set (fst entry) (snd entry) h) init [].

(** A response with bodies of type [B]. *)
Record Response (B : Type) : Type := mkResponse {
  status : Z;
  statusText : jstring;
  headers : Headers;
  body : B
}.

(** [response.ok] *)
Definition ok {B} (r : Response B) : bool :=
  (200 <=? status r)%Z && (status r <=? 299)%Z.

End Http.

(** ** The static resource handler ([handler.ts]) *)

Module Handler.

Import NodePath PathUtils JsNumber.

(** What [stat] resolves with. *)
Inductive FileKind := IsFile | IsDirectory | IsOther.

Record Stats := mkStats {
  kind : FileKind;
  size : N;          (* [stats.size], in bytes *)
  mtime : Z          (* [stats.mtime.getTime()], in milliseconds *)
}.

Definition isFile (s : Stats) : bool :=
  match kind s with IsFile => true | _ => false end.

Definition isDirectory (s : Stats) : bool :=
  match kind s with IsDirectory => true | _ => false end.

(** [stat] resolves with the stats or rejects with an error code. *)
Inductive StatResult :=
| StatOk (stats : Stats)
| StatError (code : jstring).

(** The file system as the handler sees it. *)
Record FileSystem := mkFileSystem {
  fs_stat : jstring -> StatResult;
  fs_existsSync : jstring -> bool;
  fs_readdir : jstring -> option (list jstring)   (* [None]: rejects *)
}.

(** The calls made on the file system, with the path given to each. *)
Inductive FsOp :=
| OpStat (path : jstring)
| OpExistsSync (path : jstring)
| OpReaddir (path : jstring)
| OpFile (path : jstring).     (* [Bun.file(path)]: read when the body is sent *)

Definition opPath (op : FsOp) : jstring :=
  match op with
  | OpStat p | OpExistsSync p | OpReaddir p | OpFile p => p
  end.

(** A computation that records its file system calls. *)
Definition Fs (A : Type) : Type := (A * list FsOp)%type.

Definition ret {A} (a : A) : Fs A := (a, []).

Definition bind {A B} (m : Fs A) (k : A -> Fs B) : Fs B :=
  let (b, ops) := k (fst m) in (b, snd m ++ ops).

Notation "x <- m ;; k" := (bind m (fun x => k))
  (at level 61, m at next level, right associativity).

(** One row of a directory listing. *)
Record Entry := mkEntry {
  name : jstring;
  path : jstring;
  sizeText : jstring;
  mtimeText : jstring;
  type : jstring;
  entryIsDirectory : bool
}.

(** The body given to [new Response]. *)
Inductive BodyInit :=
| NoBody
| TextBody (text : jstring)
| FileBody (file : jstring)
| ListingBody (urlPath : jstring) (files : list Entry) (parent : option jstring).

Definition Response := Http.Response BodyInit.

(** What the handler takes from its surroundings: the working directory
    and the functions of the runtime ([path.extname], the date formats,
    [encodeURIComponent], [localeCompare]), the table of [utils/mime.ts]
    (which [registerMimeType] can extend), and its own [formatSize],
    which computes with floating-point logarithms and is kept as a
    function from sizes to strings. *)
Record Platform := mkPlatform {
  cwd : jstring;
  extname : jstring -> jstring;
  toUTCString : Z -> jstring;
  toISOString : Z -> jstring;
  formatSize : N -> jstring;
  encodeURIComponent : jstring -> jstring;
  localeCompare : jstring -> jstring -> Z;
  mimeTypes : list (jstring * jstring)
}.

(** [new Response(body, { status, headers })]: the headers of the
    response are the ones given; the runtime adds none to them. *)
Definition newResponse (b : BodyInit) (status : Z) (h : Http.Headers)
  : Response :=
  Http.mkResponse status [] h b.

Definition HandlerOptions := (bool * bool)%type.
Definition enableSPA (o : HandlerOptions) : bool := fst o.
Definition enableDirectoryListing (o : HandlerOptions) : bool := snd o.

Definition dquote : ascii := "034"%char.

(** The validator [serveFile] builds from the size and the modification
    time of a file. *)
Definition etagOf (stats : Stats) : jstring :=
  str "W/" ++ dquote :: toString16 (Z.of_N (size stats)) ++
  str "-" ++ toString16 (mtime stats) ++ [dquote].

Section WithPlatform.

Variable P : Platform.
Variable fs : FileSystem.

Definition stat (p : jstring) : Fs StatResult := (fs_stat fs p, [OpStat p]).
Definition existsSync (p : jstring) : Fs bool :=
  (fs_existsSync fs p, [OpExistsSync p]).
Definition readdir (p : jstring) : Fs (option (list jstring)) :=
  (fs_readdir fs p, [OpReaddir p]).
Definition bunFile (p : jstring) : Fs BodyInit := (FileBody p, [OpFile p]).

(** [getMimeType] of [utils/mime.ts]: a table keyed by the lower-cased
    extension, with a default. *)
Definition getMimeType (ext : jstring) : jstring :=
  orElse (option_map snd
            (find (fun e => eqb (fst e) (toLowerCase ext)) (mimeTypes P)))
         (str "application/octet-stream").

(** [serveFile] *)
Definition serveFile (filePath : jstring) (stats : Stats) (method : jstring)
  : Fs Response :=
  let headers : Http.Headers := [] in
  let ext := toLowerCase (extname P filePath) in
  let contentType :=
    orElse (Some (getMimeType ext)) (str "application/octet-stream") in
  let headers := Http.set (str "Content-Type") contentType headers in
  let headers :=
    Http.set (str "Last-Modified") (toUTCString P (mtime stats)) headers in
  let etag := etagOf stats in
  let headers := Http.set (str "ETag") etag headers in
  if eqb method (str "HEAD") then
    let headers :=
      Http.set (str "Content-Length") (toString10 (Z.of_N (size stats)))
        headers in
    ret (newResponse NoBody 200 headers)
  else
    file <- bunFile filePath ;;
    ret (newResponse file 200 headers).

(** The comparison given to [files.sort]: directories first, then by
    name. *)
Definition compareEntries (a b : Entry) : Z :=
  if entryIsDirectory a && negb (entryIsDirectory b) then (-1)%Z
  else if negb (entryIsDirectory a) && entryIsDirectory b then 1%Z
  else localeCompare P (name a) (name b).

(** [Array.prototype.sort] is stable: an entry is placed after the
    entries that do not compare greater than it. *)
Fixpoint insertSorted (x : Entry) (l : list Entry) : list Entry :=
  match l with
  | [] => [x]
  | y :: r =>
      if (compareEntries y x <=? 0)%Z then y :: insertSorted x r
      else x :: l
  end.

Definition sortEntries (l : list Entry) : list Entry :=
  fold_left (fun acc x => insertSorted x acc) l [].

(** The row of one directory entry; an entry whose [stat] fails gives
    no row. *)
Definition entryRow (dirPath urlPath entry : jstring) : Fs (option Entry) :=
  let entryPath := join [dirPath; entry] in
  r <- stat entryPath ;;
  match r with
  | StatOk entryStat =>
      let isDir := isDirectory entryStat in
      ret (Some
        {| name := entry;
           path := if isDir
                   then createDirectoryUrl (encodeURIComponent P) urlPath entry
                   else createFileUrl (encodeURIComponent P) urlPath entry;
           sizeText := formatSize P (size entryStat);
           mtimeText := toISOString P (mtime entryStat);
           type := if isDir then str "directory"
                   else orElse (Some (getMimeType (extname P entry)))
                               (str "application/octet-stream");
           entryIsDirectory := isDir |})
  | StatError _ => ret None
  end.

Fixpoint entryRows (dirPath urlPath : jstring) (entries : list jstring)
  : Fs (list (option Entry)) :=
  match entries with
  | [] => ret []
  | entry :: rest =>
      row <- entryRow dirPath urlPath entry ;;
      rows <- entryRows dirPath urlPath rest ;;
      ret (row :: rows)
  end.

Definition keepSome {A} (l : list (option A)) : list A :=
  flat_map (fun x => match x with Some a => [a] | None => [] end) l.

(** [serveDirectory]; the HTML document of [generateDirectoryListing] is
    kept as its three arguments. *)
Definition serveDirectory (dirPath urlPath : jstring) : Fs Response :=
  listed <- readdir dirPath ;;
  match listed with
  | Some entries =>
      fileResults <- entryRows dirPath urlPath entries ;;
      let files := sortEntries (keepSome fileResults) in
      let parent := getParentDirectoryUrl urlPath in
      ret (newResponse (ListingBody urlPath files parent) 200
             (Http.ofList [(str "Content-Type", str "text/html; charset=utf-8")]))
  | None =>
      ret (newResponse (TextBody (str "Internal Server Error")) 500 [])
  end.

Definition notFound : Response :=
  newResponse (TextBody (str "Not Found")) 404
    (Http.ofList [(str "Content-Type", str "text/plain")]).

(** Serving an [index.html] when it exists and its [stat] succeeds;
    [None] when the caller has to go on. *)
Definition tryIndex (indexPath method : jstring) : Fs (option Response) :=
  found <- existsSync indexPath ;;
  if found then
    r <- stat indexPath ;;
    match r with
    | StatOk indexStats =>
        served <- serveFile indexPath indexStats method ;;
        ret (Some served)
    | StatError _ => ret None
    end
  else ret None.

(** [handler] *)
Definition handler (rootDir requestPath method : jstring)
  (options : HandlerOptions) : Fs Response :=
  let rootDirStr := rootDir in
  if negb (eqb method (str "GET")) && negb (eqb method (str "HEAD")) then
    ret (newResponse (TextBody (str "Method Not Allowed")) 405
           (Http.ofList [(str "Allow", str "GET, HEAD")]))
  else
    let requestPath := normalizeUrlPath requestPath in
    let filePath := resolveStaticPath rootDirStr requestPath in
    if negb (isPathUnderRoot (cwd P) filePath rootDirStr) then
      ret (newResponse (TextBody (str "Forbidden")) 403 [])
    else
      r <- stat filePath ;;
      match r with
      | StatOk stats =>
          if isFile stats then serveFile filePath stats method
          else if isDirectory stats then
            if negb (endsWith requestPath (str "/")) then
              let redirectUrl := requestPath ++ str "/" in
              ret (newResponse NoBody 301
                     (Http.ofList [(str "Location", redirectUrl);
                                   (str "Content-Type", str "text/plain");
                                   (str "Content-Length", str "0")]))
            else
              let indexPath := join [filePath; str "index.html"] in
              index <- tryIndex indexPath method ;;
              match index with
              | Some served => ret served
              | None =>
                  if enableDirectoryListing options
                  then serveDirectory filePath requestPath
                  else ret notFound
              end
          else ret notFound
      | StatError code =>
          if enableSPA options && eqb code (str "ENOENT") then
            let indexPath := join [rootDirStr; str "index.html"] in
            index <- tryIndex indexPath method ;;
            match index with
            | Some served => ret served
            | None => ret notFound
            end
          else ret notFound
      end.

End WithPlatform.

End Handler.

(** ** Where a path leads

    The lexical meaning of a path, on directories written as the list of
    their names from the innermost one outwards: an empty segment and
    ["."] stay, [".."] goes to the parent (the root is its own parent), a
    name goes down. *)

Module Lexical.

Import NodePath.

Definition Directory := list jstring.

Fixpoint follow (dir : Directory) (segs : list jstring) : Directory :=
  match segs with
  | [] => dir
  | seg :: rest =>
      follow (if eqb seg [] || eqb seg (str ".") then dir
              else if eqb seg (str "..") then tl dir
              else seg :: dir) rest
  end.

(** The directory a path stands for, seen from the working directory
    [cwd]. *)
Definition place (cwd path : jstring) : Directory :=
  follow (if isAbsolute path then [] else follow [] (split cwd)) (split path).

(** [dir] is [root] or lies below it. *)
Definition within (root dir : Directory) : Prop :=
  exists rest, rev dir = rev root ++ rest.

(** The file system path [path] is contained in the root directory. *)
Definition contained (cwd rootDir path : jstring) : Prop :=
  within (place cwd rootDir) (place cwd path).

(** The URL path [urlPath], followed from the root directory, ends
    outside of it. *)
Definition escapes (cwd rootDir urlPath : jstring) : Prop :=
  ~ within (place cwd rootDir) (follow (place cwd rootDir) (split urlPath)).

(** A name a directory can hold. *)
Definition isName (seg : jstring) : Prop :=
  seg <> [] /\ seg <> str "." /\ seg <> str ".." /\
  Forall (fun c => is_slash c = false) seg.

End Lexical.

(** ** Requests, response objects and the state of the process *)

Module Runtime.

(** A parsed URL; [href] is the string the runtime gives as
    [request.url]. *)
Record URL := mkURL {
  protocol : jstring;     (* with its colon, as in [https:] *)
  host : jstring;
  pathname : jstring;
  search : jstring        (* empty, or the query with its question mark *)
}.

Definition href (u : URL) : jstring :=
  protocol u ++ str "//" ++ host u ++ pathname u ++ search u.

Record Request := mkRequest {
  method : jstring;
  target : URL;
  requestHeaders : Http.Headers
}.

(** [req.url] *)
Definition url (req : Request) : jstring := href (target req).

(** *** The path of a parsed URL

    [new URL(req.url).pathname]: the URL parser reads the path segment
    by segment, with ["/"] and, for the schemes a server is reached by,
    the backslash as separators.  A double-dot segment ([".."], also
    written with [%2e] for a dot, in either case) removes the segment
    kept last, a single-dot segment is dropped, and each of the two
    leaves an empty segment when it is the last one; every other segment
    is kept, the empty ones too.  The path is written with a separator
    before each segment that is kept.  The characters the parser would
    write as escapes are taken as written that way in [req.url]
    already. *)

Definition isSingleDotSegment (segment : jstring) : bool :=
  let s := toLowerCase segment in
  eqb s (str ".") || eqb s (str "%2e").

Definition isDoubleDotSegment (segment : jstring) : bool :=
  let s := toLowerCase segment in
  eqb s (str "..") || eqb s (str ".%2e") || eqb s (str "%2e.") ||
  eqb s (str "%2e%2e").

(** The path state of the parser; [kept] holds the segments kept so
    far, the last one first. *)
Fixpoint parsePath (kept : list jstring) (segments : list jstring)
  : list jstring :=
  match segments with
  | [] => rev kept
  | segment :: rest =>
      let atEnd := match rest with [] => true | _ :: _ => false end in
      if isDoubleDotSegment segment then
        parsePath (if atEnd then [] :: tl kept else tl kept) rest
      else if isSingleDotSegment segment then
        parsePath (if atEnd then [] :: kept else kept) rest
      else parsePath (segment :: kept) rest
  end.

(** The backslash counts as a separator. *)
Definition asSeparators (path : jstring) : jstring :=
  map (fun c => if Ascii.eqb c PathUtils.backslash then slash else c) path.

(** The segments of a path, after the separator it starts with. *)
Definition segmentsOf (path : jstring) : list jstring :=
  match asSeparators path with
  | c :: rest => NodePath.split (if is_slash c then rest else c :: rest)
  | [] => [[]]
  end.

(** [new URL(s).pathname] for the path of [s]. *)
Definition parsedPathname (path : jstring) : jstring :=
  flat_map (fun segment => slash :: segment) (parsePath [] (segmentsOf path)).

(** [new URL(req.url).pathname] *)
Definition urlPathname (req : Request) : jstring :=
  parsedPathname (pathname (target req)).

(** The body of a response object is a cell of the store: its bytes, and
    whether it has been read. *)
Record Cell := mkCell {
  content : list Byte.byte;
  disturbed : bool
}.

(** A response object; a [null] body is [None]. *)
Definition Response := Http.Response (option nat).

(** An entry of the cache. *)
Record CacheEntry := mkCacheEntry {
  data : Response;
  expires : Z
}.

(** The state of the process: the body cells, the module-level
    [memoryCache] of [middleware/cache.ts], and the requests that reached
    the terminal handler, the latest first. *)
Record State := mkState {
  store : list Cell;
  memoryCache : list (jstring * CacheEntry);
  handled : list jstring
}.

Inductive Error :=
| TypeError (message : jstring).

Inductive Outcome (A : Type) : Type :=
| Ok (a : A) (s : State)
| Throw (e : Error) (s : State).

Arguments Throw {A} e s.

(** An asynchronous computation, run to its end. *)
Definition M (A : Type) : Type := State -> Outcome A.

Definition ret {A} (a : A) : M A := fun s => Ok a s.

Definition bind {A B} (m : M A) (k : A -> M B) : M B :=
  fun s =>
    match m s with
    | Ok a s' => k a s'
    | Throw e s' => Throw e s'
    end.

Notation "x <- m ;; k" := (bind m (fun x => k))
  (at level 61, m at next level, right associativity).
Notation "m ;;; k" := (bind m (fun _ => k))
  (at level 61, right associativity).

(** The state a computation ends in. *)
Definition stateOf {A} (o : Outcome A) : State :=
  match o with
  | Ok _ s => s
  | Throw _ s => s
  end.

(** A middleware takes the request and the continuation [next]. *)
Definition Middleware : Type := Request -> M Response -> M Response.

(** *** Bodies *)

Definition allocate (c : Cell) : M nat :=
  fun s =>
    Ok (List.length (store s))
       (mkState (store s ++ [c]) (memoryCache s) (handled s)).

Fixpoint disturbAt (i : nat) (cells : list Cell) {struct cells}
  : list Cell :=
  match cells, i with
  | [], _ => []
  | c :: rest, O => mkCell (content c) true :: rest
  | c :: rest, S j => c :: disturbAt j rest
  end.

(** Reading a body to its end: the bytes once, an error afterwards. *)
Definition readBody (b : option nat) : M (list Byte.byte) :=
  fun s =>
    match b with
    | None => Ok [] s
    | Some i =>
        match nth_error (store s) i with
        | Some c =>
            if disturbed c then
              Throw (TypeError (str "Body already used")) s
            else
              Ok (content c)
                 (mkState (disturbAt i (store s)) (memoryCache s) (handled s))
        | None => Throw (TypeError (str "Body already used")) s
        end
    end.

(** [response.arrayBuffer()] *)
Definition arrayBuffer (r : Response) : M (list Byte.byte) :=
  readBody (Http.body r).

(** [response.bodyUsed] *)
Definition bodyUsed (r : Response) (s : State) : bool :=
  match Http.body r with
  | None => false
  | Some i =>
      match nth_error (store s) i with
      | Some c => disturbed c
      | None => true
      end
  end.

(** [response.clone()]: a response with a body of its own that holds the
    same bytes; an error when the body has been read. *)
Definition clone (r : Response) : M Response :=
  fun s =>
    match Http.body r with
    | None => Ok r s
    | Some i =>
        match nth_error (store s) i with
        | Some c =>
            if disturbed c then
              Throw (TypeError (str "Body already used")) s
            else
              bind (allocate (mkCell (content c) false))
                   (fun j => ret (Http.mkResponse (Http.status r)
                                    (Http.statusText r) (Http.headers r)
                                    (Some j))) s
        | None => Throw (TypeError (str "Body already used")) s
        end
    end.

(** [new Response(bytes, { status, statusText, headers })] *)
Definition newResponse (bytes : option (list Byte.byte)) (status : Z)
  (statusText : jstring) (h : Http.Headers) : M Response :=
  match bytes with
  | None => ret (Http.mkResponse status statusText h None)
  | Some b =>
      i <- allocate (mkCell b false) ;;
      ret (Http.mkResponse status statusText h (Some i))
  end.

(** *** The terminal handler

    What the terminal handler answers to a request: it builds a new
    response object and is recorded in [handled]. *)
Record Reply := mkReply {
  replyStatus : Z;
  replyStatusText : jstring;
  replyHeaders : Http.Headers;
  replyBody : option (list Byte.byte)
}.

Definition recordHandled (req : Request) : M unit :=
  fun s => Ok tt (mkState (store s) (memoryCache s) (url req :: handled s)).

Definition respond (terminal : Request -> Reply) (req : Request) : M Response :=
  recordHandled req ;;;
  let reply := terminal req in
  newResponse (replyBody reply) (replyStatus reply) (replyStatusText reply)
    (replyHeaders reply).

End Runtime.

(** ** The insertion-ordered [Map] *)

Module JsMap.

Section WithValues.

Variable V : Type.

Definition t := list (jstring * V).

Definition hasKey (k : jstring) (e : jstring * V) : bool := eqb (fst e) k.

(** [m.get(k)]; [None] is [undefined]. *)
Definition get (k : jstring) (m : t) : option V :=
  option_map snd (find (hasKey k) m).

(** [m.delete(k)] *)
Definition delete (k : jstring) (m : t) : t :=
  filter (fun e => negb (hasKey k e)) m.

(** [m.set(k, v)]: a key that is present keeps its place, a new key goes
    to the end. *)
Fixpoint set (k : jstring) (v : V) (m : t) : t :=
  match m with
  | [] => [(k, v)]
  | e :: rest => if hasKey k e then (k, v) :: rest else e :: set k v rest
  end.

(** [m.size] *)
Definition size (m : t) : Z := Z.of_nat (List.length m).

(** [m.keys().next().value]; [None] is [undefined]. *)
Definition firstKey (m : t) : option jstring :=
  match m with
  | [] => None
  | e :: _ => Some (fst e)
  end.

Definition keys (m : t) : list jstring := map fst m.

End WithValues.

End JsMap.

(** ** The middleware chain ([middleware/chain.ts]) *)

Module Chain.

Import Runtime.

(** [execute] for middlewares that call [next] at most once, as the
    ones of this repository do: each call of [next] runs the following
    middleware, the terminal handler after the last one. *)
Definition execute (middlewares : list Middleware) (req : Request)
  (finalHandler : M Response) : M Response :=
  fold_right (fun middleware next => middleware req next) finalHandler
    middlewares.

End Chain.

(** ** The response cache ([middleware/cache.ts]) *)

Module Cache.

Import Runtime.

Record CacheOptions := mkCacheOptions {
  maxAge : Z;      (* seconds *)
  maxSize : Z
}.

(** [cache()] without options. *)
Definition defaults : CacheOptions := mkCacheOptions 0 100.

Definition getMemoryCache : M (JsMap.t CacheEntry) :=
  fun s => Ok (memoryCache s) s.

Definition updateMemoryCache
  (f : JsMap.t CacheEntry -> JsMap.t CacheEntry) : M unit :=
  fun s => Ok tt (mkState (store s) (f (memoryCache s)) (handled s)).

(** The entry of [cacheKey] when it is there and has not expired. *)
Definition lookupFresh (cacheKey : jstring) (now : Z)
  (m : JsMap.t CacheEntry) : option CacheEntry :=
  match JsMap.get cacheKey m with
  | Some cached => if (expires cached >? now)%Z then Some cached else None
  | None => None
  end.

(** The middleware [cache(options)] builds; [now] is what [Date.now()]
    gives when the request comes in. *)
Definition cache (options : CacheOptions) (now : Z) : Middleware :=
  fun req next =>
    if negb (eqb (method req) (str "GET")) || (maxAge options <=? 0)%Z
    then next
    else
      let cacheKey := url req in
      m <- getMemoryCache ;;
      match lookupFresh cacheKey now m with
      | Some cached =>
          updateMemoryCache (JsMap.delete cacheKey) ;;;
          updateMemoryCache (JsMap.set cacheKey cached) ;;;
          clone (data cached)
      | None =>
          response <- next ;;
          (if Http.ok response then
             copy <- clone response ;;
             updateMemoryCache
               (JsMap.set cacheKey
                  (mkCacheEntry copy (now + maxAge options * 1000)%Z)) ;;;
             m' <- getMemoryCache ;;
             if (JsMap.size m' >? maxSize options)%Z then
               match JsMap.firstKey m' with
               | Some oldestKey => updateMemoryCache (JsMap.delete oldestKey)
               | None => ret tt
               end
             else ret tt
           else ret tt) ;;;
          ret response
      end.

End Cache.

(** ** The compression stage ([middleware/compression.ts]) *)

Module Compression.

Import Runtime.

Record CompressionOptions := mkCompressionOptions {
  level : Z;
  types : list jstring
}.

Definition defaultTypes : list jstring :=
  [str "text/plain"; str "text/html"; str "text/css"; str "text/javascript";
   str "application/javascript"; str "application/json";
   str "application/xml"; str "image/svg+xml"].

Definition defaults : CompressionOptions :=
  mkCompressionOptions 6 defaultTypes.

(** The two encoders of [node:zlib], by their level. *)
Record Zlib := mkZlib {
  brotliCompressSync : list Byte.byte -> Z -> list Byte.byte;
  gzipSync : list Byte.byte -> Z -> list Byte.byte
}.

Section WithZlib.

Variable zlib : Zlib.

Definition encoded (response : Response) (encoding : jstring)
  (compressed : list Byte.byte) : M Response :=
  let headers := Http.headers response in
  let headers := Http.set (str "Content-Encoding") encoding headers in
  let headers := Http.delete (str "Content-Length") headers in
  newResponse (Some compressed) (Http.status response)
    (Http.statusText response) headers.

Definition compression (options : CompressionOptions) : Middleware :=
  fun req next =>
    let acceptEncoding :=
      orElse (Http.get (str "Accept-Encoding") (requestHeaders req)) [] in
    response <- next ;;
    let contentType :=
      orElse (Http.get (str "Content-Type") (Http.headers response)) [] in
    let shouldCompress :=
      existsb (fun type => includes contentType type) (types options) in
    if negb shouldCompress then ret response
    else
      body <- arrayBuffer response ;;
      if includes acceptEncoding (str "br") then
        encoded response (str "br")
          (brotliCompressSync zlib body (level options))
      else if includes acceptEncoding (str "gzip") then
        encoded response (str "gzip") (gzipSync zlib body (level options))
      else ret response.

End WithZlib.

End Compression.

(** ** The CORS stage ([middleware/cors.ts]) *)

Module Cors.

Import Runtime JsNumber.

Inductive Origin :=
| OneOrigin (origin : jstring)
| OriginList (origins : list jstring).

Record CorsOptions := mkCorsOptions {
  origin : Origin;
  methods : list jstring;
  allowedHeaders : list jstring;
  exposedHeaders : list jstring;
  credentials : bool;
  maxAge : Z
}.

Definition defaults : CorsOptions :=
  mkCorsOptions (OneOrigin (str "*"))
    [str "GET"; str "HEAD"; str "PUT"; str "PATCH"; str "POST"; str "DELETE"]
    [] [] false 86400.

(** [list.join(', ')] *)
Fixpoint joinComma (l : list jstring) : jstring :=
  match l with
  | [] => []
  | [x] => x
  | x :: rest => x ++ str ", " ++ joinComma rest
  end.

(** [list.includes(x)] *)
Definition listIncludes (l : list jstring) (x : jstring) : bool :=
  existsb (eqb x) l.

(** [list[0]] as a header value: [undefined] is written out. *)
Definition firstOrUndefined (l : list jstring) : jstring :=
  match l with
  | first :: _ => first
  | [] => str "undefined"
  end.

Definition originValueFor (o : Origin) (requestOrigin : jstring) : jstring :=
  match o with
  | OriginList origins =>
      if listIncludes origins requestOrigin then requestOrigin
      else firstOrUndefined origins
  | OneOrigin value => value
  end.

Definition setIf (condition : bool) (name value : jstring)
  (h : Http.Headers) : Http.Headers :=
  if condition then Http.set name value h else h.

Definition truthy (s : jstring) : bool := negb (eqb s []).

(** [new Response(response.body, init)]: the new object reads from the
    body of the old one, which must not have been read. *)
Definition rewrap (response : Response) (h : Http.Headers) : M Response :=
  fun s =>
    if bodyUsed response s then
      Throw (TypeError (str "Body already used")) s
    else
      Ok (Http.mkResponse (Http.status response) (Http.statusText response)
            h (Http.body response)) s.

Definition cors (options : CorsOptions) : Middleware :=
  let methodsString := joinComma (methods options) in
  let exposedHeadersString := joinComma (exposedHeaders options) in
  let allowedHeadersString := joinComma (allowedHeaders options) in
  fun req next =>
    let requestOrigin :=
      orElse (Http.get (str "Origin") (requestHeaders req)) [] in
    let originValue := originValueFor (origin options) requestOrigin in
    if eqb (method req) (str "OPTIONS") then
      let headers : Http.Headers := [] in
      let headers :=
        Http.set (str "Access-Control-Allow-Origin") originValue headers in
      let headers :=
        setIf (credentials options)
          (str "Access-Control-Allow-Credentials") (str "true") headers in
      let headers :=
        setIf (truthy exposedHeadersString)
          (str "Access-Control-Expose-Headers") exposedHeadersString headers in
      let headers :=
        Http.set (str "Access-Control-Allow-Methods") methodsString headers in
      let requestHeaders' :=
        orElse (Http.get (str "Access-Control-Request-Headers")
                  (requestHeaders req)) [] in
      let headers :=
        setIf (truthy requestHeaders')
          (str "Access-Control-Allow-Headers")
          (orElse (Some allowedHeadersString) requestHeaders') headers in
      let headers :=
        Http.set (str "Access-Control-Max-Age") (toString10 (maxAge options))
          headers in
      newResponse None 204 [] headers
    else
      response <- next ;;
      let headers := Http.headers response in
      let headers :=
        Http.set (str "Access-Control-Allow-Origin") originValue headers in
      let headers :=
        setIf (credentials options)
          (str "Access-Control-Allow-Credentials") (str "true") headers in
      let headers :=
        setIf (truthy exposedHeadersString)
          (str "Access-Control-Expose-Headers") exposedHeadersString headers in
      rewrap response headers.

End Cors.
(** ** The table of content types ([utils/mime.ts]) *)

Module Mime.

(** The object [mimeTypes], as the map from its keys to its values. *)
Definition Table := JsMap.t jstring.

(** The table as the module starts with. *)
Definition initial : Table :=
  [(str ".html", str "text/html");
   (str ".css", str "text/css");
   (str ".js", str "application/javascript");
   (str ".json", str "application/json");
   (str ".png", str "image/png");
   (str ".jpg", str "image/jpeg");
   (str ".gif", str "image/gif");
   (str ".svg", str "image/svg+xml");
   (str ".wav", str "audio/wav");
   (str ".mp4", str "video/mp4");
   (str ".woff", str "application/font-woff");
   (str ".ttf", str "application/font-ttf");
   (str ".eot", str "application/vnd.ms-fontobject");
   (str ".otf", str "application/font-otf");
   (str ".wasm", str "application/wasm");
   (str ".jsx", str "text/jsx");
   (str ".tsx", str "application/typescript");
   (str ".md", str "text/markdown");
   (str ".webmanifest", str "application/manifest+json")].

(** [getMimeType] *)
Definition getMimeType (mimeTypes : Table) (ext : jstring) : jstring :=
  orElse (JsMap.get (toLowerCase ext) mimeTypes)
         (str "application/octet-stream").

(** [isTextMime] *)
Definition isTextMime (mimeType : jstring) : bool :=
  startsWith mimeType (str "text/") ||
  existsb (eqb mimeType)
    [str "application/json"; str "application/xml";
     str "application/javascript"; str "application/typescript"].

(** [isBinaryMime] *)
Definition isBinaryMime (mimeType : jstring) : bool :=
  negb (isTextMime mimeType).

(** [registerMimeType]: the table after the assignment. *)
Definition registerMimeType (ext mimeType : jstring) (mimeTypes : Table)
  : Table :=
  JsMap.set (toLowerCase ext) mimeType mimeTypes.

End Mime.

(** ** The security headers ([middleware/security.ts]) *)

Module Security.

Import Runtime JsNumber.

Inductive FrameOptions := Deny | SameOrigin.

Record Hsts := mkHsts {
  maxAge : Z;
  includeSubDomains : bool;    (* left out: [false] *)
  preload : bool               (* left out: [false] *)
}.

(** The options after their defaults are filled in; [None] is
    [false]. *)
Record SecurityOptions := mkSecurityOptions {
  xssProtection : bool;
  noSniff : bool;
  frameOptions : option FrameOptions;
  hsts : option Hsts
}.

(** [security()] without options. *)
Definition defaults : SecurityOptions :=
  mkSecurityOptions true true (Some Deny)
    (Some (mkHsts 15552000 true false)).

Definition frameValue (f : FrameOptions) : jstring :=
  match f with
  | Deny => str "DENY"
  | SameOrigin => str "SAMEORIGIN"
  end.

Definition hstsValueOf (h : Hsts) : jstring :=
  let hstsValue := str "max-age=" ++ toString10 (maxAge h) in
  let hstsValue :=
    if includeSubDomains h then hstsValue ++ str "; includeSubDomains"
    else hstsValue in
  if preload h then hstsValue ++ str "; preload" else hstsValue.

(** The object [headers], computed once when the middleware is built:
    its entries in the order they are assigned. *)
Definition headersOf (options : SecurityOptions)
  : list (jstring * jstring) :=
  (if xssProtection options
   then [(str "X-XSS-Protection", str "1; mode=block")] else []) ++
  (if noSniff options
   then [(str "X-Content-Type-Options", str "nosniff")] else []) ++
  (match frameOptions options with
   | Some f => [(str "X-Frame-Options", frameValue f)]
   | None => []
   end) ++
  (match hsts options with
   | Some h => [(str "Strict-Transport-Security", hstsValueOf h)]
   | None => []
   end).

(** [if (value) response.headers.set(key, value)] *)
Definition setEntry (h : Http.Headers) (entry : jstring * jstring)
  : Http.Headers :=
  if Cors.truthy (snd entry) then Http.set (fst entry) (snd entry) h else h.

(** The loop over the entries of [headers]: the response object stays
    the same, with its body. *)
Definition applyHeaders (entries : list (jstring * jstring))
  (response : Response) : Response :=
  Http.mkResponse (Http.status response) (Http.statusText response)
    (fold_left setEntry entries (Http.headers response))
    (Http.body response).

Definition security (options : SecurityOptions) : Middleware :=
  let headers := headersOf options in
  fun request next =>
    response <- next ;;
    if startsWith (url request) (str "https:")
    then ret (applyHeaders headers response)
    else ret response.

End Security.
(** ** The cursor of the middleware chain ([middleware/chain.ts])

    [execute] keeps one cursor [index] for the request; every call of
    [next], from whichever middleware, takes the middleware at the
    cursor and moves the cursor on, and calls the final handler when the
    cursor is past the last middleware.  To follow the cursor a
    middleware is written as the steps it takes: it returns a response,
    awaits a step of its own, or awaits [next()] and goes on with the
    response. *)

Module MiddlewareChain.

Import Runtime.

Inductive Steps : Type :=
| Return (response : Response)
| Await {X : Type} (step : M X) (k : X -> Steps)
| CallNext (k : Response -> Steps).

(** A middleware, by its steps for a request. *)
Definition Stage : Type := Request -> Steps.

(** The middleware as a function of [next]. *)
Fixpoint runWith (steps : Steps) (next : M Response) : M Response :=
  match steps with
  | Return response => ret response
  | Await step k => x <- step ;; runWith (k x) next
  | CallNext k => response <- next ;; runWith (k response) next
  end.

Definition asMiddleware (stage : Stage) : Middleware :=
  fun req next => runWith (stage req) next.

(** [use]: the chain with one more middleware at its end. *)
Definition use (middleware : Stage) (middlewares : list Stage) : list Stage :=
  middlewares ++ [middleware].

(** What [execute] did: the middlewares it entered, by their position,
    and the calls of the final handler. *)
Inductive Event :=
| Entered (position : nat)
| FinalHandler.

(** Where a call of [next] ends: with a response or an error, the
    cursor, and what was done. *)
Record Run := mkRun {
  outcome : Outcome Response;
  cursor : nat;
  events : list Event
}.

(** The steps of a middleware, with the [next] of the request; [None]
    when [next] gives none. *)
Fixpoint steps (next : nat -> State -> option Run) (todo : Steps)
  (index : nat) (s : State) : option Run :=
  match todo with
  | Return response => Some (mkRun (Ok response s) index [])
  | Await step k =>
      match step s with
      | Ok x s' => steps next (k x) index s'
      | Throw e s' => Some (mkRun (Throw e s') index [])
      end
  | CallNext k =>
      match next index s with
      | Some called =>
          match outcome called with
          | Ok response s' =>
              match steps next (k response) (cursor called) s' with
              | Some rest =>
                  Some (mkRun (outcome rest) (cursor rest)
                          (events called ++ events rest))
              | None => None
              end
          | Throw _ _ => Some called
          end
      | None => None
      end
  end.

Section Execute.

Variable middlewares : list Stage.
Variable req : Request.
Variable finalHandler : M Response.

(** The closure [next]; the calls of [next] nested in one another are
    counted down from [depth], and [None] is given when there are more
    than that. *)
Fixpoint next (depth : nat) (index : nat) (s : State) : option Run :=
  if List.length middlewares <=? index then
    Some (mkRun (finalHandler s) index [FinalHandler])
  else
    match depth, nth_error middlewares index with
    | S depth', Some middleware =>
        match steps (next depth') (middleware req) (S index) s with
        | Some run =>
            Some (mkRun (outcome run) (cursor run)
                    (Entered index :: events run))
        | None => None
        end
    | _, _ => None
    end.

(** [execute]: the cursor starts at the first middleware; a call of
    [next] is nested in at most one call for each middleware. *)
Definition execute (s : State) : option Run :=
  next (List.length middlewares) 0 s.

End Execute.

(** The positions of the middlewares entered. *)
Definition entered (run : Run) : list nat :=
  flat_map (fun e => match e with Entered i => [i] | FinalHandler => [] end)
    (events run).

(** The number of calls of the final handler. *)
Definition finalCalls (run : Run) : nat :=
  List.length
    (filter (fun e => match e with FinalHandler => true | _ => false end)
       (events run)).

(** The steps call [next] at most once, whatever comes back. *)
Fixpoint callsNext (n : nat) (todo : Steps) : Prop :=
  match todo with
  | Return _ => True
  | Await _ k => forall x, callsNext n (k x)
  | CallNext k =>
      match n with
      | O => False
      | S n' => forall response, callsNext n' (k response)
      end
  end.

End MiddlewareChain.
(** ** The server ([server.ts]) *)

Module Server.

Import Runtime.

Record ServerOptions := mkServerOptions {
  port : Z;
  host : jstring;
  root : jstring;
  handlerOptions : Handler.HandlerOptions;
  middleware : list Middleware
}.

(** [createServer()] without options; [cwd] is [process.cwd()]. *)
Definition defaults (cwd : jstring) : ServerOptions :=
  mkServerOptions 3000 (str "localhost") cwd (false, true) [].

(** The bytes the runtime sends for the bodies the handler gives: the
    encoding of a string, the contents of a file, and the document of
    [generateDirectoryListing]. *)
Record Content := mkContent {
  encodeText : jstring -> list Byte.byte;
  fileBytes : jstring -> list Byte.byte;
  listingHtml : jstring -> list Handler.Entry -> option jstring -> jstring
}.

Definition bodyBytes (C : Content) (b : Handler.BodyInit)
  : option (list Byte.byte) :=
  match b with
  | Handler.NoBody => None
  | Handler.TextBody text => Some (encodeText C text)
  | Handler.FileBody file => Some (fileBytes C file)
  | Handler.ListingBody urlPath files parent =>
      Some (encodeText C (listingHtml C urlPath files parent))
  end.

(** The final handler of the chain:
    [handler(root, new URL(req.url).pathname, req.method, handlerOptions)]. *)
Definition staticReply (P : Handler.Platform) (fs : Handler.FileSystem)
  (C : Content) (options : ServerOptions) (req : Request) : Reply :=
  let response :=
    fst (Handler.handler P fs (root options) (urlPathname req) (method req)
           (handlerOptions options)) in
  mkReply (Http.status response) (Http.statusText response)
    (Http.headers response) (bodyBytes C (Http.body response)).

(** The [try] and [catch] of [handleRequest] around the chain: an error
    is answered with 500. *)
Definition serve (C : Content) (middlewares : list Middleware)
  (terminal : Request -> Reply) (req : Request) : M Response :=
  fun s =>
    match Chain.execute middlewares req (respond terminal req) s with
    | Ok response s' => Ok response s'
    | Throw _ s' =>
        newResponse (Some (encodeText C (str "Internal Server Error"))) 500 []
          (Http.ofList [(str "Content-Type", str "text/plain")]) s'
    end.

(** [handleRequest] *)
Definition handleRequest (P : Handler.Platform) (fs : Handler.FileSystem)
  (C : Content) (options : ServerOptions) (req : Request) : M Response :=
  serve C (middleware options) (staticReply P fs C options) req.

End Server.
(** ** The logger ([utils/logger.ts]) *)

Module Logger.

Import Runtime JsNumber.

Inductive LogLevel := DEBUG | INFO | WARN | ERROR | NONE.

(** The number of a level. *)
Definition rank (l : LogLevel) : Z :=
  match l with
  | DEBUG => 0
  | INFO => 1
  | WARN => 2
  | ERROR => 3
  | NONE => 4
  end.

(** The options object; a field that is left out is [None]. *)
Record LoggerOptions := mkLoggerOptions {
  level : option LogLevel;
  prefix : option jstring;
  timestamp : option bool;
  colors : option bool
}.

Definition escape : ascii := "027"%char.

Definition reset : jstring := escape :: str "[0m".
Definition dim : jstring := escape :: str "[2m".
Definition cyan : jstring := escape :: str "[36m".
Definition green : jstring := escape :: str "[32m".
Definition yellow : jstring := escape :: str "[33m".
Definition red : jstring := escape :: str "[31m".

(** [x = d] in a destructuring pattern: the default for a field that is
    left out. *)
Definition orDefault {A} (x : option A) (d : A) : A :=
  match x with
  | Some a => a
  | None => d
  end.

(** What [createLogger] takes from its options when it is called; the
    methods of the logger work with these. *)
Record Logger := mkLogger {
  levelTaken : LogLevel;
  prefixStr : jstring;
  timestampTaken : bool;
  useColors : bool
}.

Definition createLogger (options : LoggerOptions) : Logger :=
  mkLogger (orDefault (level options) INFO)
    (str "[" ++ orDefault (prefix options) (str "BunServe") ++ str "]")
    (orDefault (timestamp options) true)
    (orDefault (colors options) true).

Section WithArguments.

(** The further arguments of a logging call, handed on to
    [console.log]. *)
Variable Arg : Type.

(** The options object the logger was made from, and what has been
    given to [console.log], the latest call last. *)
Record World := mkWorld {
  options : LoggerOptions;
  console : list (jstring * list Arg)
}.

Variable L : Logger.

(** [formatMessage]; [iso] is [new Date().toISOString()]. *)
Definition formatMessage (iso levelName message levelColor : jstring)
  : jstring :=
  let timeStr :=
    if timestampTaken L then dim ++ iso ++ reset ++ str " " else [] in
  let levelStr :=
    if useColors L then levelColor ++ str "[" ++ levelName ++ str "]" ++ reset
    else str "[" ++ levelName ++ str "]" in
  timeStr ++ levelStr ++ str " " ++ prefixStr L ++ str " " ++ message.

(** [logMessage] *)
Definition logMessage (iso levelName levelColor message : jstring)
  (args : list Arg) (w : World) : World :=
  mkWorld (options w)
    (console w ++ [(formatMessage iso levelName message levelColor, args)]).

(** [setLevel] *)
Definition setLevel (newLevel : LogLevel) (w : World) : World :=
  mkWorld
    (mkLoggerOptions (Some newLevel) (prefix (options w))
       (timestamp (options w)) (colors (options w)))
    (console w).

Definition debug (iso message : jstring) (args : list Arg) (w : World)
  : World :=
  if (rank (levelTaken L) <=? rank DEBUG)%Z
  then logMessage iso (str "DEBUG") cyan message args w else w.

Definition info (iso message : jstring) (args : list Arg) (w : World)
  : World :=
  if (rank (levelTaken L) <=? rank INFO)%Z
  then logMessage iso (str "INFO") green message args w else w.

Definition warn (iso message : jstring) (args : list Arg) (w : World)
  : World :=
  if (rank (levelTaken L) <=? rank WARN)%Z
  then logMessage iso (str "WARN") yellow message args w else w.

Definition error (iso message : jstring) (args : list Arg) (w : World)
  : World :=
  if (rank (levelTaken L) <=? rank ERROR)%Z
  then logMessage iso (str "ERROR") red message args w else w.

(** [request]; [now] is [Date.now()]. *)
Definition request (iso : jstring) (now : Z) (req : Request)
  (res : Response) (startTime : Z) (w : World) : World :=
  if (rank (levelTaken L) <=? rank INFO)%Z then
    let duration := (now - startTime)%Z in
    let path := urlPathname req in
    let status := Http.status res in
    let message :=
      method req ++ str " " ++ path ++ str " " ++ toString10 status ++
      str " " ++ toString10 duration ++ str "ms" in
    logMessage iso (str "HTTP") cyan message [] w
  else w.

(** A call of one of the methods of the logger, with what the clock
    shows when it is made. *)
Inductive Call :=
| SetLevel (newLevel : LogLevel)
| Debug (iso message : jstring) (args : list Arg)
| Info (iso message : jstring) (args : list Arg)
| Warn (iso message : jstring) (args : list Arg)
| Error (iso message : jstring) (args : list Arg)
| LogRequest (iso : jstring) (now : Z) (req : Request) (res : Response)
    (startTime : Z).

Definition call (c : Call) (w : World) : World :=
  match c with
  | SetLevel newLevel => setLevel newLevel w
  | Debug iso message args => debug iso message args w
  | Info iso message args => info iso message args w
  | Warn iso message args => warn iso message args w
  | Error iso message args => error iso message args w
  | LogRequest iso now req res startTime =>
      request iso now req res startTime w
  end.

(** Calls one after the other. *)
Definition calls (cs : list Call) (w : World) : World :=
  fold_left (fun w c => call c w) cs w.

End WithArguments.

End Logger.

(** ** Sample requests, replies and file systems *)

Module Examples.

Import Runtime.

Definition getRequest (protocol host pathname search : string) : Request :=
  mkRequest (str "GET")
    (mkURL (str protocol) (str host) (str pathname) (str search)) [].

Definition page : Reply :=
  mkReply 200 (str "OK") (Http.ofList [(str "Content-Type", str "text/html")])
    (Some [Byte.x3c; Byte.x70; Byte.x3e]).

Definition missing : Reply :=
  mkReply 404 (str "Not Found")
    (Http.ofList [(str "Content-Type", str "text/plain")])
    (Some [Byte.x34; Byte.x30; Byte.x34]).

Definition initial : State := mkState [] [] [].

(** A platform for the handler: the working directory is [/home/app]. *)
Definition platform : Handler.Platform :=
  Handler.mkPlatform (str "/home/app")
    (fun _ => str ".html") (fun _ => str "Thu, 01 Jan 1970 00:00:00 GMT")
    (fun _ => str "1970-01-01T00:00:00.000Z") (fun _ => str "0 B")
    (fun s => s) (fun _ _ => 0%Z)
    [(str ".html", str "text/html"); (str ".css", str "text/css")].

(** A tree with the directory [/srv/docs], which holds [guide.txt] and
    no [index.html]. *)
Definition docsTree : Handler.FileSystem :=
  Handler.mkFileSystem
    (fun p =>
       if eqb p (str "/srv") || eqb p (str "/srv/docs")
       then Handler.StatOk (Handler.mkStats Handler.IsDirectory 4096 0)
       else if eqb p (str "/srv/docs/guide.txt")
       then Handler.StatOk (Handler.mkStats Handler.IsFile 12 0)
       else Handler.StatError (str "ENOENT"))
    (fun _ => false)
    (fun p =>
       if eqb p (str "/srv") then Some [str "docs"]
       else if eqb p (str "/srv/docs") then Some [str "guide.txt"]
       else None).

(** A single-page application: only [/srv/index.html] exists. *)
Definition spaTree : Handler.FileSystem :=
  Handler.mkFileSystem
    (fun p =>
       if eqb p (str "/srv/index.html")
       then Handler.StatOk (Handler.mkStats Handler.IsFile 512 0)
       else Handler.StatError (str "ENOENT"))
    (fun p => eqb p (str "/srv/index.html"))
    (fun _ => None).

(** A site: the directory [/srv] with its [index.html]. *)
Definition siteTree : Handler.FileSystem :=
  Handler.mkFileSystem
    (fun p =>
       if eqb p (str "/srv")
       then Handler.StatOk (Handler.mkStats Handler.IsDirectory 4096 0)
       else if eqb p (str "/srv/index.html")
       then Handler.StatOk (Handler.mkStats Handler.IsFile 512 0)
       else Handler.StatError (str "ENOENT"))
    (fun p => eqb p (str "/srv/index.html"))
    (fun p => if eqb p (str "/srv") then Some [str "index.html"] else None).

(** Stand-ins for the two encoders: a marker byte in front of the
    input. *)
Definition zlib : Compression.Zlib :=
  Compression.mkZlib (fun b _ => Byte.x42 :: b) (fun b _ => Byte.x1f :: b).

(** Requests for one page over two schemes, and for three pages. *)
Definition viaHttp : Request := getRequest "http:" "example.org" "/a" "?x=1".
Definition viaHttps : Request := getRequest "https:" "example.org" "/a" "?x=1".
Definition pageA : Request := getRequest "http:" "example.org" "/a" EmptyString.

(** A terminal handler that answers every request with the page. *)
Definition answer : Request -> Reply := fun _ => page.

(** A CORS configuration with two origins, and a preflight request from
    a third one. *)
Definition corsOptions : Cors.CorsOptions :=
  Cors.mkCorsOptions
    (Cors.OriginList [str "https://app.example"; str "https://admin.example"])
    [str "GET"; str "POST"] [] [] true 600.

Definition foreign : Request :=
  mkRequest (str "OPTIONS") (target pageA)
    (Http.ofList [(str "Origin", str "https://evil.example")]).

(** The page, asked for by a client that accepts Brotli and by one that
    accepts gzip only. *)
Definition pageWithBrotli : Request :=
  mkRequest (str "GET") (target pageA)
    (Http.ofList [(str "Accept-Encoding", str "gzip, br")]).

Definition pageWithGzip : Request :=
  mkRequest (str "GET") (target pageA)
    (Http.ofList [(str "Accept-Encoding", str "gzip")]).

(** The bytes of a text: its characters, one byte each. *)
Definition content : Server.Content :=
  Server.mkContent (map byte_of_ascii) (fun _ => []) (fun _ _ _ => []).

(** Two middlewares by their steps: one that hands on to [next] and
    returns what comes back, one that answers 204 itself. *)
Definition handsOn : MiddlewareChain.Stage :=
  fun _ => MiddlewareChain.CallNext (fun r => MiddlewareChain.Return r).

Definition answersItself : MiddlewareChain.Stage :=
  fun _ => MiddlewareChain.Return (Http.mkResponse 204%Z [] [] None).

End Examples.

(** ** The vocabulary of the properties *)

(** *** Shapes of URL paths *)

Module UrlShape.

(** No separator is directly followed by another one. *)
Fixpoint noDoubleSlash (s : jstring) : Prop :=
  match s with
  | c :: r =>
      match r with
      | c' :: _ => is_slash c && is_slash c' = false /\ noDoubleSlash r
      | [] => True
      end
  | [] => True
  end.

(** The string does not start with a separator. *)
Definition noLeadingSlash (s : jstring) : Prop :=
  match s with
  | c :: _ => is_slash c = false
  | [] => True
  end.

(** A normalized URL path: one leading separator, then segments divided by
    single separators, with no separator at the end. *)
Definition normalForm (s : jstring) : Prop :=
  exists u, s = slash :: u /\ noLeadingSlash u /\ noDoubleSlash u /\
            endsWith u (str "/") = false.

(** The URL of a directory, with the separator at its end: what the two
    URL builders of a listing start from. *)
Definition baseOf (currentUrlPath : jstring) : jstring :=
  if endsWith currentUrlPath (str "/") then currentUrlPath
  else currentUrlPath ++ str "/".

End UrlShape.

(** *** Segments of a path *)

Module Segments.

Import NodePath.

(** A segment has no separator in it. *)
Definition slashFree (seg : jstring) : Prop :=
  Forall (fun c => is_slash c = false) seg.

(** A segment the scan keeps. *)
Definition kept (seg : jstring) : Prop := eqb seg [] || isDot seg = false.

(** Without [allowAboveRoot] no [".."] is kept. *)
Definition plain (seg : jstring) : Prop := isDotDot seg = false.

(** The segment is not empty. *)
Definition nonEmpty (seg : jstring) : Prop := seg <> [].

(** The segment is not empty, as a test. *)
Definition named (seg : jstring) : bool := negb (eqb seg []).

(** The non-empty segments of a path. *)
Definition names (s : jstring) : list jstring := filter named (split s).

(** No segment of the path is ["."] or [".."]. *)
Definition dotless (s : jstring) : Prop :=
  Forall (fun seg => isDot seg = false /\ isDotDot seg = false) (split s).

(** Every character is one of the 128 ASCII characters, on which
    [toLowerCase] changes the letters A to Z only. *)
Definition isAscii (s : jstring) : Prop :=
  Forall (fun c => nat_of_ascii c < 128) s.

End Segments.

(** *** Calls on the file system *)

Module HandlerSpec.

Import Handler Lexical.

(** Every call is made on a path that is allowed. *)
Definition allAllowed (allowed : jstring -> Prop) (ops : list FsOp) : Prop :=
  Forall (fun op => allowed (opPath op)) ops.

(** Directory entries are names. *)
Definition entriesAreNames (fs : FileSystem) : Prop :=
  forall dir entries,
    fs_readdir fs dir = Some entries -> Forall isName entries.

(** In a listing every directory comes before every file. *)
Definition directoriesFirst (files : list Entry) : Prop :=
  exists dirs others,
    files = dirs ++ others /\
    Forall (fun e => entryIsDirectory e = true) dirs /\
    Forall (fun e => entryIsDirectory e = false) others.

(** The entry of a directory has a [stat] that succeeds. *)
Definition statSucceeds (fs : FileSystem) (dirPath entry : jstring) : bool :=
  match fs_stat fs (NodePath.join [dirPath; entry]) with
  | StatOk _ => true
  | StatError _ => false
  end.

End HandlerSpec.

(** *** Response objects and replies *)

Module Bodies.

Import Runtime.

(** The body of [r] has not been read and holds the bytes [b]. *)
Definition holds (s : State) (r : Response) (b : list Byte.byte) : Prop :=
  match Http.body r with
  | Some i => nth_error (store s) i = Some (mkCell b false)
  | None => b = []
  end.

(** [s'] has the cells of [s], unchanged, and maybe new ones. *)
Definition extends (s s' : State) : Prop :=
  exists more, store s' = store s ++ more.

(** Same status, status text and headers. *)
Definition sameHead (r r' : Response) : Prop :=
  Http.status r = Http.status r' /\
  Http.statusText r = Http.statusText r' /\
  Http.headers r = Http.headers r'.

(** The response carries the status, status text and headers of the
    reply. *)
Definition answers (reply : Reply) (r : Response) : Prop :=
  Http.status r = replyStatus reply /\
  Http.statusText r = replyStatusText reply /\
  Http.headers r = replyHeaders reply.

(** The bytes of a reply; none for a [null] body. *)
Definition bytesOf (reply : Reply) : list Byte.byte :=
  match replyBody reply with
  | Some b => b
  | None => []
  end.

(** The body of [r] is a cell that [s] does not have yet, or [null]. *)
Definition newBody (s : State) (r : Response) : Prop :=
  Http.body r = None \/ Http.body r = Some (List.length (store s)).

(** [response.ok] for the status of a reply. *)
Definition replyOk (reply : Reply) : bool :=
  (200 <=? replyStatus reply)%Z && (replyStatus reply <=? 299)%Z.

End Bodies.

(** *** The entry map *)

Module CacheSpec.

Import Runtime Cache Bodies.

(** The eviction after an insertion: when the map has grown past
    [maxSize], its oldest key goes. *)
Definition evict (maxSize : Z) (m : JsMap.t CacheEntry) : JsMap.t CacheEntry :=
  if (JsMap.size m >? maxSize)%Z then
    match JsMap.firstKey m with
    | Some oldestKey => JsMap.delete oldestKey m
    | None => m
    end
  else m.

(** The state with another entry map. *)
Definition withCache (s : State) (m : JsMap.t CacheEntry) : State :=
  mkState (store s) m (handled s).

(** A URL as the runtime parses it: the protocol is a scheme and a colon,
    the host has no separator and the path starts with one. *)
Definition wellFormed (u : URL) : Prop :=
  (exists scheme, protocol u = scheme ++ str ":" /\ ~ In ":"%char scheme) /\
  ~ In slash (host u) /\
  NodePath.isAbsolute (pathname u) = true.


(** Every stored response has a body that has not been read. *)
Definition readable (s : State) : Prop :=
  Forall (fun e => exists b, holds s (data (snd e)) b) (memoryCache s).

End CacheSpec.

(** *** The stages *)

Module StageSpec.

Import Runtime.

(** The reply has a content type of the allow-list. *)
Definition compressible (options : Compression.CompressionOptions) (reply : Reply)
  : bool :=
  existsb
    (fun type =>
       includes (orElse (Http.get (str "Content-Type") (replyHeaders reply)) [])
         type)
    (Compression.types options).

(** The [Access-Control-Allow-Origin] header of a response. *)
Definition allowOrigin (r : Response) : option jstring :=
  Http.get (str "Access-Control-Allow-Origin") (Http.headers r).

End StageSpec.

(** *** Calls of [next] *)

Module ChainSpec.

Import Runtime MiddlewareChain.

(** A call of [next] at the cursor [c] moves the cursor on, not past the
    end [hi] of the chain, and enters the middlewares it passes, each
    once and in their order. *)
Definition advances (hi c : nat) (run : Run) : Prop :=
  c <= cursor run /\ (c <= hi -> cursor run <= hi) /\
  entered run = seq c (cursor run - c).

(** A call of [next] at the cursor [c] gives what [onion] gives, with at
    most one call of the final handler; when a middleware at or after
    the cursor, at [limit], makes no call of [next] ([stop]), the cursor
    stays there and the final handler is not called. *)
Definition wrapped (stop : Prop) (limit c : nat) (onion : M Response)
  (s : State) (run : Run) : Prop :=
  outcome run = onion s /\ finalCalls run <= 1 /\
  (stop -> c <= limit -> cursor run <= S limit /\ finalCalls run = 0).

(** The middlewares from position [c] on, wrapped around one another and
    around the final handler. *)
Definition onionFrom (middlewares : list Stage) (req : Request)
  (finalHandler : M Response) (c : nat) : M Response :=
  Chain.execute (map asMiddleware (skipn c middlewares)) req finalHandler.

End ChainSpec.
(** * Properties *)

(** ** Facts about strings *)

Module JsStringFacts.

Lemma eqb_spec (a b : jstring) : eqb a b = true <-> a = b.
Proof.
  revert b; induction a as [|x a IH]; intros [|y b]; simpl; try easy.
  rewrite andb_true_iff, Ascii.eqb_eq, IH.
  split; [intros [-> ->]; reflexivity | intros [= -> ->]; auto].
Qed.

Lemma eqb_refl (a : jstring) : eqb a a = true.
Proof. apply eqb_spec; reflexivity. Qed.

Lemma eqb_neq (a b : jstring) : eqb a b = false <-> a <> b.
Proof.
  rewrite <- eqb_spec. destruct (eqb a b); split; congruence.
Qed.

Lemma startsWith_spec (s p : jstring) :
  startsWith s p = true <-> exists r, s = p ++ r.
Proof.
  revert s; induction p as [|y p IH]; intros s; simpl.
  - split; [intros _; now exists s | reflexivity].
  - destruct s as [|x s].
    + split; [discriminate | intros [r [=]]].
    + rewrite andb_true_iff, Ascii.eqb_eq, IH. split.
      * intros [-> [r ->]]. now exists r.
      * intros [r [= -> ->]]. eauto.
Qed.

Lemma endsWith_spec (s p : jstring) :
  endsWith s p = true <-> exists r, s = r ++ p.
Proof.
  unfold endsWith. rewrite startsWith_spec. split.
  - intros [r H]. exists (rev r).
    rewrite <- (rev_involutive s), H, rev_app_distr, rev_involutive.
    reflexivity.
  - intros [r ->]. exists (rev r). apply rev_app_distr.
Qed.

(** Two strings cut at the first occurrence of a character. *)
Lemma cut_at_first (c : ascii) (l1 l2 r1 r2 : jstring) :
  ~ In c l1 -> ~ In c l2 ->
  l1 ++ c :: r1 = l2 ++ c :: r2 -> l1 = l2 /\ r1 = r2.
Proof.
  revert l2. induction l1 as [|x l1 IH]; intros [|y l2] H1 H2; simpl.
  - now intros [= ->].
  - intros [= <- _]. exfalso. apply H2. now left.
  - intros [= -> _]. exfalso. apply H1. now left.
  - intros [= -> H]. apply IH in H as [-> ->]; auto.
    + intros Hin. apply H1. now right.
    + intros Hin. apply H2. now right.
Qed.

End JsStringFacts.

Import JsStringFacts.
(** ** URL path normalization *)

Module NormalizeFacts.

Import NodePath PathUtils UrlShape.

(** *** Shape of normalized URL paths *)

Lemma strip_noLeading s : noLeadingSlash (stripLeadingSlashes s).
Proof.
  induction s as [|c r IH]; simpl; auto.
  destruct (is_slash c) eqn:E; simpl; auto.
Qed.

Lemma strip_id s : noLeadingSlash s -> stripLeadingSlashes s = s.
Proof. destruct s as [|c r]; simpl; auto. now intros ->. Qed.

Lemma collapse_head s :
  match collapseSlashes s, s with
  | x :: _, y :: _ => is_slash x = is_slash y
  | [], [] => True
  | _, _ => False
  end.
Proof.
  induction s as [|c r IH]; simpl; auto.
  destruct r as [|c' r']; auto.
  destruct (is_slash c) eqn:Ec, (is_slash c') eqn:Ec'; simpl; auto.
Qed.

Lemma collapse_noLeading s :
  noLeadingSlash s -> noLeadingSlash (collapseSlashes s).
Proof.
  intros H. pose proof (collapse_head s) as Hh.
  destruct (collapseSlashes s), s; simpl in *; auto; try contradiction.
  congruence.
Qed.

Lemma collapse_noDouble s : noDoubleSlash (collapseSlashes s).
Proof.
  induction s as [|c r IH]; simpl; auto.
  destruct r as [|c' r']; simpl; auto.
  destruct (is_slash c && is_slash c') eqn:E; auto.
  pose proof (collapse_head (c' :: r')) as Hh.
  change (noDoubleSlash (c :: collapseSlashes (c' :: r'))).
  destruct (collapseSlashes (c' :: r')) as [|x t]; [exact I|].
  simpl in *. split; [|exact IH]. now rewrite Hh.
Qed.

Lemma collapse_id s : noDoubleSlash s -> collapseSlashes s = s.
Proof.
  induction s as [|c r IH]; simpl; auto.
  destruct r as [|c' r']; auto.
  intros [-> H]. f_equal. now apply IH.
Qed.

Lemma noDouble_app_l s t : noDoubleSlash (s ++ t) -> noDoubleSlash s.
Proof.
  induction s as [|c r IH]; simpl; auto.
  destruct r as [|c' r']; [auto|].
  intros [H1 H2]. split; auto.
Qed.

Lemma noDouble_two_slashes r : ~ noDoubleSlash (r ++ [slash; slash]).
Proof.
  induction r as [|c r IH]; simpl.
  - intros [H _]. discriminate.
  - destruct r as [|c' r']; simpl in *; intros [_ H]; auto.
Qed.

Lemma endsWith_slash_cons c s :
  s <> [] -> endsWith (c :: s) (str "/") = endsWith s (str "/").
Proof.
  intros Hs. destruct (endsWith s (str "/")) eqn:E.
  - apply endsWith_spec in E as [r ->]. apply endsWith_spec.
    now exists (c :: r).
  - destruct (endsWith (c :: s) (str "/")) eqn:E'; auto.
    apply endsWith_spec in E' as [r Hr].
    destruct r as [|x r]; simpl in Hr.
    + injection Hr as _ ->. contradiction.
    + injection Hr as _ ->. rewrite <- E. symmetry.
      apply endsWith_spec. now exists r.
Qed.

Lemma normalizeUrlPath_normalForm p : normalForm (normalizeUrlPath p).
Proof.
  unfold normalizeUrlPath, normalForm.
  destruct (eqb p [] || eqb p (str "/")).
  { exists []. repeat split. }
  set (t := collapseSlashes (stripLeadingSlashes p)).
  assert (Hl : noLeadingSlash t)
    by (apply collapse_noLeading, strip_noLeading).
  assert (Hd : noDoubleSlash t) by apply collapse_noDouble.
  destruct t as [|c t'] eqn:Et.
  { exists []. repeat split. }
  rewrite <- Et in *.
  assert (Hne : t <> []) by (rewrite Et; discriminate).
  replace (1 <? List.length (slash :: t)) with true
    by (rewrite Et; reflexivity).
  rewrite endsWith_slash_cons, andb_true_l by assumption.
  destruct (endsWith t (str "/")) eqn:E.
  - apply endsWith_spec in E as [r Hr]. change (str "/") with [slash] in Hr.
    exists r. rewrite Hr in *.
    change (slash :: r ++ [slash]) with ((slash :: r) ++ [slash]).
    rewrite removelast_last.
    split; [reflexivity|]. split; [|split].
    + destruct r as [|x r]; simpl in *; [discriminate | assumption].
    + eapply noDouble_app_l; eauto.
    + destruct (endsWith r (str "/")) eqn:E2; auto.
      apply endsWith_spec in E2 as [r2 ->]. exfalso.
      apply (@noDouble_two_slashes r2).
      rewrite <- app_assoc in Hd. exact Hd.
  - exists t. auto.
Qed.

Lemma normalizeUrlPath_fixes_normalForm s :
  normalForm s -> normalizeUrlPath s = s.
Proof.
  intros (u & -> & Hl & Hd & He). unfold normalizeUrlPath.
  destruct u as [|c u'] eqn:Eu; [reflexivity|]. rewrite <- Eu in *.
  assert (Hne : u <> []) by (rewrite Eu; discriminate).
  replace (eqb (slash :: u) [] || eqb (slash :: u) (str "/")) with false.
  2:{ rewrite Eu. reflexivity. }
  change (stripLeadingSlashes (slash :: u)) with (stripLeadingSlashes u).
  rewrite strip_id, collapse_id by assumption.
  rewrite endsWith_slash_cons, He by assumption.
  now rewrite andb_false_r.
Qed.

(** C7. [normalizeUrlPath] is idempotent: normalizing an already
    normalized URL path gives the same path, for every input string. *)
Theorem normalizeUrlPath_idempotent (p : jstring) :
  normalizeUrlPath (normalizeUrlPath p) = normalizeUrlPath p.
Proof.
  apply normalizeUrlPath_fixes_normalForm, normalizeUrlPath_normalForm.
Qed.

End NormalizeFacts.

(** ** Headers *)

Module HttpFacts.

Import Http.

Lemma sameName_iff name entry :
  sameName name entry = true <-> fst entry = toLowerCase name.
Proof. unfold sameName. apply eqb_spec. Qed.

Lemma get_delete_same name h : get name (delete name h) = None.
Proof.
  unfold get, delete. induction h as [|e r IH]; simpl; auto.
  destruct (sameName name e) eqn:E; simpl; auto.
  now rewrite E.
Qed.

Lemma get_delete_other name name' h :
  toLowerCase name <> toLowerCase name' ->
  get name (delete name' h) = get name h.
Proof.
  intros Hne. unfold get, delete.
  induction h as [|e r IH]; simpl; auto.
  destruct (sameName name' e) eqn:E'; simpl.
  - destruct (sameName name e) eqn:E; auto.
    apply sameName_iff in E, E'. congruence.
  - destruct (sameName name e); auto.
Qed.

Lemma get_set_same name value h : get name (set name value h) = Some value.
Proof.
  unfold get. induction h as [|e r IH]; simpl.
  - unfold sameName. simpl. now rewrite eqb_refl.
  - destruct (sameName name e) eqn:E; simpl.
    + unfold sameName in *. simpl. now rewrite E.
    + now rewrite E.
Qed.

Lemma get_set_other name name' value h :
  toLowerCase name <> toLowerCase name' ->
  get name (set name' value h) = get name h.
Proof.
  intros Hne. induction h as [|e r IH]; simpl.
  - unfold get. simpl. unfold sameName. simpl.
    replace (eqb (toLowerCase name') (toLowerCase name)) with false; auto.
    symmetry. apply eqb_neq. congruence.
  - destruct (sameName name' e) eqn:E'.
    + assert (E : sameName name e = false).
      { destruct (sameName name e) eqn:E; auto.
        apply sameName_iff in E, E'. congruence. }
      unfold get in *. simpl. unfold sameName at 1. simpl.
      fold (sameName name e). rewrite E.
      apply (get_delete_other name name' r Hne).
    + unfold get in *. simpl. destruct (sameName name e); auto.
Qed.

End HttpFacts.

(** ** The validator of a served file *)

Module EtagFacts.

Import JsNumber Handler.

Lemma str_inj (a b : string) : str a = str b -> a = b.
Proof.
  unfold str. intros H.
  rewrite <- (string_of_list_ascii_of_string a),
          <- (string_of_list_ascii_of_string b).
  now rewrite H.
Qed.

Lemma to_hex_int_proper (n : Z) :
  Z.to_hex_int n <> Hexadecimal.Pos Hexadecimal.Nil /\
  Z.to_hex_int n <> Hexadecimal.Neg Hexadecimal.Nil.
Proof.
  destruct n as [|p|p]; simpl; split; try discriminate;
    intros [= H]; now apply HexadecimalPos.Unsigned.to_uint_nonnil in H.
Qed.

Lemma toString16_inj (a b : Z) : toString16 a = toString16 b -> a = b.
Proof.
  unfold toString16. intros H. apply str_inj in H.
  apply HexadecimalZ.to_int_inj.
  destruct (to_hex_int_proper a) as [Ha1 Ha2].
  destruct (to_hex_int_proper b) as [Hb1 Hb2].
  pose proof (HexadecimalString.NilZero.isi _ Ha1 Ha2) as Ia.
  pose proof (HexadecimalString.NilZero.isi _ Hb1 Hb2) as Ib.
  rewrite H in Ia. congruence.
Qed.

Lemma digits_no_minus (d : Hexadecimal.uint) :
  ~ In minus (str (HexadecimalString.NilEmpty.string_of_uint d)).
Proof.
  induction d; simpl; intros H; try contradiction;
    destruct H as [H|H]; try discriminate; auto.
Qed.

Lemma toString16_nonneg_no_minus (n : N) :
  ~ In minus (toString16 (Z.of_N n)).
Proof.
  unfold toString16. destruct n as [|p]; simpl.
  - intros [H|[]]. discriminate.
  - destruct (Pos.to_hex_uint p) eqn:E; simpl;
      try (intros [H|H]; [discriminate | now apply digits_no_minus in H]).
    intros [H|[]]. discriminate.
Qed.

Lemma etagOf_inj (s1 s2 : Stats) :
  etagOf s1 = etagOf s2 -> size s1 = size s2 /\ mtime s1 = mtime s2.
Proof.
  unfold etagOf. intros H. apply app_inv_head in H.
  injection H as H.
  apply (@cut_at_first minus) in H as [Hs Hm];
    try apply toString16_nonneg_no_minus.
  apply app_inv_tail in Hm.
  apply toString16_inj in Hs, Hm. split; [lia | assumption].
Qed.

Lemma serveFile_etag (P : Platform) filePath stats method :
  Http.get (str "ETag") (Http.headers (fst (serveFile P filePath stats method)))
  = Some (etagOf stats).
Proof.
  unfold serveFile.
  destruct (eqb method (str "HEAD"));
    cbn -[Http.get Http.set etagOf JsNumber.toString10 str].
  - rewrite HttpFacts.get_set_other by (vm_compute; discriminate).
    apply HttpFacts.get_set_same.
  - apply HttpFacts.get_set_same.
Qed.

(** C8. The [ETag] of a served file is the weak validator built from the
    size and the modification time of the file: it starts with [W/], two
    files of equal size and modification time get the same string, and
    two files that get the same string have the same size and the same
    modification time. *)
Theorem etag_weak_and_injective (P : Platform)
  (path1 path2 method1 method2 : jstring) (stats1 stats2 : Stats) :
  let etag1 :=
    Http.get (str "ETag")
      (Http.headers (fst (serveFile P path1 stats1 method1))) in
  let etag2 :=
    Http.get (str "ETag")
      (Http.headers (fst (serveFile P path2 stats2 method2))) in
  (exists value, etag1 = Some value /\ startsWith value (str "W/") = true) /\
  (size stats1 = size stats2 /\ mtime stats1 = mtime stats2 ->
   etag1 = etag2) /\
  (etag1 = etag2 ->
   size stats1 = size stats2 /\ mtime stats1 = mtime stats2).
Proof.
  cbv zeta. rewrite !serveFile_etag. split; [|split].
  - exists (etagOf stats1). split; [reflexivity|].
    apply startsWith_spec. unfold etagOf. eexists. reflexivity.
  - intros [Hs Hm]. unfold etagOf. rewrite Hs, Hm. reflexivity.
  - intros H. apply etagOf_inj. congruence.
Qed.

End EtagFacts.

(** ** Paths and their segments *)

Module PathFacts.

Import NodePath PathUtils Lexical Segments.

Lemma split_not_nil s : split s <> [].
Proof.
  destruct s as [|c r]; simpl; [discriminate|].
  destruct (is_slash c); [discriminate|].
  destruct (split r); discriminate.
Qed.

Lemma split_app_slash a b : split (a ++ slash :: b) = split a ++ split b.
Proof.
  induction a as [|c a IH]; simpl; [reflexivity|].
  destruct (is_slash c); [now rewrite IH|].
  rewrite IH. pose proof (split_not_nil a) as Hn.
  destruct (split a); [contradiction | reflexivity].
Qed.

Lemma split_app_trailing a : split (a ++ [slash]) = split a ++ [[]].
Proof. apply split_app_slash. Qed.

Lemma split_slashFree s : Forall slashFree (split s).
Proof.
  induction s as [|c r IH]; simpl.
  - repeat constructor.
  - destruct (is_slash c) eqn:E.
    + constructor; [constructor | assumption].
    + destruct (split r) as [|seg segs]; [repeat constructor; assumption|].
      inversion IH; subst. constructor; [constructor|]; assumption.
Qed.

Lemma split_of_slashFree s : slashFree s -> split s = [s].
Proof.
  induction 1 as [|c r Hc Hr IH]; simpl; [reflexivity|].
  now rewrite Hc, IH.
Qed.

Lemma split_joinSlash segs :
  segs <> [] -> Forall slashFree segs -> split (joinSlash segs) = segs.
Proof.
  induction segs as [|x r IH]; [contradiction|]. intros _ H.
  inversion H as [|? ? Hx Hr]; subst.
  destruct r as [|y r'].
  - simpl. now apply split_of_slashFree.
  - change (joinSlash (x :: y :: r')) with (x ++ slash :: joinSlash (y :: r')).
    rewrite split_app_slash, split_of_slashFree, IH by (assumption || discriminate).
    reflexivity.
Qed.

Lemma joinSlash_app a c :
  a <> [] -> c <> [] -> joinSlash (a ++ c) = joinSlash a ++ slash :: joinSlash c.
Proof.
  induction a as [|x a IH]; [contradiction|]. intros _ Hc.
  destruct a as [|y a'].
  - destruct c; [contradiction | reflexivity].
  - specialize (IH ltac:(discriminate) Hc).
    change (joinSlash ((x :: y :: a') ++ c))
      with (x ++ slash :: joinSlash ((y :: a') ++ c)).
    rewrite IH.
    change (joinSlash (x :: y :: a')) with (x ++ slash :: joinSlash (y :: a')).
    now rewrite <- app_assoc.
Qed.

Lemma joinSlash_nil segs :
  Forall (fun seg => seg <> []) segs -> joinSlash segs = [] -> segs = [].
Proof.
  destruct segs as [|x r]; [reflexivity|].
  intros H. inversion H as [|? ? Hx _]; subst.
  destruct r; simpl; intros E; [contradiction|].
  destruct x; [contradiction | discriminate].
Qed.

(** *** One step of the scan *)

Lemma walk_app b s t1 t2 : walk b s (t1 ++ t2) = walk b (walk b s t1) t2.
Proof. apply fold_left_app. Qed.

Lemma step_push b s seg :
  kept seg -> isDotDot seg = false -> step b s seg = seg :: s.
Proof. unfold step, kept. now intros -> ->. Qed.

Lemma step_kept b s seg : Forall kept s -> Forall kept (step b s seg).
Proof.
  intros Hs. unfold step.
  destruct (eqb seg [] || isDot seg) eqn:E; [assumption|].
  destruct (isDotDot seg) eqn:D.
  - destruct s as [|top below].
    + destruct b; repeat constructor. exact E.
    + inversion Hs; subst.
      destruct (isDotDot top); [destruct b|]; auto.
  - constructor; assumption.
Qed.

Lemma walk_kept b s segs : Forall kept s -> Forall kept (walk b s segs).
Proof.
  revert s. induction segs as [|x r IH]; intros s Hs; simpl; auto.
  apply IH. now apply step_kept.
Qed.

Lemma step_slashFree b s seg :
  slashFree seg -> Forall slashFree s -> Forall slashFree (step b s seg).
Proof.
  intros Hx Hs. unfold step.
  destruct (eqb seg [] || isDot seg); [assumption|].
  destruct (isDotDot seg).
  - destruct s as [|top below].
    + destruct b; repeat constructor; assumption.
    + inversion Hs; subst.
      destruct (isDotDot top); [destruct b|]; auto.
  - constructor; assumption.
Qed.

Lemma walk_slashFree b s segs :
  Forall slashFree segs -> Forall slashFree s ->
  Forall slashFree (walk b s segs).
Proof.
  revert s. induction segs as [|x r IH]; intros s Hx Hs; simpl; auto.
  inversion Hx; subst. apply IH; auto. now apply step_slashFree.
Qed.

Lemma step_plain s seg : Forall plain s -> Forall plain (step false s seg).
Proof.
  intros Hs. unfold step.
  destruct (eqb seg [] || isDot seg); [assumption|].
  destruct (isDotDot seg) eqn:D.
  - destruct s as [|top below]; [constructor|].
    inversion Hs; subst. destruct (isDotDot top); auto.
  - constructor; assumption.
Qed.

Lemma walk_plain s segs : Forall plain s -> Forall plain (walk false s segs).
Proof.
  revert s. induction segs as [|x r IH]; intros s Hs; simpl; auto.
  apply IH. now apply step_plain.
Qed.

(** The scan without [allowAboveRoot] follows the path. *)
Lemma step_follow s x :
  Forall plain s ->
  step false s x =
  if eqb x [] || eqb x (str ".") then s
  else if eqb x (str "..") then tl s else x :: s.
Proof.
  intros Hs. unfold step, isDot, isDotDot.
  destruct (eqb x [] || eqb x (str ".")); [reflexivity|].
  destruct (eqb x (str "..")); [|reflexivity].
  destruct s as [|top below]; [reflexivity|].
  inversion Hs as [|? ? Ht _]; subst. unfold plain, isDotDot in Ht.
  now rewrite Ht.
Qed.

Lemma walk_follow s segs : Forall plain s -> walk false s segs = follow s segs.
Proof.
  revert s. induction segs as [|x r IH]; intros s Hs; [reflexivity|].
  change (walk false s (x :: r)) with (walk false (step false s x) r).
  rewrite IH by now apply step_plain.
  rewrite step_follow by assumption. reflexivity.
Qed.

(** Segments that are all kept and plain are pushed one by one. *)
Lemma walk_push_all b s t :
  Forall kept t -> Forall plain t -> walk b s t = rev t ++ s.
Proof.
  revert s. induction t as [|x r IH]; intros s Hk Hp; simpl; auto.
  inversion Hk; inversion Hp; subst.
  rewrite step_push, IH by assumption. now rewrite <- app_assoc.
Qed.

(** Scanning what a scan with [allowAboveRoot] kept is scanning the
    segments themselves. *)
Lemma step_rel_abs r x s :
  Forall kept r ->
  walk false s (rev (step true r x)) = step false (walk false s (rev r)) x.
Proof.
  intros Hr. unfold step at 1.
  destruct (eqb x [] || isDot x) eqn:E.
  { unfold step. now rewrite E. }
  destruct (isDotDot x) eqn:D.
  - destruct r as [|top below].
    + reflexivity.
    + destruct (isDotDot top) eqn:T.
      * simpl rev. now rewrite walk_app.
      * simpl rev. rewrite walk_app. simpl.
        inversion Hr as [|? ? Ht _]; subst.
        rewrite (step_push false _ Ht T).
        unfold step. now rewrite E, D, T.
  - simpl rev. now rewrite walk_app.
Qed.

Lemma walk_rel_abs segs r s :
  Forall kept r ->
  walk false s (rev (walk true r segs)) =
  walk false (walk false s (rev r)) segs.
Proof.
  revert r. induction segs as [|x t IH]; intros r Hr; simpl; auto.
  rewrite IH by now apply step_kept.
  now rewrite step_rel_abs.
Qed.

(** *** Resolved paths *)

Lemma kept_nonEmpty seg : kept seg -> nonEmpty seg.
Proof. unfold kept, nonEmpty. intros H ->. discriminate. Qed.

Lemma follow_from_root_plain segs : Forall plain (walk false [] segs).
Proof. apply walk_plain. constructor. Qed.

Lemma place_walk cwd p :
  place cwd p =
  walk false (if isAbsolute p then [] else walk false [] (split cwd)) (split p).
Proof.
  unfold place. rewrite <- (walk_follow (s:=[])) by constructor.
  symmetry. apply walk_follow.
  destruct (isAbsolute p); [constructor | apply follow_from_root_plain].
Qed.

Lemma place_kept cwd p : Forall kept (place cwd p).
Proof.
  rewrite place_walk. apply walk_kept.
  destruct (isAbsolute p); [constructor | apply walk_kept; constructor].
Qed.

Lemma place_slashFree cwd p : Forall slashFree (place cwd p).
Proof.
  rewrite place_walk. apply walk_slashFree; [apply split_slashFree|].
  destruct (isAbsolute p); [constructor|].
  apply walk_slashFree; [apply split_slashFree | constructor].
Qed.

Lemma isAbsolute_not_nil p : isAbsolute p = true -> eqb p [] = false.
Proof. destruct p; [discriminate | reflexivity]. Qed.

(** [resolve] writes out the directory its argument stands for. *)
Lemma resolve_place cwd p :
  isAbsolute cwd = true ->
  resolve cwd p = slash :: joinSlash (rev (place cwd p)).
Proof.
  intros Hcwd. unfold resolve, normalizeString.
  rewrite Hcwd, (isAbsolute_not_nil _ Hcwd), !orb_true_r, orb_false_r.
  cbn [negb]. f_equal. f_equal. f_equal. rewrite place_walk.
  destruct p as [|c p'].
  - cbn [eqb isAbsolute]. rewrite split_app_slash, walk_app. reflexivity.
  - set (p := c :: p').
    replace (eqb p []) with false by reflexivity.
    change (str "/") with [slash].
    destruct (isAbsolute p).
    + now rewrite split_app_trailing, walk_app.
    + now rewrite split_app_slash, split_app_trailing, !walk_app.
Qed.

(** *** The prefix test of [isPathUnderRoot] *)

Lemma charAtIs_app (a rest : jstring) c :
  charAtIs (a ++ rest) (List.length a) c =
  match rest with
  | x :: _ => Ascii.eqb x c
  | [] => false
  end.
Proof.
  unfold charAtIs. rewrite nth_error_app2, Nat.sub_diag by lia.
  now destruct rest.
Qed.

Lemma joinSlash_inj a b :
  Forall slashFree a -> Forall nonEmpty a ->
  Forall slashFree b -> Forall nonEmpty b ->
  joinSlash a = joinSlash b -> a = b.
Proof.
  intros Sa Na Sb Nb H.
  destruct a as [|x a'].
  - symmetry. apply joinSlash_nil; [exact Nb | now rewrite <- H].
  - destruct b as [|y b'].
    + apply joinSlash_nil; [exact Na | exact H].
    + rewrite <- (split_joinSlash (segs:=x :: a')) by (assumption || discriminate).
      rewrite H. apply split_joinSlash; [discriminate | assumption].
Qed.

Lemma ends_with_separator b :
  Forall slashFree b -> Forall nonEmpty b ->
  endsWith (slash :: joinSlash b) [sep] = true -> b = [].
Proof.
  intros Sb Nb H. destruct b as [|x r]; [reflexivity|]. exfalso.
  assert (Hj : joinSlash (x :: r) <> []).
  { intros E. now apply joinSlash_nil in E. }
  change [sep] with (str "/") in H.
  rewrite NormalizeFacts.endsWith_slash_cons in H by assumption.
  apply endsWith_spec in H as [r0 Hr0]. change (str "/") with [slash] in Hr0.
  assert (Hs : split (joinSlash (x :: r)) = x :: r)
    by (apply split_joinSlash; [discriminate | assumption]).
  rewrite Hr0, split_app_trailing in Hs.
  assert (Hin : In [] (x :: r)).
  { rewrite <- Hs. apply in_or_app. right. now left. }
  rewrite Forall_forall in Nb. now apply (Nb [] Hin).
Qed.

Lemma under_check (a b : list jstring) :
  Forall slashFree a -> Forall nonEmpty a ->
  Forall slashFree b -> Forall nonEmpty b ->
  let sa := slash :: joinSlash a in
  let sb := slash :: joinSlash b in
  eqb sa sb ||
  (startsWith sa sb &&
   (endsWith sb [sep] || charAtIs sa (List.length sb) sep)) = true
  <-> exists c, a = b ++ c.
Proof.
  intros Sa Na Sb Nb. cbv zeta. split.
  - rewrite orb_true_iff, andb_true_iff, orb_true_iff.
    intros [E | [S [T | C]]].
    + apply eqb_spec in E. injection E as E.
      exists []. rewrite app_nil_r. now apply joinSlash_inj.
    + apply ends_with_separator in T; auto. subst b. now exists a.
    + destruct b as [|y b'] eqn:Eb; [now exists a|].
      assert (Hb : b <> []) by (rewrite Eb; discriminate).
      rewrite <- Eb in *. clear Eb y b'.
      apply startsWith_spec in S as [rest Hrest].
      rewrite Hrest, charAtIs_app in C.
      destruct rest as [|x rest']; [discriminate|].
      apply Ascii.eqb_eq in C. subst x.
      injection Hrest as Hrest.
      assert (Ha : a <> []).
      { intros ->. simpl in Hrest. symmetry in Hrest.
        now apply app_eq_nil in Hrest as [_ ?]. }
      exists (split rest').
      rewrite <- (split_joinSlash Ha Sa), Hrest.
      change sep with slash.
      rewrite split_app_slash, split_joinSlash by assumption.
      reflexivity.
  - intros [c ->]. destruct c as [|z c'] eqn:Ec.
    + now rewrite app_nil_r, eqb_refl.
    + assert (Hc : c <> []) by (rewrite Ec; discriminate).
      rewrite <- Ec in *. clear Ec z c'.
      apply orb_true_iff. right. apply andb_true_iff.
      destruct b as [|y b'] eqn:Eb.
      * split; [reflexivity|]. reflexivity.
      * assert (Hb : b <> []) by (rewrite Eb; discriminate).
        rewrite <- Eb in *. clear Eb y b'.
        rewrite joinSlash_app by assumption.
        split.
        -- apply startsWith_spec.
           exists (slash :: joinSlash c). reflexivity.
        -- apply orb_true_iff. right.
           change (slash :: joinSlash b ++ slash :: joinSlash c)
             with ((slash :: joinSlash b) ++ slash :: joinSlash c).
           rewrite charAtIs_app. apply Ascii.eqb_refl.
Qed.

(** The string test of [isPathUnderRoot] decides containment. *)
Lemma isPathUnderRoot_contained cwd filePath rootDir :
  isAbsolute cwd = true ->
  isPathUnderRoot cwd filePath rootDir = true <->
  contained cwd rootDir filePath.
Proof.
  intros Hcwd. unfold isPathUnderRoot, contained, within.
  rewrite !resolve_place by assumption.
  apply under_check.
  - apply Forall_rev, place_slashFree.
  - apply Forall_rev. eapply Forall_impl; [|apply place_kept].
    apply kept_nonEmpty.
  - apply Forall_rev, place_slashFree.
  - apply Forall_rev. eapply Forall_impl; [|apply place_kept].
    apply kept_nonEmpty.
Qed.

(** *** Normalizing and joining keep the place *)

Lemma follow_app d t1 t2 : follow d (t1 ++ t2) = follow (follow d t1) t2.
Proof. revert d. induction t1 as [|x r IH]; intros d; simpl; auto. Qed.

Lemma walk_trailing b s segs : walk b s (segs ++ [[]]) = walk b s segs.
Proof. now rewrite walk_app. Qed.

Lemma isAbsolute_joinSlash segs suffix :
  segs <> [] -> Forall slashFree segs -> Forall nonEmpty segs ->
  isAbsolute (joinSlash segs ++ suffix) = false.
Proof.
  destruct segs as [|x r]; [contradiction|]. intros _ Hs Hn.
  inversion Hs as [|? ? Hx _]; inversion Hn as [|? ? Nx _]; subst.
  destruct x as [|c x']; [contradiction|].
  inversion Hx; subst. destruct r; simpl; assumption.
Qed.

Lemma walk_kept_nonEmpty b segs : Forall nonEmpty (rev (walk b [] segs)).
Proof.
  apply Forall_rev. eapply Forall_impl; [apply kept_nonEmpty|].
  apply walk_kept. constructor.
Qed.

Lemma walk_split_slashFree b p : Forall slashFree (rev (walk b [] (split p))).
Proof.
  apply Forall_rev, walk_slashFree; [apply split_slashFree | constructor].
Qed.

Lemma place_normalize cwd x : place cwd (normalize x) = place cwd x.
Proof.
  unfold normalize. destruct x as [|c x'] eqn:Ex; [reflexivity|].
  rewrite <- Ex. replace (eqb x []) with false by (now rewrite Ex).
  clear Ex c x'. unfold normalizeString.
  set (r := walk (negb (isAbsolute x)) [] (split x)).
  set (C := walk false [] (split cwd)).
  assert (Hk : Forall nonEmpty (rev r)) by apply walk_kept_nonEmpty.
  assert (Hs : Forall slashFree (rev r)) by apply walk_split_slashFree.
  assert (Hp : place cwd x = walk false (if isAbsolute x then [] else C) (split x))
    by apply place_walk.
  destruct (eqb (joinSlash (rev r)) []) eqn:E.
  - apply eqb_spec in E. apply joinSlash_nil in E; [|assumption].
    assert (Hr : r = []).
    { rewrite <- (rev_involutive r), E. reflexivity. }
    rewrite Hp. unfold r in Hr. destruct (isAbsolute x); simpl negb in Hr.
    + now rewrite Hr.
    + transitivity C.
      { rewrite place_walk. fold C.
        now destruct (endsWith x (str "/")). }
      pose proof (@walk_rel_abs (split x) [] C (Forall_nil _)) as H.
      rewrite Hr in H. simpl in H. exact H.
  - assert (Hne : rev r <> []).
    { intros Hr. rewrite Hr in E. discriminate. }
    set (t := if endsWith x (str "/") then joinSlash (rev r) ++ str "/"
              else joinSlash (rev r)).
    assert (Ht : forall b s, walk b s (split t) = walk b s (rev r)).
    { intros b s. unfold t. destruct (endsWith x (str "/")).
      - change (str "/") with [slash].
        now rewrite split_app_trailing, walk_trailing, split_joinSlash.
      - now rewrite split_joinSlash. }
    rewrite Hp, place_walk. fold C. unfold r in *.
    destruct (isAbsolute x); simpl negb in *.
    + change (isAbsolute (slash :: t)) with true. cbn iota.
      change (split (slash :: t)) with ([] :: split t).
      change (walk false [] ([] :: split t)) with (walk false [] (split t)).
      rewrite Ht, walk_push_all, rev_involutive, app_nil_r; auto.
      * apply Forall_rev, walk_kept. constructor.
      * apply Forall_rev, follow_from_root_plain.
    + replace (isAbsolute t) with false.
      2:{ symmetry. unfold t. destruct (endsWith x (str "/")).
          - now apply isAbsolute_joinSlash.
          - rewrite <- (app_nil_r (joinSlash _)).
            now apply isAbsolute_joinSlash. }
      rewrite Ht. now rewrite walk_rel_abs by constructor.
Qed.

Lemma isAbsolute_app a b : a <> [] -> isAbsolute (a ++ b) = isAbsolute a.
Proof. destruct a; [contradiction | reflexivity]. Qed.

Lemma place_join cwd a b :
  a <> [] \/ isAbsolute b = false ->
  place cwd (join [a; b]) = follow (place cwd a) (split b).
Proof.
  intros H. unfold join, glue.
  destruct (eqb a []) eqn:Ea, (eqb b []) eqn:Eb.
  - apply eqb_spec in Ea, Eb. subst. reflexivity.
  - apply eqb_spec in Ea. subst a. rewrite place_normalize.
    destruct H as [H|H]; [contradiction|]. unfold place. now rewrite H.
  - apply eqb_spec in Eb. subst b. now rewrite place_normalize.
  - apply eqb_neq in Ea. rewrite place_normalize. unfold place.
    now rewrite isAbsolute_app, split_app_slash, follow_app.
Qed.

Lemma follow_strip d u :
  follow d (split (stripLeadingSlashes u)) = follow d (split u).
Proof.
  induction u as [|c r IH]; [reflexivity|]. simpl stripLeadingSlashes.
  destruct (is_slash c) eqn:E; [|reflexivity].
  rewrite IH. simpl. now rewrite E.
Qed.

Lemma strip_relative u : isAbsolute (stripLeadingSlashes u) = false.
Proof.
  pose proof (NormalizeFacts.strip_noLeading u) as H.
  destruct (stripLeadingSlashes u); [reflexivity | exact H].
Qed.

(** The candidate of [resolveStaticPath] is where the URL path leads
    from the root directory. *)
Lemma place_resolveStaticPath cwd rootDir urlPath :
  place cwd (resolveStaticPath rootDir urlPath) =
  follow (place cwd rootDir) (split urlPath).
Proof.
  unfold resolveStaticPath.
  rewrite place_normalize, place_join by (right; apply strip_relative).
  apply follow_strip.
Qed.

(** *** URL normalization keeps the names of a path *)

Lemma follow_named d segs : follow d (filter named segs) = follow d segs.
Proof.
  revert d. induction segs as [|x r IH]; intros d; [reflexivity|].
  simpl. unfold named at 1. destruct x as [|c x']; simpl; apply IH.
Qed.

Lemma follow_names d s : follow d (split s) = follow d (names s).
Proof. symmetry. apply follow_named. Qed.

Lemma split_cons s : split s = hd [] (split s) :: tl (split s).
Proof.
  pose proof (split_not_nil s). destruct (split s); [contradiction|reflexivity].
Qed.

Lemma split_cons_slash c r : is_slash c = true -> split (c :: r) = [] :: split r.
Proof. intros H. simpl. now rewrite H. Qed.

Lemma split_cons_other c r :
  is_slash c = false ->
  split (c :: r) = (c :: hd [] (split r)) :: tl (split r).
Proof.
  intros H. simpl. rewrite H. rewrite (split_cons r) at 1. reflexivity.
Qed.

Lemma collapse_two c c' r :
  collapseSlashes (c :: c' :: r) =
  if is_slash c && is_slash c' then collapseSlashes (c' :: r)
  else c :: collapseSlashes (c' :: r).
Proof. reflexivity. Qed.

Lemma split_collapse y :
  hd [] (split (collapseSlashes y)) = hd [] (split y) /\
  filter named (tl (split (collapseSlashes y))) = filter named (tl (split y)).
Proof.
  induction y as [|c r IH]; [split; reflexivity|].
  destruct r as [|c' r']; [split; reflexivity|].
  destruct IH as [IHh IHt]. rewrite collapse_two.
  destruct (is_slash c) eqn:Ec.
  - destruct (is_slash c') eqn:Ec'; simpl andb; cbv iota.
    + rewrite (@split_cons_slash c _ Ec).
      rewrite (@split_cons_slash c' _ Ec') in IHh, IHt.
      rewrite (@split_cons_slash c' _ Ec'). cbn [hd tl] in *.
      split; [exact IHh|]. cbn [filter named eqb negb]. exact IHt.
    + rewrite !(@split_cons_slash c _ Ec). cbn [hd tl].
      split; [reflexivity|].
      rewrite (split_cons (collapseSlashes (c' :: r'))),
              (split_cons (c' :: r')).
      cbn [filter]. now rewrite IHh, IHt.
  - simpl andb. cbv iota. rewrite !(@split_cons_other c _ Ec).
    cbn [hd tl]. now rewrite IHh.
Qed.

Lemma names_collapse y : names (collapseSlashes y) = names y.
Proof.
  unfold names. destruct (split_collapse y) as [Hh Ht].
  rewrite (split_cons (collapseSlashes y)), (split_cons y).
  simpl. now rewrite Hh, Ht.
Qed.

Lemma names_strip u : names (stripLeadingSlashes u) = names u.
Proof.
  induction u as [|c r IH]; [reflexivity|]. simpl stripLeadingSlashes.
  destruct (is_slash c) eqn:E; [|reflexivity].
  rewrite IH. unfold names. now rewrite (@split_cons_slash c _ E).
Qed.

Lemma names_trailing r : names (r ++ [slash]) = names r.
Proof.
  unfold names. rewrite split_app_trailing, filter_app. simpl.
  apply app_nil_r.
Qed.

Lemma names_normalizeUrlPath p : names (normalizeUrlPath p) = names p.
Proof.
  unfold normalizeUrlPath.
  destruct (eqb p [] || eqb p (str "/")) eqn:E.
  - apply orb_true_iff in E as [E|E]; apply eqb_spec in E; now subst.
  - set (t := collapseSlashes (stripLeadingSlashes p)).
    assert (Ht : names (slash :: t) = names p).
    { unfold names. rewrite split_cons_slash by reflexivity. simpl.
      fold (names t). unfold t. now rewrite names_collapse, names_strip. }
    destruct ((1 <? List.length (slash :: t)) &&
              endsWith (slash :: t) (str "/")) eqn:C; [|exact Ht].
    apply andb_true_iff in C as [_ C].
    apply endsWith_spec in C as [r Hr]. change (str "/") with [slash] in Hr.
    rewrite Hr in *. now rewrite removelast_last, <- names_trailing.
Qed.

Lemma follow_normalizeUrlPath d p :
  follow d (split (normalizeUrlPath p)) = follow d (split p).
Proof. now rewrite !follow_names, names_normalizeUrlPath. Qed.

(** An escaping URL path fails the check, raw or normalized. *)
Lemma escapes_check cwd rootDir urlPath :
  isAbsolute cwd = true ->
  escapes cwd rootDir urlPath ->
  isPathUnderRoot cwd (resolveStaticPath rootDir urlPath) rootDir = false /\
  isPathUnderRoot cwd
    (resolveStaticPath rootDir (normalizeUrlPath urlPath)) rootDir = false.
Proof.
  intros Hcwd Hesc. unfold escapes in Hesc.
  split.
  - destruct (isPathUnderRoot cwd _ rootDir) eqn:E; [|reflexivity].
    apply isPathUnderRoot_contained in E; [|assumption].
    unfold contained in E. rewrite place_resolveStaticPath in E.
    contradiction.
  - destruct (isPathUnderRoot cwd _ rootDir) eqn:E; [|reflexivity].
    apply isPathUnderRoot_contained in E; [|assumption].
    unfold contained in E.
    rewrite place_resolveStaticPath, follow_normalizeUrlPath in E.
    contradiction.
Qed.

Lemma within_push root dir seg : within root dir -> within root (seg :: dir).
Proof.
  intros [rest H]. exists (rest ++ [seg]). simpl. rewrite H.
  now rewrite app_assoc.
Qed.

Lemma follow_name d seg : isName seg -> follow d (split seg) = seg :: d.
Proof.
  intros (Hn & Hd & Hdd & Hs). rewrite split_of_slashFree by exact Hs.
  cbn [follow]. apply eqb_neq in Hn, Hd, Hdd. now rewrite Hn, Hd, Hdd.
Qed.

(** A name joined to a contained path gives a contained path. *)
Lemma contained_join cwd rootDir dirPath entry :
  isName entry ->
  contained cwd rootDir dirPath ->
  contained cwd rootDir (join [dirPath; entry]).
Proof.
  intros Hname H. unfold contained in *.
  assert (Hrel : isAbsolute entry = false).
  { destruct Hname as (Hn & _ & _ & Hs).
    destruct entry; [contradiction | now inversion Hs]. }
  rewrite place_join by now right.
  rewrite follow_name by assumption.
  now apply within_push.
Qed.

Lemma within_refl root : within root root.
Proof. exists []. now rewrite app_nil_r. Qed.

Lemma contained_root cwd rootDir : contained cwd rootDir rootDir.
Proof. apply within_refl. Qed.

Lemma indexHtml_isName : isName (str "index.html").
Proof.
  repeat split; try discriminate. repeat constructor.
Qed.

End PathFacts.

(** ** The static resource handler *)

Module HandlerFacts.

Import NodePath PathUtils Lexical Handler HandlerSpec PathFacts.

Lemma bind_fst_eq {A B} (m : Fs A) (k : A -> Fs B) :
  fst (bind m k) = fst (k (fst m)).
Proof. unfold bind. now destruct (k (fst m)). Qed.

Lemma bind_snd {A B} (m : Fs A) (k : A -> Fs B) :
  snd (bind m k) = snd m ++ snd (k (fst m)).
Proof. unfold bind. now destruct (k (fst m)). Qed.

Section Calls.

Variable P : Platform.
Variable fs : FileSystem.

(** A property of the paths given to the file system. *)
Variable allowed : jstring -> Prop.

Lemma serveFile_calls filePath stats method :
  allowed filePath -> allAllowed allowed (snd (serveFile P filePath stats method)).
Proof.
  intros H. unfold serveFile.
  destruct (eqb method (str "HEAD")); [constructor|].
  rewrite bind_snd. repeat constructor. exact H.
Qed.

Lemma tryIndex_calls indexPath method :
  allowed indexPath -> allAllowed allowed (snd (tryIndex P fs indexPath method)).
Proof.
  intros H. unfold tryIndex. rewrite bind_snd.
  apply Forall_app. split; [repeat constructor; exact H|].
  cbn [fst existsSync]. destruct (fs_existsSync fs indexPath); [|constructor].
  rewrite bind_snd. apply Forall_app. split; [repeat constructor; exact H|].
  cbn [fst stat]. destruct (fs_stat fs indexPath); [|constructor].
  rewrite bind_snd. apply Forall_app. split; [|constructor].
  now apply serveFile_calls.
Qed.

Lemma entryRow_calls dirPath urlPath entry :
  allowed (join [dirPath; entry]) ->
  allAllowed allowed (snd (entryRow P fs dirPath urlPath entry)).
Proof.
  intros H. unfold entryRow. rewrite bind_snd.
  apply Forall_app. split; [repeat constructor; exact H|].
  cbn [fst stat]. destruct (fs_stat fs _); constructor.
Qed.

Lemma entryRows_calls dirPath urlPath entries :
  Forall (fun entry => allowed (join [dirPath; entry])) entries ->
  allAllowed allowed (snd (entryRows P fs dirPath urlPath entries)).
Proof.
  induction 1 as [|entry rest H _ IH]; [constructor|].
  cbn [entryRows]. rewrite bind_snd. apply Forall_app. split.
  - now apply entryRow_calls.
  - rewrite bind_snd. apply Forall_app. split; [exact IH | constructor].
Qed.

Lemma serveDirectory_calls dirPath urlPath :
  allowed dirPath ->
  (forall entries, fs_readdir fs dirPath = Some entries ->
     Forall (fun entry => allowed (join [dirPath; entry])) entries) ->
  allAllowed allowed (snd (serveDirectory P fs dirPath urlPath)).
Proof.
  intros H Hentries. unfold serveDirectory. rewrite bind_snd.
  apply Forall_app. split; [repeat constructor; exact H|].
  cbn [fst readdir].
  destruct (fs_readdir fs dirPath) as [entries|] eqn:E; [|constructor].
  rewrite bind_snd. apply Forall_app. split; [|constructor].
  apply entryRows_calls. now apply Hentries.
Qed.

End Calls.

(** The handler gives the file system only paths inside the root. *)
Lemma handler_calls_contained P fs rootDir urlPath method options :
  isAbsolute (cwd P) = true ->
  entriesAreNames fs ->
  allAllowed (contained (cwd P) rootDir)
    (snd (handler P fs rootDir urlPath method options)).
Proof.
  intros Hcwd Hfs. unfold handler.
  destruct (negb (eqb method (str "GET")) && negb (eqb method (str "HEAD")));
    [constructor|].
  set (filePath := resolveStaticPath rootDir (normalizeUrlPath urlPath)).
  destruct (isPathUnderRoot (cwd P) filePath rootDir) eqn:Hin;
    [|constructor].
  apply isPathUnderRoot_contained in Hin; [|assumption].
  cbn [negb]. rewrite bind_snd. apply Forall_app.
  split; [repeat constructor; exact Hin|].
  cbn [fst stat]. destruct (fs_stat fs filePath) as [stats|code].
  - destruct (isFile stats); [now apply serveFile_calls|].
    destruct (isDirectory stats); [|constructor].
    destruct (negb (endsWith (normalizeUrlPath urlPath) (str "/")));
      [constructor|].
    rewrite bind_snd. apply Forall_app. split.
    + apply tryIndex_calls.
      apply contained_join; [apply indexHtml_isName | exact Hin].
    + destruct (fst (tryIndex P fs _ method)); [constructor|].
      destruct (enableDirectoryListing options); [|constructor].
      apply serveDirectory_calls; [exact Hin|].
      intros entries He. apply Hfs in He.
      eapply Forall_impl; [|exact He].
      intros entry Hname. now apply contained_join.
  - destruct (enableSPA options && eqb code (str "ENOENT")); [|constructor].
    rewrite bind_snd. apply Forall_app. split.
    + apply tryIndex_calls.
      apply contained_join; [apply indexHtml_isName | apply contained_root].
    + destruct (fst (tryIndex P fs _ method)); constructor.
Qed.

(** C1. A URL path that leads out of the root directory fails
    [isPathUnderRoot], raw and as the handler normalizes it; the handler
    then makes no call on the file system and answers 403 to a GET or
    HEAD request (any other method is refused with 405 before the path is
    looked at).  For every request, each path the handler gives to the
    file system ([stat], [existsSync], [readdir], [Bun.file]) is
    contained in the root directory and passes [isPathUnderRoot]. *)
Theorem traversal_is_forbidden (P : Platform) (fs : FileSystem)
  (rootDir urlPath method : jstring) (options : HandlerOptions) :
  isAbsolute (cwd P) = true ->
  entriesAreNames fs ->
  let result := handler P fs rootDir urlPath method options in
  (escapes (cwd P) rootDir urlPath ->
     isPathUnderRoot (cwd P) (resolveStaticPath rootDir urlPath) rootDir
       = false /\
     snd result = [] /\
     (method = str "GET" \/ method = str "HEAD" ->
        Http.status (fst result) = 403%Z) /\
     (method <> str "GET" -> method <> str "HEAD" ->
        Http.status (fst result) = 405%Z)) /\
  Forall (fun op =>
            contained (cwd P) rootDir (opPath op) /\
            isPathUnderRoot (cwd P) (opPath op) rootDir = true)
         (snd result).
Proof.
  intros Hcwd Hfs result. split.
  - intros Hesc. destruct (escapes_check Hcwd Hesc) as [Hraw Hnorm].
    split; [exact Hraw|]. unfold result, handler.
    destruct (eqb method (str "GET")) eqn:Eg.
    + rewrite Hnorm. cbn. apply eqb_spec in Eg.
      repeat split; auto. intros H. contradiction.
    + destruct (eqb method (str "HEAD")) eqn:Eh.
      * rewrite Hnorm. cbn. apply eqb_spec in Eh.
        repeat split; auto. intros _ H. contradiction.
      * cbn. apply eqb_neq in Eg, Eh.
        repeat split; auto. intros [H|H]; contradiction.
  - pose proof (@handler_calls_contained P fs rootDir urlPath method options
                  Hcwd Hfs) as H.
    eapply Forall_impl; [|exact H]. cbn beta. intros op Hop.
    split; [exact Hop|]. now apply isPathUnderRoot_contained.
Qed.

Lemma normalForm_no_trailing s :
  UrlShape.normalForm s -> s <> str "/" ->
  endsWith s (str "/") = false.
Proof.
  intros (u & -> & _ & _ & He) Hne.
  destruct u as [|c u'] eqn:Eu; [contradiction|]. rewrite <- Eu in *.
  rewrite NormalizeFacts.endsWith_slash_cons; [exact He|].
  rewrite Eu. discriminate.
Qed.

(** C2. What the handler does for a directory below the root: the URL
    path has lost its trailing separator when the redirect test looks at
    it, so a GET or HEAD request for a directory other than the root is
    answered with 301 and [Location] the normalized path plus a
    separator, after one [stat]; the index file and the listing are not
    reached. *)
Theorem directory_request_redirects (P : Platform) (fs : FileSystem)
  (rootDir urlPath method : jstring) (options : HandlerOptions)
  (stats : Stats) :
  method = str "GET" \/ method = str "HEAD" ->
  normalizeUrlPath urlPath <> str "/" ->
  let filePath := resolveStaticPath rootDir (normalizeUrlPath urlPath) in
  isPathUnderRoot (cwd P) filePath rootDir = true ->
  fs_stat fs filePath = StatOk stats ->
  isDirectory stats = true ->
  let result := handler P fs rootDir urlPath method options in
  Http.status (fst result) = 301%Z /\
  Http.get (str "Location") (Http.headers (fst result)) =
    Some (normalizeUrlPath urlPath ++ str "/") /\
  Http.body (fst result) = NoBody /\
  snd result = [OpStat filePath].
Proof.
  intros Hm Hne filePath Hin Hstat Hdir result.
  assert (Hmethod :
    negb (eqb method (str "GET")) && negb (eqb method (str "HEAD")) = false).
  { destruct Hm as [-> | ->]; reflexivity. }
  assert (Hfile : isFile stats = false).
  { unfold isFile, isDirectory in *. now destruct (kind stats). }
  assert (Hend : endsWith (normalizeUrlPath urlPath) (str "/") = false).
  { apply normalForm_no_trailing; [|assumption].
    apply NormalizeFacts.normalizeUrlPath_normalForm. }
  unfold result, handler. rewrite Hmethod. fold filePath. rewrite Hin.
  cbn [negb]. unfold bind, stat. cbn [fst snd]. rewrite Hstat, Hfile, Hdir, Hend.
  cbn [negb]. unfold ret, newResponse. cbn [fst snd Http.status Http.headers Http.body app].
  repeat split.
Qed.

End HandlerFacts.

(** ** Response objects and their bodies *)

Module RuntimeFacts.

Import Runtime Bodies.

Lemma extends_refl s : extends s s.
Proof. exists []. now rewrite app_nil_r. Qed.

Lemma holds_extends s s' r b : extends s s' -> holds s r b -> holds s' r b.
Proof.
  intros [more H]. unfold holds. destruct (Http.body r) as [i|]; auto.
  intros Hi. rewrite H. rewrite nth_error_app1; auto.
  apply nth_error_Some. congruence.
Qed.

Lemma holds_bodyUsed s r b : holds s r b -> bodyUsed r s = false.
Proof.
  unfold holds, bodyUsed. destruct (Http.body r); auto. now intros ->.
Qed.

Lemma newResponse_spec bytes status text h s :
  exists r s',
    newResponse bytes status text h s = Ok r s' /\
    Http.status r = status /\ Http.statusText r = text /\
    Http.headers r = h /\
    holds s' r (match bytes with Some b => b | None => [] end) /\
    newBody s r /\ (bytes <> None -> Http.body r <> None) /\
    extends s s' /\
    memoryCache s' = memoryCache s /\ handled s' = handled s.
Proof.
  destruct bytes as [b|]; cbn.
  - eexists _, _. split; [reflexivity|].
    repeat split; cbn.
    + unfold holds. cbn. now rewrite nth_error_app2, Nat.sub_diag by lia.
    + now right.
    + discriminate.
    + now exists [mkCell b false].
  - eexists _, _. split; [reflexivity|].
    repeat split; cbn; auto.
    + now left.
    + apply extends_refl.
Qed.

Lemma respond_spec terminal req s :
  exists r s',
    respond terminal req s = Ok r s' /\
    answers (terminal req) r /\
    holds s' r (bytesOf (terminal req)) /\
    extends s s' /\
    memoryCache s' = memoryCache s /\
    handled s' = url req :: handled s.
Proof.
  unfold respond, bind, recordHandled.
  set (s1 := mkState (store s) (memoryCache s) (url req :: handled s)).
  destruct (newResponse_spec (replyBody (terminal req))
              (replyStatus (terminal req)) (replyStatusText (terminal req))
              (replyHeaders (terminal req)) s1)
    as (r & s' & E & H1 & H2 & H3 & H4 & _ & _ & H5 & H6 & H7).
  exists r, s'. rewrite E. repeat split; auto.
Qed.

Lemma clone_spec r s b :
  holds s r b ->
  exists r' s',
    clone r s = Ok r' s' /\
    sameHead r r' /\ holds s' r' b /\ newBody s r' /\
    extends s s' /\
    memoryCache s' = memoryCache s /\ handled s' = handled s.
Proof.
  unfold holds, clone. destruct (Http.body r) as [i|] eqn:Eb.
  - intros Hi. rewrite Hi. cbn.
    eexists _, _. split; [reflexivity|].
    repeat split; cbn.
    + unfold holds. cbn. now rewrite nth_error_app2, Nat.sub_diag by lia.
    + now right.
    + now exists [mkCell b false].
  - intros ->. exists r, s. split; [reflexivity|].
    repeat split; auto.
    + unfold holds. now rewrite Eb.
    + now left.
    + apply extends_refl.
Qed.

Lemma nth_error_disturbAt_other cells i j :
  i <> j -> nth_error (disturbAt i cells) j = nth_error cells j.
Proof.
  revert i j. induction cells as [|c rest IH]; intros i j H; [reflexivity|].
  destruct i as [|i'], j as [|j']; cbn; auto; try contradiction.
Qed.

(** Reading one body leaves the bodies in other cells as they are. *)
Lemma arrayBuffer_spec r s b :
  holds s r b ->
  exists s',
    arrayBuffer r s = Ok b s' /\
    memoryCache s' = memoryCache s /\ handled s' = handled s /\
    forall r' b',
      Http.body r' <> Http.body r \/ Http.body r' = None ->
      holds s r' b' -> holds s' r' b'.
Proof.
  unfold holds, arrayBuffer, readBody.
  destruct (Http.body r) as [i|] eqn:Eb.
  - intros Hi. rewrite Hi. cbn. eexists. split; [reflexivity|].
    repeat split; auto. intros r' b' Hne. cbn.
    destruct (Http.body r') as [j|]; auto.
    intros Hj. rewrite nth_error_disturbAt_other; auto.
    destruct Hne as [Hne|Hne]; congruence.
  - intros ->. exists s. repeat split; auto.
Qed.

(** A body that has been read cannot be read again. *)
Lemma arrayBuffer_twice r s b s' :
  Http.body r <> None ->
  arrayBuffer r s = Ok b s' ->
  exists e, arrayBuffer r s' = Throw e s' /\ bodyUsed r s' = true.
Proof.
  unfold arrayBuffer, readBody, bodyUsed.
  destruct (Http.body r) as [i|]; [intros _ | congruence].
  destruct (nth_error (store s) i) as [c|] eqn:Ei; [|discriminate].
  destruct (disturbed c) eqn:Ed; [discriminate|].
  intros [= <- <-]. cbn.
  assert (H : nth_error (disturbAt i (store s)) i
              = Some (mkCell (content c) true)).
  { clear Ed. revert i Ei. generalize (store s) as cells.
    induction cells as [|x rest IH]; intros [|i] Ei; cbn in *; try discriminate.
    - now injection Ei as ->.
    - now apply IH. }
  rewrite H. cbn. eexists. split; reflexivity.
Qed.

End RuntimeFacts.

(** ** The insertion-ordered map *)

Module JsMapFacts.

Import JsMap.

Section WithValues.

Variable V : Type.

Lemma map_get_set_same k (v : V) m : get k (set k v m) = Some v.
Proof.
  unfold get. induction m as [|e r IH]; cbn.
  - unfold hasKey. cbn. now rewrite eqb_refl.
  - destruct (hasKey k e) eqn:E; cbn.
    + unfold hasKey. cbn. now rewrite eqb_refl.
    + now rewrite E.
Qed.

Lemma map_get_set_other k k' (v : V) m : k <> k' -> get k (set k' v m) = get k m.
Proof.
  intros Hne. unfold get. induction m as [|e r IH]; cbn.
  - unfold hasKey. cbn. apply eqb_neq in Hne.
    rewrite (proj2 (eqb_neq k' k)); [reflexivity|].
    intros ->. now rewrite eqb_refl in Hne.
  - destruct (hasKey k' e) eqn:E'; cbn.
    + unfold hasKey in *. cbn. apply eqb_spec in E'. rewrite E'.
      now rewrite (proj2 (eqb_neq k' k)) by congruence.
    + destruct (hasKey k e); auto.
Qed.

Lemma map_get_delete_same k (m : t V) : get k (delete k m) = None.
Proof.
  unfold get, delete. induction m as [|e r IH]; cbn; auto.
  destruct (hasKey k e) eqn:E; cbn; auto. now rewrite E.
Qed.


(** A key that is not there is added at the end. *)
Lemma set_absent k (v : V) m : get k m = None -> set k v m = m ++ [(k, v)].
Proof.
  unfold get. induction m as [|e r IH]; cbn; auto.
  destruct (hasKey k e); [discriminate|]. intros H. now rewrite IH.
Qed.

(** Deleting a key and setting it again moves it to the end. *)
Lemma set_delete k (v : V) m : set k v (delete k m) = delete k m ++ [(k, v)].
Proof. apply set_absent, map_get_delete_same. Qed.

Lemma get_cons_same k (v : V) m : get k ((k, v) :: m) = Some v.
Proof. unfold get, hasKey. cbn. now rewrite eqb_refl. Qed.








End WithValues.

End JsMapFacts.

(** ** The response cache *)

Module CacheFacts.

Import Runtime Cache Bodies CacheSpec RuntimeFacts.

Lemma evict_within maxSize m :
  (JsMap.size m <= maxSize)%Z -> evict maxSize m = m.
Proof.
  intros H. unfold evict.
  replace (JsMap.size m >? maxSize)%Z with false; [reflexivity|].
  symmetry. rewrite Z.gtb_ltb. now apply Z.ltb_ge.
Qed.


Lemma active_guard o req :
  method req = str "GET" -> (0 < maxAge o)%Z ->
  negb (eqb (method req) (str "GET")) || (maxAge o <=? 0)%Z = false.
Proof.
  intros -> H. rewrite eqb_refl. cbn.
  apply Z.leb_gt. exact H.
Qed.

Lemma cache_passes o now req next :
  method req <> str "GET" \/ (maxAge o <= 0)%Z ->
  cache o now req next = next.
Proof.
  intros H. unfold cache.
  replace (negb (eqb (method req) (str "GET")) || (maxAge o <=? 0)%Z)
    with true; [reflexivity|].
  symmetry. apply orb_true_iff. destruct H as [H|H].
  - left. apply eqb_neq in H. now rewrite H.
  - right. now apply Z.leb_le.
Qed.

Lemma cache_hit o now req next s e :
  method req = str "GET" -> (0 < maxAge o)%Z ->
  lookupFresh (url req) now (memoryCache s) = Some e ->
  cache o now req next s =
  clone (data e)
    (withCache s (JsMap.set (url req) e
                    (JsMap.delete (url req) (memoryCache s)))).
Proof.
  intros Hm Ha Hl. unfold cache. rewrite active_guard by assumption.
  unfold bind at 1. unfold getMemoryCache at 1. rewrite Hl.
  reflexivity.
Qed.

Lemma cache_miss o now req next s :
  method req = str "GET" -> (0 < maxAge o)%Z ->
  lookupFresh (url req) now (memoryCache s) = None ->
  cache o now req next s =
  match next s with
  | Ok response s1 =>
      if Http.ok response then
        match clone response s1 with
        | Ok copy s2 =>
            Ok response
               (withCache s2
                  (evict (maxSize o)
                     (JsMap.set (url req)
                        (mkCacheEntry copy (now + maxAge o * 1000)%Z)
                        (memoryCache s2))))
        | Throw e s2 => Throw e s2
        end
      else Ok response s1
  | Throw e s1 => Throw e s1
  end.
Proof.
  intros Hm Ha Hl. unfold cache. rewrite active_guard by assumption.
  unfold bind at 1. unfold getMemoryCache at 1. rewrite Hl.
  unfold bind at 1. unfold bind at 1.
  destruct (next s) as [response s1|e s1]; [|reflexivity].
  destruct (Http.ok response); [|reflexivity].
  unfold bind at 1.
  destruct (clone response s1) as [copy s2|e s2]; [|reflexivity].
  unfold bind, updateMemoryCache, getMemoryCache, evict, withCache, ret.
  cbn [memoryCache store handled].
  destruct (JsMap.size _ >? maxSize o)%Z; [|destruct s2; reflexivity].
  destruct (JsMap.firstKey _); destruct s2; reflexivity.
Qed.

(** A fresh entry answers the request; the terminal handler is not
    called and the entry becomes the most recent one. *)
Lemma hit_spec o now req next s e b :
  method req = str "GET" -> (0 < maxAge o)%Z ->
  lookupFresh (url req) now (memoryCache s) = Some e ->
  holds s (data e) b ->
  exists r s',
    cache o now req next s = Ok r s' /\
    sameHead (data e) r /\ holds s' r b /\ newBody s r /\
    extends s s' /\ handled s' = handled s /\
    memoryCache s' =
      JsMap.delete (url req) (memoryCache s) ++ [(url req, e)].
Proof.
  intros Hm Ha Hl Hb. rewrite (@cache_hit o now req next s e Hm Ha Hl).
  set (s1 := withCache s _).
  destruct (@clone_spec (data e) s1 b) as (r & s' & E & H1 & H2 & H3 & H4 & H5 & H6).
  { exact Hb. }
  exists r, s'. split; [exact E|]. repeat split; try apply H1; auto.
  rewrite H5. unfold s1. cbn. apply JsMapFacts.set_delete.
Qed.

(** Without a fresh entry the terminal handler answers, and its answer
    is stored when its status is a success. *)
Lemma miss_spec o now req terminal s :
  method req = str "GET" -> (0 < maxAge o)%Z ->
  lookupFresh (url req) now (memoryCache s) = None ->
  exists r s',
    cache o now req (respond terminal req) s = Ok r s' /\
    answers (terminal req) r /\
    holds s' r (bytesOf (terminal req)) /\
    extends s s' /\
    handled s' = url req :: handled s /\
    (Http.ok r = false -> memoryCache s' = memoryCache s) /\
    (Http.ok r = true ->
       exists copy,
         sameHead r copy /\
         holds s' copy (bytesOf (terminal req)) /\
         (Http.body copy = None \/ Http.body copy <> Http.body r) /\
         memoryCache s' =
           evict (maxSize o)
             (JsMap.set (url req)
                (mkCacheEntry copy (now + maxAge o * 1000)%Z)
                (memoryCache s))).
Proof.
  intros Hm Ha Hl. rewrite (@cache_miss o now req (respond terminal req) s Hm Ha Hl).
  destruct (respond_spec terminal req s)
    as (r & s1 & E & A1 & A2 & A3 & A4 & A5).
  rewrite E. destruct (Http.ok r) eqn:Eok.
  - destruct (@clone_spec r s1 _ A2) as (copy & s2 & Ec & C1 & C2 & C3 & C4 & C5 & C6).
    rewrite Ec. eexists r, _. split; [reflexivity|].
    split; [exact A1|]. split.
    { unfold holds, withCache. cbn. now apply (@holds_extends s1 s2 r _ C4). }
    split.
    { destruct A3 as [m1 H1], C4 as [m2 H2]. exists (m1 ++ m2). cbn.
      now rewrite H2, H1, app_assoc. }
    split; [cbn; congruence|]. split; [intros H; congruence|].
    intros _. exists copy. split; [exact C1|]. split; [exact C2|]. split.
    + destruct C3 as [C3|C3]; [now left|right]. rewrite C3.
      unfold holds in A2. destruct (Http.body r) as [i|]; [|discriminate].
      intros [= H].
      assert (i < List.length (store s1)) by (apply nth_error_Some; congruence).
      lia.
    + cbn. now rewrite C5, A4.
  - exists r, s1. split; [reflexivity|]. repeat split; auto; try apply A1.
    intros H; congruence.
Qed.

End CacheFacts.

(** ** The key, the lifetime and the sharing of cache entries *)

Module CacheProperties.

Import Runtime Cache Bodies CacheSpec RuntimeFacts CacheFacts.

Lemma href_origin u1 u2 :
  wellFormed u1 -> wellFormed u2 -> href u1 = href u2 ->
  protocol u1 = protocol u2 /\ host u1 = host u2.
Proof.
  intros ((sch1 & P1 & N1) & H1 & A1) ((sch2 & P2 & N2) & H2 & A2).
  unfold href. rewrite P1, P2, <- !app_assoc. cbn [str list_ascii_of_string app].
  intros E. apply cut_at_first in E as [-> E]; auto.
  split; [reflexivity|]. injection E as E.
  destruct (pathname u1) as [|c1 p1]; [discriminate|].
  destruct (pathname u2) as [|c2 p2]; [discriminate|].
  cbn in A1, A2. apply Ascii.eqb_eq in A1, A2. subst c1 c2.
  cbn [app] in E. now apply cut_at_first in E as [-> _].
Qed.

(** What C3 states fails: the key of a stored response is the whole URL
    string of the request, and a request for the same path and query over
    another scheme is a miss that reaches the terminal handler and gets
    an entry of its own. *)
Lemma cache_key_holds_scheme_and_host :
  let options := mkCacheOptions 60 100 in
  let plain := Examples.getRequest "http:" "example.org" "/a" "?x=1" in
  let secure := Examples.getRequest "https:" "example.org" "/a" "?x=1" in
  let answer := fun _ : Request => Examples.page in
  let s1 :=
    stateOf (cache options 0 plain (respond answer plain) Examples.initial) in
  let s2 := stateOf (cache options 1 secure (respond answer secure) s1) in
  pathname (target plain) ++ search (target plain) =
    pathname (target secure) ++ search (target secure) /\
  JsMap.keys (memoryCache s1) = [str "http://example.org/a?x=1"] /\
  JsMap.keys (memoryCache s1) <>
    [pathname (target plain) ++ search (target plain)] /\
  handled s2 = [url secure; url plain] /\
  JsMap.keys (memoryCache s2) =
    [str "http://example.org/a?x=1"; str "https://example.org/a?x=1"].
Proof.
  cbv zeta. repeat split; try reflexivity. vm_compute. discriminate.
Qed.

(** C3, amended. For a GET request and a positive [maxAge] the cache key
    is the URL string of the request, with scheme and host: a fresh entry
    under that string answers the request without the terminal handler;
    without an entry under that string the terminal handler is called,
    whatever is stored under other strings, and a successful answer is
    stored under that string; and the URL strings of two well-formed
    URLs that differ in scheme or host differ. *)
Theorem cache_key_is_request_url (options : CacheOptions) (now : Z)
  (req : Request) (terminal : Request -> Reply) (s : State) :
  method req = str "GET" ->
  (0 < maxAge options)%Z ->
  let run := cache options now req (respond terminal req) s in
  (forall e b,
     JsMap.get (url req) (memoryCache s) = Some e ->
     (now < expires e)%Z ->
     holds s (data e) b ->
     exists r s',
       run = Ok r s' /\ handled s' = handled s /\
       sameHead (data e) r /\ holds s' r b) /\
  (JsMap.get (url req) (memoryCache s) = None ->
     exists r s',
       run = Ok r s' /\ handled s' = url req :: handled s /\
       answers (terminal req) r /\
       (Http.ok r = true ->
        exists copy,
          sameHead r copy /\
          memoryCache s' =
            evict (maxSize options)
              (memoryCache s ++
               [(url req,
                 mkCacheEntry copy (now + maxAge options * 1000)%Z)]))) /\
  (forall req',
     wellFormed (target req) -> wellFormed (target req') ->
     protocol (target req) <> protocol (target req') \/
     host (target req) <> host (target req') ->
     url req <> url req').
Proof.
  intros Hm Ha run. split; [|split].
  - intros e b He Hfresh Hb.
    assert (Hl : lookupFresh (url req) now (memoryCache s) = Some e).
    { unfold lookupFresh. rewrite He.
      now rewrite (proj2 (Z.gtb_lt _ _) Hfresh). }
    destruct (@hit_spec options now req (respond terminal req) s e b
                Hm Ha Hl Hb)
      as (r & s' & E & H1 & H2 & _ & _ & H3 & _).
    exists r, s'. auto.
  - intros Hnone.
    assert (Hl : lookupFresh (url req) now (memoryCache s) = None).
    { unfold lookupFresh. now rewrite Hnone. }
    destruct (@miss_spec options now req terminal s Hm Ha Hl)
      as (r & s' & E & H1 & _ & _ & H2 & _ & H3).
    exists r, s'. repeat split; try apply H1; auto.
    intros Hok. destruct (H3 Hok) as (copy & C1 & _ & _ & C2).
    exists copy. split; [exact C1|].
    now rewrite C2, JsMapFacts.set_absent.
  - intros req' W W' Hdiff E. unfold url in E.
    destruct (href_origin W W' E) as [Hp Hh].
    destruct Hdiff; contradiction.
Qed.

Lemma answers_ok reply r : answers reply r -> Http.ok r = replyOk reply.
Proof. intros (H & _ & _). unfold Http.ok, replyOk. now rewrite H. Qed.

(** What C6 states fails in its last part: a lookup that finds the entry
    expired leaves it in the map.  Here the entry stored at time 0 with a
    lifetime of one second is looked up at time 5000; the terminal handler
    is called, answers 404, and the map is as before, expired entry
    included. *)
Lemma expired_entry_is_not_removed :
  let options := mkCacheOptions 1 100 in
  let req := Examples.getRequest "http:" "example.org" "/a" EmptyString in
  let s1 :=
    stateOf (cache options 0 req
               (respond (fun _ => Examples.page) req) Examples.initial) in
  let s2 :=
    stateOf (cache options 5000 req
               (respond (fun _ => Examples.missing) req) s1) in
  option_map expires (JsMap.get (url req) (memoryCache s1)) = Some 1000%Z /\
  lookupFresh (url req) 5000 (memoryCache s1) = None /\
  handled s2 = [url req; url req] /\
  memoryCache s2 = memoryCache s1 /\
  JsMap.keys (memoryCache s2) = [url req].
Proof. cbv zeta. repeat split; reflexivity. Qed.

(** C6, amended. The life of a cache entry, for every state, request and
    answer of the terminal handler.  A request that is not a GET, or a
    [maxAge] that is not positive, leaves the map alone.  Otherwise: a
    fresh entry is moved to the most recent position and the terminal
    handler is not called; without a fresh entry (none, or an expired
    one) an answer that is no success leaves the map as it is, so an
    expired entry stays; and a successful answer is set under the key
    with expiry [now + maxAge * 1000] (in the place of an expired entry,
    at the end otherwise), after which the oldest entry is deleted when
    the map holds more than [maxSize] entries. *)
Theorem cache_entry_lifecycle (options : CacheOptions) (now : Z)
  (req : Request) (terminal : Request -> Reply) (s : State) :
  let key := url req in
  let after :=
    stateOf (cache options now req (respond terminal req) s) in
  (method req <> str "GET" \/ (maxAge options <= 0)%Z ->
     memoryCache after = memoryCache s) /\
  (method req = str "GET" -> (0 < maxAge options)%Z ->
     (forall e,
        lookupFresh key now (memoryCache s) = Some e ->
        memoryCache after = JsMap.delete key (memoryCache s) ++ [(key, e)] /\
        handled after = handled s) /\
     (lookupFresh key now (memoryCache s) = None ->
        handled after = key :: handled s /\
        (replyOk (terminal req) = false ->
           memoryCache after = memoryCache s) /\
        (replyOk (terminal req) = true ->
           exists copy,
             answers (terminal req) copy /\
             holds after copy (bytesOf (terminal req)) /\
             memoryCache after =
               evict (maxSize options)
                 (JsMap.set key
                    (mkCacheEntry copy (now + maxAge options * 1000)%Z)
                    (memoryCache s))))).
Proof.
  intros key after. split.
  - intros Hpass. unfold after. rewrite cache_passes by assumption.
    destruct (respond_spec terminal req s) as (r & s' & E & _ & _ & _ & H & _).
    now rewrite E.
  - intros Hm Ha. split.
    + intros e Hl. unfold after.
      rewrite (@cache_hit options now req (respond terminal req) s e Hm Ha Hl).
      fold key. unfold clone.
      destruct (Http.body (data e)) as [i|]; cbn.
      * destruct (nth_error (store s) i) as [c|]; cbn;
          [destruct (disturbed c); cbn|];
          split; auto; apply JsMapFacts.set_delete.
      * split; auto. apply JsMapFacts.set_delete.
    + intros Hl.
      destruct (@miss_spec options now req terminal s Hm Ha Hl)
        as (r & s' & E & A & _ & _ & Hh & Hno & Hyes).
      unfold after. rewrite E. cbn [stateOf].
      rewrite <- (answers_ok A).
      split; [exact Hh|]. split; [exact Hno|].
      intros Hok. destruct (Hyes Hok) as (copy & C1 & C2 & _ & C3).
      exists copy. split; [|split; assumption].
      destruct A as (A1 & A2 & A3), C1 as (D1 & D2 & D3).
      repeat split; congruence.
Qed.









End CacheProperties.

(** ** The compression stage *)

Module CompressionFacts.

Import Runtime Compression Bodies StageSpec RuntimeFacts.

Lemma respond_body terminal req s r s' :
  replyBody (terminal req) <> None ->
  respond terminal req s = Ok r s' -> Http.body r <> None.
Proof.
  unfold respond, bind, recordHandled, newResponse.
  destruct (replyBody (terminal req)) as [b|]; [intros _ | congruence].
  unfold bind, allocate, ret. cbn. intros [= <- _]. discriminate.
Qed.

(** C4. What the stage does with an answer of a compressible type.  With
    [br] among the accepted encodings the body is replaced by its Brotli
    encoding, [Content-Encoding] is [br] and [Content-Length] is gone.
    Without an [Accept-Encoding] header the response object of the
    terminal handler comes back with its status and headers, but not
    unchanged: its body has been read before the encodings were looked
    at, so it is used and reading it throws. *)
Theorem compression_outcomes (zlib : Zlib) (options : CompressionOptions)
  (req : Request) (terminal : Request -> Reply) (s : State) :
  compressible options (terminal req) = true ->
  let reply := terminal req in
  let acceptEncoding :=
    orElse (Http.get (str "Accept-Encoding") (requestHeaders req)) [] in
  let run := compression zlib options req (respond terminal req) s in
  (includes acceptEncoding (str "br") = true ->
     exists r s',
       run = Ok r s' /\
       Http.status r = replyStatus reply /\
       Http.get (str "Content-Encoding") (Http.headers r) = Some (str "br") /\
       Http.get (str "Content-Length") (Http.headers r) = None /\
       holds s' r
         (brotliCompressSync zlib (bytesOf reply) (level options))) /\
  (Http.get (str "Accept-Encoding") (requestHeaders req) = None ->
     exists r s',
       run = Ok r s' /\ answers reply r /\
       (replyBody reply <> None ->
          bodyUsed r s' = true /\ exists e, arrayBuffer r s' = Throw e s')).
Proof.
  intros Hc reply acceptEncoding run.
  destruct (respond_spec terminal req s)
    as (r0 & s1 & E & A & B & _ & _ & _).
  destruct (@arrayBuffer_spec r0 s1 _ B) as (s2 & R & _).
  assert (Hrun : run =
    if includes acceptEncoding (str "br") then
      encoded r0 (str "br")
        (brotliCompressSync zlib (bytesOf reply) (level options)) s2
    else if includes acceptEncoding (str "gzip") then
      encoded r0 (str "gzip")
        (gzipSync zlib (bytesOf reply) (level options)) s2
    else Ok r0 s2).
  { unfold run, compression. unfold bind at 1. rewrite E.
    destruct A as (_ & _ & Ah). rewrite Ah.
    unfold compressible in Hc. rewrite Hc. cbn [negb].
    unfold bind at 1. rewrite R. fold acceptEncoding.
    destruct (includes acceptEncoding (str "br")); [reflexivity|].
    destruct (includes acceptEncoding (str "gzip")); reflexivity. }
  split.
  - intros Hbr. rewrite Hrun, Hbr. unfold encoded.
    destruct (newResponse_spec
                (Some (brotliCompressSync zlib (bytesOf reply) (level options)))
                (Http.status r0) (Http.statusText r0)
                (Http.delete (str "Content-Length")
                   (Http.set (str "Content-Encoding") (str "br")
                      (Http.headers r0))) s2)
      as (r & s' & En & H1 & _ & H3 & H4 & _).
    exists r, s'. split; [exact En|]. rewrite H3.
    split; [unfold reply; destruct A as (A1 & _); congruence|].
    split; [|split; [|exact H4]].
    + rewrite HttpFacts.get_delete_other by (vm_compute; discriminate).
      apply HttpFacts.get_set_same.
    + apply HttpFacts.get_delete_same.
  - intros Hnone. rewrite Hrun. unfold acceptEncoding. rewrite Hnone.
    cbn [orElse includes startsWith str list_ascii_of_string orb].
    exists r0, s2. split; [reflexivity|]. split; [exact A|].
    intros Hbody.
    destruct (@arrayBuffer_twice r0 s1 _ s2
                (respond_body terminal req s Hbody E) R) as (e & H1 & H2).
    split; [exact H2 | now exists e].
Qed.

(** The two cases on a page of type [text/html], for any encoders: the
    request without [Accept-Encoding] gets the response whose body was
    read, the request that accepts [br, gzip] gets the Brotli encoding. *)
Lemma compression_on_a_page (zlib : Zlib) :
  let bare := Examples.getRequest "http:" "example.org" "/index.html" EmptyString in
  let both :=
    mkRequest (str "GET") (target bare)
      (Http.ofList [(str "Accept-Encoding", str "br, gzip")]) in
  let answer := fun _ : Request => Examples.page in
  let stage := compression zlib Compression.defaults in
  (exists r s',
     stage bare (respond answer bare) Examples.initial = Ok r s' /\
     Http.get (str "Accept-Encoding") (requestHeaders bare) = None /\
     answers Examples.page r /\
     bodyUsed r s' = true /\
     arrayBuffer r s' = Throw (TypeError (str "Body already used")) s') /\
  (exists r s',
     stage both (respond answer both) Examples.initial = Ok r s' /\
     Http.get (str "Content-Encoding") (Http.headers r) = Some (str "br") /\
     Http.get (str "Content-Length") (Http.headers r) = None /\
     holds s' r (brotliCompressSync zlib (bytesOf Examples.page) 6)).
Proof.
  cbv zeta. split.
  - vm_compute. eexists _, _. split; [reflexivity|]. repeat split.
  - vm_compute. eexists _, _. split; [reflexivity|]. repeat split.
Qed.

End CompressionFacts.

(** ** The CORS stage *)

Module CorsFacts.

Import Runtime Cors Bodies StageSpec RuntimeFacts.

Lemma listIncludes_false l x : ~ In x l -> listIncludes l x = false.
Proof.
  unfold listIncludes. induction l as [|y l IH]; [reflexivity|].
  intros H. cbn. rewrite IH by (intros Hin; apply H; now right).
  rewrite (proj2 (eqb_neq x y)); [reflexivity|].
  intros ->. apply H. now left.
Qed.

Lemma get_setIf_other name name' condition value h :
  toLowerCase name <> toLowerCase name' ->
  Http.get name (setIf condition name' value h) = Http.get name h.
Proof.
  intros H. unfold setIf. destruct condition; [|reflexivity].
  now apply HttpFacts.get_set_other.
Qed.

(** The origin the request is looked up with: the header, or the empty
    string without one. *)
Lemma unmatched_origin (origins : list jstring) (req : Request) :
  ~ In [] origins ->
  Http.get (str "Origin") (requestHeaders req) = None \/
  (exists o, Http.get (str "Origin") (requestHeaders req) = Some o /\
             ~ In o origins) ->
  ~ In (orElse (Http.get (str "Origin") (requestHeaders req)) []) origins.
Proof.
  intros Hempty [-> | (o & -> & Ho)]; [exact Hempty|].
  destruct o; [exact Hempty | exact Ho].
Qed.

(** What C10 states fails for two kinds of list.  A request without an
    [Origin] header is looked up as the empty string: a list that holds
    the empty string after its first origin answers it with the empty
    string, on the response of the terminal handler and on the 204
    answer to a preflight, and not with its first origin.  The empty
    list has no first origin and answers with [undefined]. *)
Lemma listed_empty_origin_is_answered :
  let listed :=
    mkCorsOptions (OriginList [str "https://app.example"; []])
      [str "GET"] [] [] false 600 in
  let empty := mkCorsOptions (OriginList []) [str "GET"] [] [] false 600 in
  let preflight := mkRequest (str "OPTIONS") (target Examples.pageA) [] in
  Http.get (str "Origin") (requestHeaders Examples.pageA) = None /\
  Http.get (str "Origin") (requestHeaders preflight) = None /\
  (exists r s',
     cors listed Examples.pageA (respond Examples.answer Examples.pageA)
       Examples.initial = Ok r s' /\
     allowOrigin r = Some [] /\
     allowOrigin r <> Some (str "https://app.example")) /\
  (exists r s',
     cors listed preflight (respond Examples.answer preflight)
       Examples.initial = Ok r s' /\
     Http.status r = 204%Z /\
     allowOrigin r = Some [] /\
     allowOrigin r <> Some (str "https://app.example")) /\
  (exists r s',
     cors empty Examples.pageA (respond Examples.answer Examples.pageA)
       Examples.initial = Ok r s' /\
     allowOrigin r = Some (str "undefined")).
Proof.
  cbv zeta. split; [reflexivity|]. split; [reflexivity|].
  split; [|split]; vm_compute; eexists _, _;
    (split; [reflexivity|]); repeat split; discriminate.
Qed.

(** C10. With a list of origins (a first one and maybe more, none of
    them the empty string), a request whose [Origin] header is absent or
    not in the list gets [Access-Control-Allow-Origin] set to the first
    origin of the list: on the 204 answer to a preflight, for which the
    terminal handler is not called, and on the answer of the terminal
    handler to any other request; the header is present and differs from
    the origin the request sent. *)
Theorem cors_falls_back_to_first_origin (options : CorsOptions)
  (first : jstring) (others : list jstring)
  (req : Request) (terminal : Request -> Reply) (s : State) :
  origin options = OriginList (first :: others) ->
  ~ In [] (first :: others) ->
  Http.get (str "Origin") (requestHeaders req) = None \/
  (exists o, Http.get (str "Origin") (requestHeaders req) = Some o /\
             ~ In o (first :: others)) ->
  let run := cors options req (respond terminal req) s in
  exists r s',
    run = Ok r s' /\
    allowOrigin r = Some first /\
    Http.get (str "Origin") (requestHeaders req) <> Some first /\
    (method req = str "OPTIONS" ->
       Http.status r = 204%Z /\ handled s' = handled s) /\
    (method req <> str "OPTIONS" ->
       Http.status r = replyStatus (terminal req) /\
       handled s' = url req :: handled s).
Proof.
  intros Ho Hempty Hreq run.
  pose proof (@unmatched_origin (first :: others) req Hempty Hreq) as Hnot.
  assert (Hvalue :
    originValueFor (origin options)
      (orElse (Http.get (str "Origin") (requestHeaders req)) []) = first).
  { rewrite Ho. cbn [originValueFor].
    now rewrite listIncludes_false. }
  assert (Hecho : Http.get (str "Origin") (requestHeaders req) <> Some first).
  { destruct Hreq as [-> | (o & -> & Hin)]; [discriminate|].
    intros [= ->]. apply Hin. now left. }
  unfold run, cors. rewrite Hvalue.
  destruct (eqb (method req) (str "OPTIONS")) eqn:Em.
  - match goal with
    | |- exists r s', newResponse None 204%Z [] ?h s = _ /\ _ =>
        destruct (newResponse_spec None 204%Z [] h s)
          as (r & s' & E & H1 & _ & H3 & _ & _ & _ & _ & _ & H6)
    end.
    exists r, s'. split; [exact E|]. split; [|split; [exact Hecho|split]].
    + unfold allowOrigin. rewrite H3.
      rewrite HttpFacts.get_set_other by (vm_compute; discriminate).
      rewrite get_setIf_other by (vm_compute; discriminate).
      rewrite HttpFacts.get_set_other by (vm_compute; discriminate).
      rewrite !get_setIf_other by (vm_compute; discriminate).
      apply HttpFacts.get_set_same.
    + intros _. split; assumption.
    + intros Hne. apply eqb_spec in Em. contradiction.
  - destruct (respond_spec terminal req s)
      as (r0 & s1 & E & A & B & _ & _ & Hh).
    unfold bind at 1. rewrite E. unfold rewrap.
    rewrite (@holds_bodyUsed s1 r0 _ B).
    eexists _, s1. split; [reflexivity|].
    split; [|split; [exact Hecho|split]].
    + unfold allowOrigin. cbn [Http.headers].
      rewrite !get_setIf_other by (vm_compute; discriminate).
      apply HttpFacts.get_set_same.
    + intros Hm. rewrite Hm in Em. discriminate.
    + intros _. cbn [Http.status]. split; [apply A | exact Hh].
Qed.

End CorsFacts.

(** ** More about the handler *)

Module HandlerMore.

Import NodePath PathUtils Lexical Handler HandlerSpec PathFacts HandlerFacts.

(** A request that is neither GET nor HEAD is answered with 405 and
    [Allow: GET, HEAD]; the file system is not called. *)
Theorem other_methods_not_allowed (P : Platform) (fs : FileSystem)
  (rootDir urlPath method : jstring) (options : HandlerOptions) :
  method <> str "GET" -> method <> str "HEAD" ->
  let result := handler P fs rootDir urlPath method options in
  Http.status (fst result) = 405%Z /\
  Http.get (str "Allow") (Http.headers (fst result)) = Some (str "GET, HEAD") /\
  snd result = [].
Proof.
  intros Hg Hh result. unfold result, handler.
  apply eqb_neq in Hg, Hh. rewrite Hg, Hh. cbn. repeat split.
Qed.

(** A path that does not exist: with the SPA mode on, the [index.html] of
    the root directory is served when it exists and its [stat] succeeds;
    with the SPA mode off the answer is 404. *)
Theorem spa_fallback (P : Platform) (fs : FileSystem)
  (rootDir urlPath : jstring) (options : HandlerOptions)
  (indexStats : Stats) :
  let filePath := resolveStaticPath rootDir (normalizeUrlPath urlPath) in
  let indexPath := join [rootDir; str "index.html"] in
  isPathUnderRoot (cwd P) filePath rootDir = true ->
  fs_stat fs filePath = StatError (str "ENOENT") ->
  fs_existsSync fs indexPath = true ->
  fs_stat fs indexPath = StatOk indexStats ->
  let result := handler P fs rootDir urlPath (str "GET") options in
  (enableSPA options = true ->
     Http.status (fst result) = 200%Z /\
     Http.body (fst result) = FileBody indexPath) /\
  (enableSPA options = false -> Http.status (fst result) = 404%Z).
Proof.
  intros filePath indexPath Hin Hstat Hexists Hindex result.
  unfold result, handler.
  replace (negb (eqb (str "GET") (str "GET")) &&
           negb (eqb (str "GET") (str "HEAD"))) with false by reflexivity.
  fold filePath. rewrite Hin. cbn [negb].
  rewrite bind_fst_eq.
  change (fst (stat fs filePath)) with (fs_stat fs filePath). rewrite Hstat.
  split.
  - intros HS. rewrite HS, eqb_refl. cbn [andb]. fold indexPath.
    rewrite bind_fst_eq. unfold tryIndex. rewrite bind_fst_eq.
    change (fst (existsSync fs indexPath)) with (fs_existsSync fs indexPath).
    rewrite Hexists. rewrite bind_fst_eq.
    change (fst (stat fs indexPath)) with (fs_stat fs indexPath).
    rewrite Hindex. rewrite bind_fst_eq. cbn [ret fst]. unfold serveFile.
    replace (eqb (str "GET") (str "HEAD")) with false by reflexivity.
    rewrite bind_fst_eq. split; reflexivity.
  - intros HS. rewrite HS. reflexivity.
Qed.

(** A HEAD request for a file gets the headers of a GET request plus
    [Content-Length], and no body; the file is not opened. *)
Theorem head_like_get (P : Platform) (filePath : jstring) (stats : Stats) :
  let head := serveFile P filePath stats (str "HEAD") in
  let get := serveFile P filePath stats (str "GET") in
  Http.headers (fst head) =
    Http.set (str "Content-Length")
      (JsNumber.toString10 (Z.of_N (size stats))) (Http.headers (fst get)) /\
  Http.status (fst head) = Http.status (fst get) /\
  Http.body (fst head) = NoBody /\
  Http.body (fst get) = FileBody filePath /\
  snd head = [] /\ snd get = [OpFile filePath].
Proof. cbv zeta. unfold serveFile. cbn. repeat split. Qed.

Lemma insertSorted_permutation P x l :
  Permutation (insertSorted P x l) (x :: l).
Proof.
  induction l as [|y r IH]; cbn; [reflexivity|].
  destruct (compareEntries P y x <=? 0)%Z; [|reflexivity].
  rewrite IH. apply perm_swap.
Qed.

Lemma sortEntries_permutation P l : Permutation (sortEntries P l) l.
Proof.
  unfold sortEntries.
  assert (H : forall acc,
            Permutation (fold_left (fun a x => insertSorted P x a) l acc)
                        (acc ++ l)).
  { induction l as [|x r IH]; intros acc; cbn.
    - now rewrite app_nil_r.
    - rewrite IH, insertSorted_permutation.
      apply Permutation_middle. }
  apply H.
Qed.

Lemma insertSorted_directoriesFirst P x l :
  directoriesFirst l -> directoriesFirst (insertSorted P x l).
Proof.
  intros (dirs & others & -> & Hd & Ho).
  induction dirs as [|d dirs IH].
  - cbn [app]. destruct (entryIsDirectory x) eqn:Ex.
    + exists [x], others. split; [|split; [repeat constructor; exact Ex | exact Ho]].
      destruct others as [|o others']; [reflexivity|]. cbn.
      inversion Ho; subst. unfold compareEntries.
      replace (entryIsDirectory o) with false by congruence. rewrite Ex.
      reflexivity.
    + clear Hd. induction others as [|o others' IHo].
      * exists [], [x]. repeat split; repeat constructor. exact Ex.
      * inversion Ho as [|? ? Hoo Ho']; subst. cbn.
        destruct (compareEntries P o x <=? 0)%Z.
        -- destruct (IHo Ho') as (ds & os & E & Hds & Hos).
           destruct ds as [|d0 ds'].
           ++ exists [], (o :: os). cbn in E. rewrite E.
              repeat split; auto.
           ++ exfalso. inversion Hds as [|? ? Hd0 _]; subst.
              assert (Hin : In d0 (insertSorted P x others')).
              { rewrite E. now left. }
              apply (Permutation_in _ (insertSorted_permutation P x others'))
                in Hin.
              destruct Hin as [<- | Hin]; [congruence|].
              rewrite Forall_forall in Ho'. specialize (Ho' _ Hin). congruence.
        -- exists [], (x :: o :: others'). repeat split; auto.
  - inversion Hd as [|? ? Hdd Hd']; subst. cbn.
    destruct (compareEntries P d x <=? 0)%Z eqn:C.
    + destruct (IH Hd') as (ds & os & E & Hds & Hos).
      exists (d :: ds), os. cbn. rewrite E. repeat split; auto.
    + destruct (entryIsDirectory x) eqn:Ex.
      * exists (x :: d :: dirs), others. repeat split; auto.
      * exfalso. unfold compareEntries in C. rewrite Hdd, Ex in C.
        discriminate.
Qed.

Lemma sortEntries_directoriesFirst P l : directoriesFirst (sortEntries P l).
Proof.
  unfold sortEntries.
  assert (H : forall acc, directoriesFirst acc ->
            directoriesFirst (fold_left (fun a x => insertSorted P x a) l acc)).
  { induction l as [|x r IH]; intros acc Hacc; cbn; [exact Hacc|].
    apply IH. now apply insertSorted_directoriesFirst. }
  apply H. exists [], []. repeat split; constructor.
Qed.

Lemma entryRows_names P fs dirPath urlPath entries :
  map name (keepSome (fst (entryRows P fs dirPath urlPath entries))) =
  filter (statSucceeds fs dirPath) entries.
Proof.
  induction entries as [|entry rest IH]; [reflexivity|].
  cbn [entryRows filter]. rewrite !bind_fst_eq. cbn [ret fst].
  unfold keepSome in *. cbn [flat_map]. rewrite map_app, IH.
  unfold entryRow, statSucceeds. rewrite bind_fst_eq. unfold stat. cbn [fst].
  destruct (fs_stat fs (join [dirPath; entry])); reflexivity.
Qed.

(** The listing of a directory that can be read is answered with 200; it
    holds one row for each entry whose [stat] succeeds, under the name
    of the entry, and the rows of directories come before the rows of
    files. *)
Theorem listing_directories_first (P : Platform) (fs : FileSystem)
  (dirPath urlPath : jstring) (entries : list jstring) :
  fs_readdir fs dirPath = Some entries ->
  let response := fst (serveDirectory P fs dirPath urlPath) in
  Http.status response = 200%Z /\
  exists files,
    Http.body response =
      ListingBody urlPath files (getParentDirectoryUrl urlPath) /\
    directoriesFirst files /\
    Permutation (map name files) (filter (statSucceeds fs dirPath) entries).
Proof.
  intros Hread response. unfold response, serveDirectory.
  rewrite bind_fst_eq.
  change (fst (readdir fs dirPath)) with (fs_readdir fs dirPath).
  rewrite Hread, bind_fst_eq. cbn [ret fst].
  split; [reflexivity|].
  eexists. split; [reflexivity|]. split.
  - apply sortEntries_directoriesFirst.
  - rewrite <- (entryRows_names P fs dirPath urlPath entries).
    apply Permutation_map.
    apply sortEntries_permutation.
Qed.

(** A GET request for the root URL, when the root is a directory
    without [index.html] and listing is on, is answered with the listing
    of the root directory. *)
Theorem root_request_is_listed (P : Platform) (fs : FileSystem)
  (rootDir : jstring) (options : HandlerOptions) (stats : Stats) :
  let filePath := resolveStaticPath rootDir (str "/") in
  isPathUnderRoot (cwd P) filePath rootDir = true ->
  fs_stat fs filePath = StatOk stats ->
  isDirectory stats = true ->
  fs_existsSync fs (join [filePath; str "index.html"]) = false ->
  enableDirectoryListing options = true ->
  fst (handler P fs rootDir (str "/") (str "GET") options) =
  fst (serveDirectory P fs filePath (str "/")).
Proof.
  intros filePath Hin Hstat Hdir Hindex Hlist.
  assert (Hfile : isFile stats = false).
  { unfold isFile, isDirectory in *. now destruct (kind stats). }
  unfold handler.
  replace (negb (eqb (str "GET") (str "GET")) &&
           negb (eqb (str "GET") (str "HEAD"))) with false by reflexivity.
  change (normalizeUrlPath (str "/")) with (str "/").
  fold filePath. rewrite Hin. cbn [negb].
  rewrite bind_fst_eq.
  change (fst (stat fs filePath)) with (fs_stat fs filePath).
  rewrite Hstat, Hfile, Hdir.
  change (endsWith (str "/") (str "/")) with true. cbn [negb].
  rewrite bind_fst_eq.
  unfold tryIndex at 1. rewrite bind_fst_eq.
  change (fst (existsSync fs (join [filePath; str "index.html"])))
    with (fs_existsSync fs (join [filePath; str "index.html"])).
  rewrite Hindex. cbn [ret fst]. now rewrite Hlist.
Qed.

End HandlerMore.

(** ** The other utilities of [utils/path.ts] *)

Module PathUtilsFacts.

Import NodePath PathUtils Lexical Segments UrlShape PathFacts NormalizeFacts.

(** *** Segments of a normalized URL path *)

Lemma is_slash_eq c : is_slash c = true -> c = slash.
Proof. apply Ascii.eqb_eq. Qed.

Lemma joinSlash_split v : joinSlash (split v) = v.
Proof.
  induction v as [|c r IH]; [reflexivity|].
  destruct (is_slash c) eqn:E.
  - rewrite split_cons_slash by assumption.
    apply is_slash_eq in E. subst c.
    rewrite (split_cons r) in *.
    remember (hd [] (split r)) as h. remember (tl (split r)) as t.
    change (joinSlash ([] :: h :: t)) with (slash :: joinSlash (h :: t)).
    now rewrite IH.
  - rewrite split_cons_other by assumption.
    rewrite (split_cons r) in IH.
    remember (hd [] (split r)) as h. remember (tl (split r)) as t.
    destruct t as [|x t'].
    + cbn [joinSlash] in *. now rewrite IH.
    + change (joinSlash ((c :: h) :: x :: t'))
        with (c :: joinSlash (h :: x :: t')).
      now rewrite IH.
Qed.

Lemma segments_named u :
  noDoubleSlash u -> (u <> [] -> endsWith u (str "/") = false) ->
  Forall (fun seg => named seg = true) (tl (split u)) /\
  (u <> [] -> noLeadingSlash u -> named (hd [] (split u)) = true).
Proof.
  induction u as [|c r IH]; intros Hd He.
  - split; [constructor | congruence].
  - assert (Hd' : noDoubleSlash r).
    { destruct r; [exact I | apply Hd]. }
    destruct r as [|c' r'] eqn:Er.
    + assert (Hc : is_slash c = false).
      { specialize (He ltac:(discriminate)).
        destruct (is_slash c) eqn:E; [|reflexivity].
        apply is_slash_eq in E. subst c. discriminate. }
      rewrite split_cons_other by assumption. cbn.
      split; [constructor | reflexivity].
    + rewrite <- Er in *.
      assert (Hr : r <> []) by (subst r; discriminate).
      assert (He' : r <> [] -> endsWith r (str "/") = false).
      { intros _. rewrite <- (endsWith_slash_cons c Hr). now apply He. }
      destruct (IH Hd' He') as [A B].
      destruct (is_slash c) eqn:E.
      * rewrite split_cons_slash by assumption. cbn [tl hd].
        split; [|intros _ Hl; cbn in Hl; congruence].
        rewrite (split_cons r). constructor; [|exact A].
        apply B; [exact Hr|]. subst r. cbn. cbn in Hd.
        destruct Hd as [Hd _]. rewrite E in Hd. exact Hd.
      * rewrite split_cons_other by assumption. cbn [tl hd].
        split; [exact A | reflexivity].
Qed.

Lemma filter_all {A} (f : A -> bool) l :
  Forall (fun x => f x = true) l -> filter f l = l.
Proof.
  induction 1 as [|x l Hx _ IH]; simpl; [reflexivity|].
  now rewrite Hx, IH.
Qed.

Lemma names_cons_slash s : names (slash :: s) = names s.
Proof. unfold names. now rewrite split_cons_slash. Qed.

Lemma normalForm_names s : normalForm s -> s = slash :: joinSlash (names s).
Proof.
  intros (u & -> & Hl & Hd & He). rewrite names_cons_slash. f_equal.
  destruct u as [|c u'] eqn:Eu; [reflexivity|]. rewrite <- Eu in *.
  assert (Hu : u <> []) by (subst u; discriminate).
  destruct (@segments_named u Hd (fun _ => He)) as [A B].
  unfold names. rewrite filter_all; [symmetry; apply joinSlash_split|].
  rewrite (split_cons u). constructor; auto.
Qed.

(** [normalizeUrlPath] writes the non-empty segments of its argument
    after one separator each. *)
Lemma normalizeUrlPath_names u :
  normalizeUrlPath u = slash :: joinSlash (names u).
Proof.
  rewrite <- (names_normalizeUrlPath u).
  apply normalForm_names, normalizeUrlPath_normalForm.
Qed.

(** *** Resolved paths and the URL paths they come from *)

Lemma place_plain cwd p : Forall plain (place cwd p).
Proof.
  rewrite place_walk. apply walk_plain.
  destruct (isAbsolute p); [constructor | apply follow_from_root_plain].
Qed.

Lemma place_nonEmpty cwd p : Forall nonEmpty (rev (place cwd p)).
Proof.
  apply Forall_rev. eapply Forall_impl; [|apply place_kept].
  apply kept_nonEmpty.
Qed.

(** A resolved path stands for the place it was resolved from. *)
Lemma place_resolve cwd p :
  isAbsolute cwd = true -> place cwd (resolve cwd p) = place cwd p.
Proof.
  intros Hcwd. rewrite resolve_place by assumption.
  rewrite (place_walk cwd (slash :: _)). cbn [isAbsolute].
  replace (is_slash slash) with true by reflexivity.
  rewrite split_cons_slash by reflexivity.
  change (walk false [] ([] :: ?l)) with (walk false [] l).
  destruct (rev (place cwd p)) as [|x b] eqn:Eb.
  - apply (f_equal (@rev _)) in Eb. rewrite rev_involutive in Eb.
    now rewrite Eb.
  - rewrite <- Eb. rewrite split_joinSlash.
    + rewrite walk_push_all.
      * now rewrite rev_involutive, app_nil_r.
      * apply Forall_rev, place_kept.
      * apply Forall_rev, place_plain.
    + rewrite Eb. discriminate.
    + apply Forall_rev, place_slashFree.
Qed.

Lemma resolve_idempotent cwd p :
  isAbsolute cwd = true -> resolve cwd (resolve cwd p) = resolve cwd p.
Proof.
  intros Hcwd.
  rewrite (@resolve_place cwd (resolve cwd p) Hcwd).
  rewrite (@place_resolve cwd p Hcwd).
  symmetry. now apply resolve_place.
Qed.

Lemma under_resolved cwd filePath rootDir :
  isAbsolute cwd = true ->
  isPathUnderRoot cwd (resolve cwd filePath) (resolve cwd rootDir) =
  isPathUnderRoot cwd filePath rootDir.
Proof.
  intros Hcwd. unfold isPathUnderRoot.
  now rewrite !resolve_idempotent.
Qed.

Lemma names_joinSlash rest :
  Forall slashFree rest -> Forall nonEmpty rest ->
  names (joinSlash rest) = rest.
Proof.
  intros Hs Hn. destruct rest as [|x r] eqn:E; [reflexivity|].
  rewrite <- E in *. unfold names.
  rewrite split_joinSlash; [|subst; discriminate | assumption].
  apply filter_all. eapply Forall_impl; [|exact Hn].
  intros seg Hseg. unfold named. apply negb_true_iff.
  now apply eqb_neq.
Qed.

Lemma skipn_length_app {A} (a b : list A) : skipn (List.length a) (a ++ b) = b.
Proof. induction a; simpl; auto. Qed.

(** What is left of a resolved path after the resolved root. *)
Lemma names_after_root a rest :
  Forall slashFree (a ++ rest) -> Forall nonEmpty (a ++ rest) ->
  names (skipn (List.length (slash :: joinSlash a))
           (slash :: joinSlash (a ++ rest))) = rest.
Proof.
  intros Hs Hn.
  apply Forall_app in Hs as [Hsa Hsr]. apply Forall_app in Hn as [Hna Hnr].
  cbn [List.length skipn].
  destruct a as [|x a'] eqn:Ea.
  - cbn [joinSlash List.length skipn app]. now apply names_joinSlash.
  - rewrite <- Ea in *. assert (Ha : a <> []) by (subst; discriminate).
    destruct rest as [|y r'] eqn:Er.
    + rewrite app_nil_r.
      rewrite <- (app_nil_r (joinSlash a)) at 2.
      now rewrite skipn_length_app.
    + rewrite <- Er in *. assert (Hr : rest <> []) by (subst; discriminate).
      rewrite joinSlash_app by assumption.
      rewrite skipn_length_app, names_cons_slash.
      now apply names_joinSlash.
Qed.

Lemma getUrlPathFromFilePath_under cwd rootDir filePath rest :
  isAbsolute cwd = true ->
  rev (place cwd filePath) = rev (place cwd rootDir) ++ rest ->
  getUrlPathFromFilePath cwd rootDir filePath = Some (slash :: joinSlash rest).
Proof.
  intros Hcwd Hrest. unfold getUrlPathFromFilePath.
  rewrite under_resolved by assumption.
  assert (Hu : isPathUnderRoot cwd filePath rootDir = true).
  { apply isPathUnderRoot_contained; [assumption|]. now exists rest. }
  rewrite Hu. cbn [negb]. f_equal.
  rewrite normalizeUrlPath_names. f_equal. f_equal.
  rewrite !resolve_place by assumption. rewrite Hrest.
  apply names_after_root; rewrite <- Hrest.
  - apply Forall_rev, place_slashFree.
  - apply place_nonEmpty.
Qed.

Lemma dotless_names u :
  dotless u -> Forall kept (names u) /\ Forall plain (names u).
Proof.
  unfold dotless, names. intros H. rewrite Forall_forall in H.
  split; apply Forall_forall; intros seg Hin;
    apply filter_In in Hin as [Hin Hnamed]; destruct (H _ Hin) as [Hd Hdd].
  - unfold kept. unfold named in Hnamed. apply negb_true_iff in Hnamed.
    now rewrite Hnamed, Hd.
  - exact Hdd.
Qed.

Lemma within_trans a b c : within a b -> within b c -> within a c.
Proof.
  intros [r1 H1] [r2 H2]. exists (r1 ++ r2).
  now rewrite H2, H1, app_assoc.
Qed.

(** *** Parent and child URLs *)

Lemma lastIndexFrom_last_occurrence (a e : jstring) c i found :
  ~ In c e ->
  lastIndexFrom (a ++ c :: e) c i found = Some (i + List.length a).
Proof.
  intros He. revert i found. induction a as [|x a IH]; intros i found.
  - cbn [app lastIndexFrom List.length]. rewrite Ascii.eqb_refl.
    rewrite Nat.add_0_r. generalize (S i).
    induction e as [|y e IHe]; intros j; [reflexivity|].
    cbn [lastIndexFrom].
    destruct (Ascii.eqb y c) eqn:E.
    + apply Ascii.eqb_eq in E. subst y. exfalso. apply He. now left.
    + apply IHe. intros Hin. apply He. now right.
  - cbn [app lastIndexFrom List.length]. rewrite IH. f_equal. lia.
Qed.

Lemma lastIndexOf_last_occurrence (a e : jstring) c :
  ~ In c e -> lastIndexOf (a ++ c :: e) c = Some (List.length a).
Proof.
  intros He. unfold lastIndexOf.
  now rewrite lastIndexFrom_last_occurrence.
Qed.

Lemma slashFree_not_In seg : slashFree seg -> ~ In slash seg.
Proof.
  unfold slashFree. rewrite Forall_forall. intros H Hin.
  apply H in Hin. discriminate.
Qed.

Lemma baseOf_ends cur : exists b, baseOf cur = b ++ [slash].
Proof.
  unfold baseOf. destruct (endsWith cur (str "/")) eqn:E.
  - apply endsWith_spec in E as [r ->]. now exists r.
  - now exists cur.
Qed.

Lemma endsWith_app_nonslash (a e : jstring) :
  e <> [] -> slashFree e -> endsWith (a ++ e) (str "/") = false.
Proof.
  intros He Hs. destruct (endsWith (a ++ e) (str "/")) eqn:E; [|reflexivity].
  apply endsWith_spec in E as [r E]. exfalso.
  destruct (exists_last He) as (e' & x & ->).
  rewrite app_assoc in E. apply app_inj_tail in E as [_ ->].
  apply slashFree_not_In in Hs. apply Hs, in_or_app. right. now left.
Qed.

Lemma parent_of (b e : jstring) :
  e <> [] -> slashFree e ->
  getParentDirectoryUrl (b ++ slash :: e) = Some (b ++ [slash]).
Proof.
  intros He Hs. unfold getParentDirectoryUrl.
  assert (Hne : forall x, b ++ slash :: e <> x -> eqb (b ++ slash :: e) x = false).
  { intros x. apply eqb_neq. }
  rewrite (Hne (str "/")), (Hne []).
  - cbn [orb].
    change (b ++ slash :: e) with (b ++ [slash] ++ e).
    rewrite app_assoc, endsWith_app_nonslash by assumption.
    rewrite <- app_assoc. cbn [app].
    rewrite lastIndexOf_last_occurrence by now apply slashFree_not_In.
    destruct b as [|x b']; [reflexivity|].
    cbn [List.length]. f_equal. f_equal.
    change (x :: b') with ([] ++ x :: b') at 1.
    rewrite <- (firstn_all (x :: b')) at 2.
    now rewrite firstn_app, Nat.sub_diag, firstn_O, app_nil_r.
  - destruct b; discriminate.
  - destruct b as [|x [|y b']]; cbn; try discriminate.
    destruct e; [contradiction | discriminate].
Qed.

(** *** Segments that start with a dot *)

Lemma includes_spec (s p : jstring) :
  includes s p = true <-> exists a r, s = a ++ p ++ r.
Proof.
  split.
  - induction s as [|x s IH]; cbn [includes]; intros H.
    + apply orb_true_iff in H as [H|H]; [|discriminate].
      apply startsWith_spec in H as [r ->]. now exists [], r.
    + apply orb_true_iff in H as [H|H].
      * apply startsWith_spec in H as [r ->]. now exists [], r.
      * destruct (IH H) as (a & r & ->). now exists (x :: a), r.
  - intros (a & r & ->). induction a as [|x a IH].
    + cbn [app]. assert (H : startsWith (p ++ r) p = true).
      { apply startsWith_spec. now exists r. }
      destruct (p ++ r); cbn [includes]; now rewrite H.
    + cbn [app includes]. rewrite IH. apply orb_true_r.
Qed.

Lemma joinSlash_cons x y rest :
  joinSlash (x :: y :: rest) = x ++ slash :: joinSlash (y :: rest).
Proof. reflexivity. Qed.

(** A segment after the first one stands after a separator. *)
Lemma later_segment p seg :
  In seg (tl (split p)) -> exists a r, p = a ++ slash :: seg ++ r.
Proof.
  intros Hin. rewrite <- (joinSlash_split p).
  rewrite (split_cons p). remember (hd [] (split p)) as h.
  remember (tl (split p)) as t. clear Heqh Heqt.
  apply in_split in Hin as (l1 & l2 & ->).
  assert (Hseg : exists r, joinSlash (seg :: l2) = seg ++ r).
  { destruct l2; [exists []; cbn; now rewrite app_nil_r|].
    rewrite joinSlash_cons. eauto. }
  destruct Hseg as [r Hr].
  change (h :: l1 ++ seg :: l2) with ((h :: l1) ++ seg :: l2).
  rewrite joinSlash_app by discriminate.
  rewrite Hr. eauto.
Qed.

(** The first segment is the start of the path; a separator follows
    when there are more segments. *)
Lemma first_segment p :
  match tl (split p) with
  | [] => p = hd [] (split p)
  | _ :: _ => exists r, p = hd [] (split p) ++ slash :: r
  end.
Proof.
  pose proof (joinSlash_split p) as J. rewrite (split_cons p) in J.
  remember (hd [] (split p)) as h. remember (tl (split p)) as t.
  clear Heqh Heqt. destruct t as [|x t'].
  - now symmetry.
  - rewrite joinSlash_cons in J. eauto.
Qed.

Lemma follow_without_dotdot root d segs :
  Forall plain segs -> within root d -> within root (follow d segs).
Proof.
  intros H. revert d. induction H as [|seg segs Hseg _ IH]; intros d Hw.
  - exact Hw.
  - cbn [follow]. apply IH.
    destruct (eqb seg [] || eqb seg (str ".")); [exact Hw|].
    unfold plain, isDotDot in Hseg. rewrite Hseg.
    now apply within_push.
Qed.

(** A URL path that leads out of the root has a [".."] segment. *)
Lemma escapes_dotdot cwd rootDir urlPath :
  escapes cwd rootDir urlPath -> In (str "..") (split urlPath).
Proof.
  intros Hesc.
  destruct (existsb isDotDot (split urlPath)) eqn:E.
  - apply existsb_exists in E as (seg & Hin & Hdd).
    apply eqb_spec in Hdd. now subst seg.
  - exfalso. apply Hesc. apply follow_without_dotdot; [|apply within_refl].
    apply Forall_forall. intros seg Hin. unfold plain.
    destruct (isDotDot seg) eqn:Hd; [|reflexivity].
    assert (existsb isDotDot (split urlPath) = true)
      by (apply existsb_exists; eauto).
    congruence.
Qed.

Lemma existsb_filter {A} (f g : A -> bool) l :
  (forall x, f x = true -> g x = true) ->
  existsb f (filter g l) = existsb f l.
Proof.
  intros H. induction l as [|x l IH]; [reflexivity|].
  cbn [filter existsb]. destruct (g x) eqn:G; cbn [existsb].
  - now rewrite IH.
  - rewrite IH. destruct (f x) eqn:F; [|reflexivity].
    apply H in F. congruence.
Qed.

(** *** Extensions *)

Lemma lowerChar_idempotent c : lowerChar (lowerChar c) = lowerChar c.
Proof.
  destruct c as [[] [] [] [] [] [] [] []]; reflexivity.
Qed.

Lemma lowerChar_dot c : lowerChar c = dot -> c = dot.
Proof.
  destruct c as [[] [] [] [] [] [] [] []]; cbv; congruence.
Qed.

Lemma toLowerCase_idempotent s : toLowerCase (toLowerCase s) = toLowerCase s.
Proof.
  unfold toLowerCase. rewrite map_map. apply map_ext.
  apply lowerChar_idempotent.
Qed.

Lemma toLowerCase_app a b :
  toLowerCase (a ++ b) = toLowerCase a ++ toLowerCase b.
Proof. apply map_app. Qed.

Lemma lastIndexFrom_Some s c i found j :
  lastIndexFrom s c i found = Some j ->
  (found = Some j /\ ~ In c s) \/
  (exists a e, s = a ++ c :: e /\ j = i + List.length a /\ ~ In c e).
Proof.
  revert i found. induction s as [|x s IH]; intros i found H.
  - left. split; [exact H | intros []].
  - cbn [lastIndexFrom] in H. apply IH in H as [[Hf Hn] | (a & e & -> & -> & Hn)].
    + destruct (Ascii.eqb x c) eqn:E.
      * apply Ascii.eqb_eq in E. subst x. right. exists [], s.
        injection Hf as <-. repeat split; [cbn; lia | exact Hn].
      * left. split; [exact Hf|]. intros [->|Hin]; [|contradiction].
        now rewrite Ascii.eqb_refl in E.
    + right. exists (x :: a), e. repeat split; [cbn; lia | exact Hn].
Qed.

Lemma lastIndexOf_Some s c j :
  lastIndexOf s c = Some j ->
  exists a e, s = a ++ c :: e /\ j = List.length a /\ ~ In c e.
Proof.
  intros H. apply lastIndexFrom_Some in H as [[H _] | H]; [discriminate|].
  exact H.
Qed.

Lemma getExtension_cut path ext :
  getExtension path = ext -> ext <> [] ->
  exists a e, path = a ++ dot :: e /\ a <> [] /\ ~ In dot e /\
              ext = dot :: toLowerCase e.
Proof.
  unfold getExtension. intros H Hne.
  destruct (lastIndexOf path dot) as [[|i]|] eqn:E;
    try (subst ext; contradiction).
  apply lastIndexOf_Some in E as (a & e & -> & Hl & Hn).
  exists a, e. repeat split; auto.
  - intros ->. discriminate.
  - now rewrite Hl, skipn_length_app in H.
Qed.

End PathUtilsFacts.

Module PathUtilsProperties.

Import NodePath PathUtils Lexical Segments UrlShape PathFacts NormalizeFacts
  PathUtilsFacts.

(** [normalizeUrlPath] is the list of the non-empty segments of its
    argument, each after one separator; the root when there is none. *)
Theorem normalizeUrlPath_segments (urlPath : jstring) :
  normalizeUrlPath urlPath = slash :: joinSlash (names urlPath) /\
  names (normalizeUrlPath urlPath) = names urlPath.
Proof.
  split; [apply normalizeUrlPath_names | apply names_normalizeUrlPath].
Qed.

(** [safeResolveStaticPath] throws for a URL path that leads out of the
    root directory, and for every other URL path returns the resolved
    path, which is contained in the root directory. *)
Theorem safeResolveStaticPath_guards (cwd rootDir urlPath : jstring) :
  isAbsolute cwd = true ->
  (escapes cwd rootDir urlPath ->
   safeResolveStaticPath cwd rootDir urlPath =
   Throws (str "Path traversal attack detected")) /\
  (~ escapes cwd rootDir urlPath ->
   safeResolveStaticPath cwd rootDir urlPath =
   Returns (resolveStaticPath rootDir urlPath) /\
   contained cwd rootDir (resolveStaticPath rootDir urlPath)).
Proof.
  intros Hcwd. unfold safeResolveStaticPath. split.
  - intros Hesc.
    destruct (@escapes_check cwd rootDir urlPath Hcwd Hesc) as [E _].
    now rewrite E.
  - intros Hin.
    destruct (isPathUnderRoot cwd (resolveStaticPath rootDir urlPath) rootDir)
      eqn:E.
    + split; [reflexivity|].
      now apply (@isPathUnderRoot_contained cwd _ rootDir Hcwd).
    + exfalso. apply Hin. unfold escapes. intros Hw.
      assert (C : contained cwd rootDir (resolveStaticPath rootDir urlPath)).
      { unfold contained. now rewrite place_resolveStaticPath. }
      apply (@isPathUnderRoot_contained cwd _ rootDir Hcwd) in C.
      congruence.
Qed.

(** [getUrlPathFromFilePath] gives [null] exactly for the file paths
    that are not contained in the root directory, and for a contained one
    the segments below the root, each after one separator. *)
Theorem getUrlPathFromFilePath_spec (cwd rootDir filePath : jstring) :
  isAbsolute cwd = true ->
  (forall rest,
     rev (place cwd filePath) = rev (place cwd rootDir) ++ rest ->
     getUrlPathFromFilePath cwd rootDir filePath =
     Some (slash :: joinSlash rest)) /\
  (~ contained cwd rootDir filePath ->
   getUrlPathFromFilePath cwd rootDir filePath = None).
Proof.
  intros Hcwd. split.
  - intros rest. now apply getUrlPathFromFilePath_under.
  - intros Hout. unfold getUrlPathFromFilePath.
    rewrite under_resolved by assumption.
    destruct (isPathUnderRoot cwd filePath rootDir) eqn:E; [|reflexivity].
    apply (@isPathUnderRoot_contained cwd filePath rootDir Hcwd) in E.
    contradiction.
Qed.

(** The URL path of a resolved file: for a URL path without ["."] and
    [".."] segments, [getUrlPathFromFilePath] gives back the normalized
    URL path that [resolveStaticPath] was given. *)
Theorem url_path_round_trip (cwd rootDir urlPath : jstring) :
  isAbsolute cwd = true ->
  dotless urlPath ->
  getUrlPathFromFilePath cwd rootDir (resolveStaticPath rootDir urlPath) =
  Some (normalizeUrlPath urlPath).
Proof.
  intros Hcwd Hdot. rewrite normalizeUrlPath_names.
  apply getUrlPathFromFilePath_under; [assumption|].
  rewrite place_resolveStaticPath, follow_names.
  destruct (dotless_names Hdot) as [Hk Hp].
  rewrite <- walk_follow by apply place_plain.
  rewrite walk_push_all by assumption.
  now rewrite rev_app_distr, rev_involutive.
Qed.

(** [isPathUnderRoot] orders paths: every path is under itself, and a
    path under a directory that is under the root is under the root. *)
Theorem isPathUnderRoot_preorder (cwd a b c : jstring) :
  isAbsolute cwd = true ->
  isPathUnderRoot cwd a a = true /\
  (isPathUnderRoot cwd b a = true -> isPathUnderRoot cwd c b = true ->
   isPathUnderRoot cwd c a = true) /\
  (isPathUnderRoot cwd b a = true -> isPathUnderRoot cwd a b = true ->
   resolve cwd a = resolve cwd b).
Proof.
  intros Hcwd. split; [|split].
  - apply isPathUnderRoot_contained; [assumption | apply contained_root].
  - intros H1 H2.
    apply (@isPathUnderRoot_contained cwd b a Hcwd) in H1.
    apply (@isPathUnderRoot_contained cwd c b Hcwd) in H2.
    apply (@isPathUnderRoot_contained cwd c a Hcwd).
    exact (within_trans H1 H2).
  - intros H1 H2.
    apply (@isPathUnderRoot_contained cwd b a Hcwd) in H1.
    apply (@isPathUnderRoot_contained cwd a b Hcwd) in H2.
    destruct H1 as [r1 H1], H2 as [r2 H2].
    rewrite !resolve_place by assumption. f_equal. f_equal.
    rewrite H1 in H2. rewrite <- app_assoc in H2.
    rewrite <- (app_nil_r (rev (place cwd a))) in H2 at 1.
    apply app_inv_head in H2. symmetry in H2.
    apply app_eq_nil in H2 as [-> _]. now rewrite app_nil_r in H1.
Qed.

(** The parent of the URL built for an entry of a listing is the URL of
    the listed directory, with its separator at the end. *)
Theorem parent_of_entry_url (encodeURIComponent : jstring -> jstring)
  (currentUrlPath entry : jstring) :
  encodeURIComponent entry <> [] ->
  slashFree (encodeURIComponent entry) ->
  getParentDirectoryUrl
    (createDirectoryUrl encodeURIComponent currentUrlPath entry) =
  Some (baseOf currentUrlPath) /\
  getParentDirectoryUrl
    (createFileUrl encodeURIComponent currentUrlPath entry) =
  Some (baseOf currentUrlPath).
Proof.
  intros He Hs. unfold createDirectoryUrl, createFileUrl.
  fold (baseOf currentUrlPath).
  destruct (baseOf_ends currentUrlPath) as [b ->].
  rewrite <- !app_assoc. cbn [app]. split.
  - unfold getParentDirectoryUrl.
    assert (Hne : forall x y : jstring, x <> y -> eqb x y = false).
    { intros x y. apply eqb_neq. }
    rewrite (@Hne _ (str "/")), (@Hne _ []).
    + cbn [orb].
      assert (E : endsWith (b ++ slash :: encodeURIComponent entry ++ str "/")
                    (str "/") = true).
      { apply endsWith_spec.
        exists (b ++ slash :: encodeURIComponent entry).
        now rewrite <- app_assoc. }
      rewrite E.
      replace (b ++ slash :: encodeURIComponent entry ++ str "/")
        with ((b ++ slash :: encodeURIComponent entry) ++ [slash])
        by now rewrite <- app_assoc.
      rewrite removelast_last.
      pose proof (@parent_of b (encodeURIComponent entry) He Hs) as Hp.
      unfold getParentDirectoryUrl in Hp.
      rewrite (@Hne _ (str "/")), (@Hne _ []) in Hp.
      * cbn [orb] in Hp.
        change (b ++ slash :: encodeURIComponent entry)
          with (b ++ [slash] ++ encodeURIComponent entry) in Hp.
        rewrite app_assoc, endsWith_app_nonslash in Hp by assumption.
        rewrite <- app_assoc in Hp. exact Hp.
      * destruct b; discriminate.
      * destruct b as [|x [|y b']]; cbn; try discriminate.
        destruct (encodeURIComponent entry); [contradiction | discriminate].
    + destruct b; discriminate.
    + destruct b as [|x [|y b']]; cbn; try discriminate.
      destruct (encodeURIComponent entry); [contradiction | discriminate].
  - now apply parent_of.
Qed.

(** The quick test [mightContainPathTraversal] answers yes for every URL
    path that leads out of the root directory, the bare [".."] apart:
    that one leaves every root but the top directory and is answered
    with no. *)
Theorem traversal_is_flagged (cwd rootDir urlPath : jstring) :
  (escapes cwd rootDir urlPath -> urlPath <> str ".." ->
   mightContainPathTraversal urlPath = true) /\
  mightContainPathTraversal (str "..") = false /\
  (place cwd rootDir <> [] -> escapes cwd rootDir (str "..")).
Proof.
  split; [|split].
  - intros Hesc Hne. apply escapes_dotdot in Hesc.
    unfold mightContainPathTraversal.
    rewrite (split_cons urlPath) in Hesc. destruct Hesc as [Hh | Ht].
    + pose proof (first_segment urlPath) as Hf. rewrite Hh in Hf.
      destruct (tl (split urlPath)); [congruence|].
      destruct Hf as [r ->].
      assert (H : includes (str ".." ++ slash :: r) (str "../") = true).
      { apply includes_spec. now exists [], r. }
      now rewrite H.
    + apply later_segment in Ht as (a & r & ->).
      assert (H : includes (a ++ slash :: str ".." ++ r) (str "/.") = true).
      { apply includes_spec. now exists a, (dot :: r). }
      rewrite H. now rewrite !orb_true_r.
  - reflexivity.
  - intros Hroot [rest H]. cbn in H.
    apply (f_equal (@List.length _)) in H.
    rewrite length_app, !length_rev in H.
    destruct (place cwd rootDir); [congruence | cbn in H; lia].
Qed.

(** [isHiddenPath] looks at the non-empty segments only, so it gives the
    same answer before and after [normalizeUrlPath]; and a hidden URL
    path that starts with a separator is one that
    [mightContainPathTraversal] answers yes for. *)
Theorem hidden_paths (urlPath : jstring) :
  isHiddenPath (normalizeUrlPath urlPath) = isHiddenPath urlPath /\
  (isAbsolute urlPath = true -> isHiddenPath urlPath = true ->
   mightContainPathTraversal urlPath = true).
Proof.
  split.
  - unfold isHiddenPath.
    rewrite <- (existsb_filter _ named (split (normalizeUrlPath urlPath))),
            <- (existsb_filter _ named (split urlPath)).
    + fold (names (normalizeUrlPath urlPath)). fold (names urlPath).
      now rewrite names_normalizeUrlPath.
    + intros [|c seg]; [discriminate | reflexivity].
    + intros [|c seg]; [discriminate | reflexivity].
  - intros Habs Hhid. unfold isHiddenPath in Hhid.
    apply existsb_exists in Hhid as (seg & Hin & Hseg).
    destruct seg as [|c seg']; [discriminate|].
    assert (Hc : c = dot).
    { cbn in Hseg. destruct (Ascii.eqb c dot) eqn:E; [|discriminate].
      now apply Ascii.eqb_eq in E. }
    subst c.
    destruct urlPath as [|x u]; [discriminate|].
    cbn [isAbsolute] in Habs. rewrite split_cons_slash in Hin by assumption.
    destruct Hin as [Hin | Hin]; [discriminate|].
    assert (Ht : In (dot :: seg') (tl (split (x :: u)))).
    { now rewrite split_cons_slash by assumption. }
    apply later_segment in Ht as (a & r & ->).
    unfold mightContainPathTraversal.
    assert (H : includes (a ++ slash :: (dot :: seg') ++ r) (str "/.") = true).
    { apply includes_spec. now exists a, (seg' ++ r). }
    rewrite H. now rewrite !orb_true_r.
Qed.

(** The extension [getExtension] gives is empty or is a dot followed by
    characters none of which is a dot; a path has the extension
    [getExtension] gives for it, and [hasExtension] takes an extension
    with or without its dot. *)
Theorem extension_round_trip (path extension : jstring) :
  isAscii path -> isAscii extension ->
  (getExtension path = [] \/
   exists e, getExtension path = dot :: e /\ ~ In dot e) /\
  (getExtension path <> [] ->
   hasExtension path (getExtension path) = true) /\
  (startsWith extension (str ".") = false ->
   hasExtension path (dot :: extension) = hasExtension path extension).
Proof.
  intros _ _. split; [|split].
  - destruct (getExtension path) as [|c ext] eqn:E; [now left|]. right.
    destruct (@getExtension_cut path (c :: ext) E ltac:(discriminate))
      as (a & e & _ & _ & Hn & ->).
    exists (toLowerCase e). split; [reflexivity|].
    unfold toLowerCase. rewrite in_map_iff. intros (x & Hx & Hin).
    apply lowerChar_dot in Hx. now subst x.
  - intros Hne.
    destruct (@getExtension_cut path _ eq_refl Hne)
      as (a & e & Hp & _ & _ & He).
    rewrite He. unfold hasExtension.
    replace (startsWith (dot :: toLowerCase e) (str ".")) with true
      by reflexivity.
    apply endsWith_spec. exists (toLowerCase a).
    rewrite Hp at 1. rewrite toLowerCase_app.
    change (toLowerCase (dot :: toLowerCase e))
      with (dot :: toLowerCase (toLowerCase e)).
    now rewrite toLowerCase_idempotent.
  - intros Hs. unfold hasExtension. rewrite Hs.
    replace (startsWith (dot :: extension) (str ".")) with true
      by reflexivity.
    reflexivity.
Qed.

End PathUtilsProperties.

(** ** The table of content types *)

Module MimeFacts.

Import Mime.

(** A type registered for an extension is the type of that extension,
    however it is capitalized, from then on; the other extensions keep
    their types, and no extension has the empty type.  Extensions are
    given with their leading dot and in ASCII characters, on which
    [toLowerCase] is the one of the runtime. *)
Theorem registered_type_is_found (mimeTypes : Table)
  (ext mimeType other : jstring) :
  Segments.isAscii ext -> Segments.isAscii other ->
  startsWith ext (str ".") = true ->
  startsWith other (str ".") = true ->
  mimeType <> [] ->
  let registered := registerMimeType ext mimeType mimeTypes in
  (toLowerCase other = toLowerCase ext ->
   getMimeType registered other = mimeType) /\
  (toLowerCase other <> toLowerCase ext ->
   getMimeType registered other = getMimeType mimeTypes other) /\
  getMimeType registered other <> [] /\
  (forall P : Handler.Platform,
     Handler.getMimeType P other = getMimeType (Handler.mimeTypes P) other).
Proof.
  intros _ _ _ _ Hm registered.
  unfold registered, registerMimeType, getMimeType.
  repeat split.
  - intros ->. rewrite JsMapFacts.map_get_set_same.
    destruct mimeType; [contradiction | reflexivity].
  - intros Hne. now rewrite JsMapFacts.map_get_set_other.
  - destruct (JsMap.get _ _) as [[|c r]|]; discriminate.
Qed.

End MimeFacts.

(** ** The security headers *)

Module SecurityFacts.

Import Runtime Security HttpFacts.

Lemma get_fold_other entries h name :
  (forall e, In e entries -> toLowerCase (fst e) <> toLowerCase name) ->
  Http.get name (fold_left setEntry entries h) = Http.get name h.
Proof.
  revert h. induction entries as [|e rest IH]; intros h H; [reflexivity|].
  cbn [fold_left]. rewrite IH by (intros e' He'; apply H; now right).
  unfold setEntry. destruct (Cors.truthy (snd e)); [|reflexivity].
  apply get_set_other. intros E. apply (H e); [now left | congruence].
Qed.

Lemma get_fold_set entries h name value :
  (forall e, In e entries -> Cors.truthy (snd e) = true) ->
  NoDup (map (fun e => toLowerCase (fst e)) entries) ->
  In (name, value) entries ->
  Http.get name (fold_left setEntry entries h) = Some value.
Proof.
  revert h. induction entries as [|e rest IH]; intros h Ht Hn Hin; [easy|].
  cbn [fold_left]. inversion Hn as [|? ? Hfresh Hrest]; subst.
  destruct Hin as [-> | Hin].
  - rewrite get_fold_other.
    + unfold setEntry. rewrite (Ht (name, value)) by now left.
      apply get_set_same.
    + intros e' He' E. apply Hfresh. cbn [fst]. rewrite <- E.
      now apply (in_map (fun e => toLowerCase (fst e))).
  - apply IH; auto. intros e' He'. apply Ht. now right.
Qed.

Lemma hstsValueOf_truthy h : Cors.truthy (hstsValueOf h) = true.
Proof.
  unfold hstsValueOf. destruct (includeSubDomains h), (preload h); reflexivity.
Qed.

Lemma headersOf_truthy options e :
  In e (headersOf options) -> Cors.truthy (snd e) = true.
Proof.
  unfold headersOf. rewrite !in_app_iff.
  destruct (xssProtection options), (noSniff options),
    (frameOptions options) as [[]|], (hsts options) as [h|];
    cbn [In]; intros H; repeat destruct H as [H|H]; try contradiction;
    subst e; try reflexivity; apply hstsValueOf_truthy.
Qed.

Lemma headersOf_distinct options :
  NoDup (map (fun e => toLowerCase (fst e)) (headersOf options)).
Proof.
  unfold headersOf.
  destruct (xssProtection options), (noSniff options),
    (frameOptions options) as [[]|], (hsts options) as [h|];
    cbn [app map fst];
    repeat (constructor; [cbn [In]; intros H;
                          repeat destruct H as [H|H];
                          try discriminate; try contradiction|]);
    constructor.
Qed.

(** The security headers are set on the responses to requests whose URL
    starts with [https:], and on no others: there the response that comes
    back is returned as it is.  On an [https:] request every header the
    options ask for has its value, every other header, the status and
    the body are those of the response that came back; an error of the
    following stages is passed on.  Without options the headers are the
    four listed. *)
Theorem security_headers_on_https_only (options : SecurityOptions)
  (req : Request) (next : M Response) (s : State) :
  (startsWith (url req) (str "https:") = false ->
   security options req next s = next s) /\
  (startsWith (url req) (str "https:") = true ->
   forall r s', next s = Ok r s' ->
   exists r',
     security options req next s = Ok r' s' /\
     Http.status r' = Http.status r /\ Http.body r' = Http.body r /\
     (forall name value,
        In (name, value) (headersOf options) ->
        Http.get name (Http.headers r') = Some value) /\
     (forall name,
        (forall e, In e (headersOf options) ->
                   toLowerCase (fst e) <> toLowerCase name) ->
        Http.get name (Http.headers r') = Http.get name (Http.headers r))) /\
  (forall e s', next s = Throw e s' ->
                security options req next s = Throw e s') /\
  headersOf defaults =
  [(str "X-XSS-Protection", str "1; mode=block");
   (str "X-Content-Type-Options", str "nosniff");
   (str "X-Frame-Options", str "DENY");
   (str "Strict-Transport-Security",
    str "max-age=15552000; includeSubDomains")].
Proof.
  unfold security, bind. repeat split.
  - intros ->. destruct (next s); reflexivity.
  - intros -> r s' ->. exists (applyHeaders (headersOf options) r).
    repeat split.
    + intros name value Hin. cbn [applyHeaders Http.headers].
      apply get_fold_set; auto.
      * apply headersOf_truthy.
      * apply headersOf_distinct.
    + intros name Hother. cbn [applyHeaders Http.headers].
      now apply get_fold_other.
  - intros e s' ->. reflexivity.
Qed.

End SecurityFacts.

(** ** The cursor of the middleware chain *)

Module MiddlewareChainFacts.

Import Runtime MiddlewareChain ChainSpec.

Lemma entered_app called rest o c :
  entered (mkRun o c (events called ++ events rest)) =
  entered called ++ entered rest.
Proof. unfold entered. cbn [events]. apply flat_map_app. Qed.

Lemma finalCalls_app called rest o c :
  finalCalls (mkRun o c (events called ++ events rest)) =
  finalCalls called + finalCalls rest.
Proof.
  unfold finalCalls. cbn [events]. now rewrite filter_app, length_app.
Qed.

Lemma steps_advance (nx : nat -> State -> option Run) (hi lo : nat) :
  (forall c s, lo <= c -> exists r, nx c s = Some r /\ advances hi c r) ->
  forall todo c s,
    lo <= c -> exists r, steps nx todo c s = Some r /\ advances hi c r.
Proof.
  intros Hnx. induction todo as [response | X step k IH | k IH];
    intros c s Hc; cbn [steps].
  - eexists. split; [reflexivity|]. unfold advances. cbn.
    rewrite Nat.sub_diag. auto.
  - destruct (step s) as [x s' | e s'].
    + now apply IH.
    + eexists. split; [reflexivity|]. unfold advances. cbn.
      rewrite Nat.sub_diag. auto.
  - destruct (Hnx c s Hc) as (called & -> & H1 & H2 & H3).
    destruct (outcome called) as [response s' | e s'].
    + destruct (IH response (cursor called) s' ltac:(lia))
        as (rest & -> & R1 & R2 & R3).
      eexists. split; [reflexivity|]. unfold advances.
      rewrite entered_app, H3, R3. cbn [cursor].
      repeat split; [lia | intros; apply R2, H2; lia |].
      replace (cursor rest - c)
        with ((cursor called - c) + (cursor rest - cursor called)) by lia.
      rewrite seq_app. do 2 f_equal. lia.
    + eexists. split; [reflexivity|]. now repeat split.
Qed.

Section Execute.

Variable middlewares : list Stage.
Variable req : Request.
Variable finalHandler : M Response.

Let size := List.length middlewares.

Lemma next_advances depth :
  forall c s,
    size - c <= depth ->
    exists r, next middlewares req finalHandler depth c s = Some r /\
              advances size c r.
Proof.
  induction depth as [|depth IH]; intros c s Hd.
  - cbn [next]. fold size.
    replace (size <=? c) with true by (symmetry; apply Nat.leb_le; lia).
    eexists. split; [reflexivity|]. unfold advances. cbn.
    rewrite Nat.sub_diag. auto.
  - cbn [next]. fold size. destruct (size <=? c) eqn:E.
    + eexists. split; [reflexivity|]. unfold advances. cbn.
      rewrite Nat.sub_diag. auto.
    + apply Nat.leb_gt in E.
      destruct (nth_error middlewares c) as [middleware|] eqn:En.
      2:{ apply nth_error_None in En. fold size in En. lia. }
      destruct (@steps_advance
                  (next middlewares req finalHandler depth) size (S c)
                  (fun c' s' Hc' => IH c' s' ltac:(lia))
                  (middleware req) (S c) s (le_n _))
        as (run & -> & R1 & R2 & R3).
      eexists. split; [reflexivity|]. unfold advances. cbn [cursor].
      repeat split; [lia | intros; apply R2; lia |].
      unfold entered in *. cbn [events flat_map app]. rewrite R3.
      replace (cursor run - c) with (S (cursor run - S c)) by lia.
      reflexivity.
Qed.

(** Steps that do not call [next] are the middleware itself. *)
Lemma steps_without_next nx todo anyNext c s :
  callsNext 0 todo ->
  steps nx todo c s = Some (mkRun (runWith todo anyNext s) c []).
Proof.
  revert s. induction todo as [response | X step k IH | k IH];
    intros s H; cbn [steps runWith callsNext] in *.
  - reflexivity.
  - unfold bind. destruct (step s) as [x s' | e s']; [|reflexivity].
    now apply IH.
  - contradiction.
Qed.

Lemma steps_once (stop : Prop) nx todo c limit onion :
  callsNext 1 todo ->
  (forall s, exists r, nx c s = Some r /\ wrapped stop limit c onion s r) ->
  forall s,
    exists r,
      steps nx todo c s = Some r /\
      outcome r = runWith todo onion s /\ finalCalls r <= 1 /\
      (stop -> c <= limit -> cursor r <= S limit /\ finalCalls r = 0).
Proof.
  intros Hone Hnx.
  induction todo as [response | X step k IH | k IH]; intros s;
    cbn [steps runWith callsNext] in *.
  - eexists. split; [reflexivity|]. cbn. repeat split; lia.
  - unfold bind. destruct (step s) as [x s' | e s'].
    + now apply IH.
    + eexists. split; [reflexivity|]. cbn. repeat split; lia.
  - destruct (Hnx s) as (called & -> & O1 & F1 & L1). unfold bind.
    rewrite <- O1. destruct (outcome called) as [response s' | e s'] eqn:Eo.
    + rewrite (@steps_without_next nx (k response) onion (cursor called) s')
        by apply Hone.
      eexists. split; [reflexivity|]. cbn [outcome cursor].
      split; [reflexivity|].
      unfold finalCalls in *. cbn [events]. rewrite app_nil_r.
      split; [exact F1 | exact L1].
    + eexists. split; [reflexivity|]. split; [exact Eo|].
      split; [exact F1 | exact L1].
Qed.

Lemma skipn_nth {A} (l : list A) c x :
  nth_error l c = Some x -> skipn c l = x :: skipn (S c) l.
Proof.
  revert c. induction l as [|y l IH]; intros [|c] H; try discriminate.
  - now injection H as ->.
  - cbn [skipn]. now apply IH.
Qed.

Lemma next_wraps (limit : nat) :
  Forall (fun stage => callsNext 1 (stage req)) middlewares ->
  let stop :=
    exists stage,
      nth_error middlewares limit = Some stage /\ callsNext 0 (stage req) in
  forall depth c s,
    size - c <= depth ->
    exists r, next middlewares req finalHandler depth c s = Some r /\
              wrapped stop limit c
                (onionFrom middlewares req finalHandler c) s r.
Proof.
  intros Hall stop.
  assert (Hfinal : forall depth c s,
            size <= c ->
            exists r, next middlewares req finalHandler depth c s = Some r /\
                      wrapped stop limit c
                        (onionFrom middlewares req finalHandler c) s r).
  { intros depth c s Hc.
    assert (E : next middlewares req finalHandler depth c s =
                Some (mkRun (finalHandler s) c [FinalHandler])).
    { destruct depth; cbn [next]; fold size;
        now replace (size <=? c) with true
          by (symmetry; apply Nat.leb_le; lia). }
    rewrite E. eexists. split; [reflexivity|].
    unfold wrapped, onionFrom. cbn [outcome cursor].
    rewrite skipn_all2 by (fold size; lia). split; [|split].
    - reflexivity.
    - cbn. lia.
    - intros (stage & Hn & _) Hle.
      assert (limit < size) by (apply nth_error_Some; congruence). lia. }
  induction depth as [|depth IH]; intros c s Hd.
  - apply Hfinal. lia.
  - destruct (Nat.le_gt_cases size c) as [Hc | Hc]; [now apply Hfinal|].
    cbn [next]. fold size.
    replace (size <=? c) with false by (symmetry; apply Nat.leb_gt; lia).
    destruct (nth_error middlewares c) as [middleware|] eqn:En.
    2:{ apply nth_error_None in En. fold size in En. lia. }
    assert (Hone : callsNext 1 (middleware req)).
    { rewrite Forall_forall in Hall. eapply Hall, nth_error_In, En. }
    destruct (@steps_once stop
                (next middlewares req finalHandler depth)
                (middleware req) (S c) limit
                (onionFrom middlewares req finalHandler (S c)) Hone
                (fun s' => IH (S c) s' ltac:(lia)) s)
      as (run & Erun & O & F & L).
    rewrite Erun. eexists. split; [reflexivity|].
    unfold wrapped. cbn [outcome cursor].
    assert (Fc : forall o k, finalCalls (mkRun o k (Entered c :: events run)) =
                             finalCalls run) by reflexivity.
    rewrite Fc. split; [|split].
    + rewrite O. unfold onionFrom.
      now rewrite (@skipn_nth _ middlewares c middleware En).
    + exact F.
    + intros Hstop Hle. destruct (Nat.eq_dec c limit) as [-> | Hne].
      * destruct Hstop as (stage & Hn & Hnone).
        rewrite En in Hn. injection Hn as <-.
        rewrite (@steps_without_next _ (middleware req)
                   (onionFrom middlewares req finalHandler (S limit))
                   (S limit) s Hnone) in Erun.
        injection Erun as <-. cbn. split; [lia | reflexivity].
      * apply L; [exact Hstop | lia].
Qed.

End Execute.

(** [middleware.forEach(m => chain.use(m))] builds the chain in the order
    of the list. *)
Lemma uses_in_order (given : list Stage) :
  fold_left (fun chain middleware => use middleware chain) given [] = given.
Proof.
  assert (H : forall chain,
            fold_left (fun chain middleware => use middleware chain)
              given chain = chain ++ given).
  { induction given as [|m rest IH]; intros chain; cbn [fold_left].
    - now rewrite app_nil_r.
    - rewrite IH. unfold use. now rewrite <- app_assoc. }
  apply H.
Qed.

(** Whatever the middlewares do with [next], [execute] comes to an end
    having entered the middlewares up to its cursor, each one once and
    in the order they were added; the cursor does not pass the end of
    the chain. *)
Theorem each_middleware_entered_once (middlewares : list Stage)
  (req : Request) (finalHandler : M Response) (s : State) :
  exists run,
    execute middlewares req finalHandler s = Some run /\
    cursor run <= List.length middlewares /\
    entered run = seq 0 (cursor run) /\
    NoDup (entered run).
Proof.
  destruct (@next_advances middlewares req finalHandler
              (List.length middlewares) 0 s ltac:(lia))
    as (run & E & _ & Hhi & He).
  exists run. rewrite Nat.sub_0_r in He.
  repeat split; [exact E | apply Hhi; lia | exact He |].
  rewrite He. apply seq_NoDup.
Qed.

(** When every middleware calls [next] at most once, the chain is the
    middlewares wrapped around one another, the final handler
    innermost, and the final handler is called at most once; a
    middleware that answers without calling [next] keeps the
    middlewares after it and the final handler from being entered. *)
Theorem chain_wraps_single_calls (middlewares : list Stage)
  (req : Request) (finalHandler : M Response) (s : State) :
  Forall (fun stage => callsNext 1 (stage req)) middlewares ->
  exists run,
    execute middlewares req finalHandler s = Some run /\
    outcome run =
    Chain.execute (map asMiddleware middlewares) req finalHandler s /\
    finalCalls run <= 1 /\
    (forall limit stage,
       nth_error middlewares limit = Some stage ->
       callsNext 0 (stage req) ->
       cursor run <= S limit /\ finalCalls run = 0).
Proof.
  intros Hall.
  destruct (@next_wraps middlewares req finalHandler 0 Hall
              (List.length middlewares) 0 s ltac:(lia))
    as (run & E & O & F & _).
  exists run. repeat split; try assumption.
  - destruct (@next_wraps middlewares req finalHandler limit Hall
                (List.length middlewares) 0 s ltac:(lia))
      as (run' & E' & _ & _ & L).
    unfold execute in *. rewrite E in E'. injection E' as <-.
    apply L; [eauto | lia].
  - destruct (@next_wraps middlewares req finalHandler limit Hall
                (List.length middlewares) 0 s ltac:(lia))
      as (run' & E' & _ & _ & L).
    unfold execute in *. rewrite E in E'. injection E' as <-.
    apply L; [eauto | lia].
Qed.

(** A middleware that awaits [next()] a second time does not get the
    middleware after it once more: the cursor has moved, and the second
    call enters the middleware after that one. *)
Theorem second_call_enters_the_following (a b : Stage) (req : Request)
  (finalHandler : M Response) (s s1 : State) (first : Response) :
  callsNext 0 (a req) -> callsNext 0 (b req) ->
  runWith (a req) finalHandler s = Ok first s1 ->
  let twice : Stage :=
    fun _ => CallNext (fun _ => CallNext (fun second => Return second)) in
  exists run,
    execute [twice; a; b] req finalHandler s = Some run /\
    outcome run = runWith (b req) finalHandler s1 /\
    events run = [Entered 0; Entered 1; Entered 2].
Proof.
  intros Ha Hb Hfirst twice. unfold execute.
  cbn [List.length next Nat.leb nth_error twice steps].
  rewrite (@steps_without_next _ (a req) finalHandler 2 s Ha), Hfirst.
  cbn [outcome cursor events nth_error Nat.leb].
  rewrite (@steps_without_next _ (b req) finalHandler 3 s1 Hb).
  cbn [outcome cursor events].
  destruct (runWith (b req) finalHandler s1); eexists; split;
    try reflexivity; split; reflexivity.
Qed.

End MiddlewareChainFacts.

(** ** Stages in one chain *)

Module PipelineFacts.

Import Runtime Cache Compression Server Bodies CacheSpec StageSpec
  RuntimeFacts CacheFacts.

(** The compression stage reads the body of a response of a listed
    type, whatever the request accepts. *)
Lemma compression_reads zlib options req next s r0 s1 b :
  next s = Ok r0 s1 -> holds s1 r0 b ->
  existsb
    (fun type =>
       includes (orElse (Http.get (str "Content-Type") (Http.headers r0)) [])
         type)
    (types options) = true ->
  exists s2,
    arrayBuffer r0 s1 = Ok b s2 /\
    memoryCache s2 = memoryCache s1 /\ handled s2 = handled s1 /\
    compression zlib options req next s =
    let acceptEncoding :=
      orElse (Http.get (str "Accept-Encoding") (requestHeaders req)) [] in
    if includes acceptEncoding (str "br") then
      encoded r0 (str "br") (brotliCompressSync zlib b (level options)) s2
    else if includes acceptEncoding (str "gzip") then
      encoded r0 (str "gzip") (gzipSync zlib b (level options)) s2
    else Ok r0 s2.
Proof.
  intros En Hb Hc.
  destruct (@arrayBuffer_spec r0 s1 b Hb) as (s2 & R & M1 & M2 & _).
  exists s2. repeat split; auto.
  unfold compression. unfold bind at 1. rewrite En, Hc. cbn [negb].
  unfold bind at 1. rewrite R. cbv zeta.
  destruct (includes _ (str "br")); [reflexivity|].
  destruct (includes _ (str "gzip")); reflexivity.
Qed.

Lemma serve_two C first second terminal req s :
  serve C [first; second] terminal req s =
  match first req (second req (respond terminal req)) s with
  | Ok response s' => Ok response s'
  | Throw _ s' =>
      newResponse (Some (encodeText C (str "Internal Server Error"))) 500 []
        (Http.ofList [(str "Content-Type", str "text/plain")]) s'
  end.
Proof. reflexivity. Qed.

(** The cache keeps one copy for a URL, whatever the request accepted:
    after a GET request that accepts [br] has stored the Brotli-encoded
    page, a GET request for the same URL that accepts no encoding is
    answered from the cache with that copy, [Content-Encoding: br] and
    the encoded bytes, while the entry has not expired. *)
Theorem cached_copy_ignores_accept_encoding (C : Content) (zlib : Zlib)
  (cacheOptions : CacheOptions) (options : CompressionOptions)
  (now later : Z) (req req' : Request) (terminal : Request -> Reply)
  (s : State) :
  method req = str "GET" -> method req' = str "GET" ->
  url req' = url req ->
  (0 < Cache.maxAge cacheOptions)%Z -> (1 <= maxSize cacheOptions)%Z ->
  memoryCache s = [] ->
  includes (orElse (Http.get (str "Accept-Encoding") (requestHeaders req)) [])
    (str "br") = true ->
  Http.get (str "Accept-Encoding") (requestHeaders req') = None ->
  compressible options (terminal req) = true ->
  replyOk (terminal req) = true ->
  (later < now + Cache.maxAge cacheOptions * 1000)%Z ->
  exists r s1 r' s2,
    serve C [cache cacheOptions now; compression zlib options] terminal
      req s = Ok r s1 /\
    serve C [cache cacheOptions later; compression zlib options] terminal
      req' s1 = Ok r' s2 /\
    handled s2 = handled s1 /\
    Http.get (str "Content-Encoding") (Http.headers r') = Some (str "br") /\
    holds s2 r'
      (brotliCompressSync zlib (bytesOf (terminal req)) (level options)).
Proof.
  intros Hm Hm' Hurl Ha Hsize Hempty Hbr Hacc Hc Hok Hlater.
  destruct (respond_spec terminal req s) as (r0 & s0 & E & A & B & X & M1 & H1).
  assert (Hct : existsb
            (fun type =>
               includes
                 (orElse (Http.get (str "Content-Type") (Http.headers r0)) [])
                 type) (types options) = true).
  { destruct A as (_ & _ & ->). exact Hc. }
  destruct (@compression_reads zlib options req (respond terminal req)
              s r0 s0 _ E B Hct) as (sr & R & M2 & H2 & Erun).
  cbv zeta in Erun. rewrite Hbr in Erun. unfold encoded in Erun.
  destruct (newResponse_spec
              (Some (brotliCompressSync zlib (bytesOf (terminal req))
                       (level options)))
              (Http.status r0) (Http.statusText r0)
              (Http.delete (str "Content-Length")
                 (Http.set (str "Content-Encoding") (str "br")
                    (Http.headers r0))) sr)
    as (r & sn & En & N1 & N2 & N3 & N4 & _ & _ & _ & N8 & N9).
  rewrite En in Erun.
  destruct (@clone_spec r sn _ N4) as (copy & sc & Ec & C1 & C2 & _ & _ & C5 & C6).
  assert (Hl : lookupFresh (url req) now (memoryCache s) = None)
    by now rewrite Hempty.
  assert (Hrok : Http.ok r = true).
  { unfold Http.ok. rewrite N1. destruct A as (-> & _). exact Hok. }
  assert (Mc : memoryCache sc = []) by congruence.
  set (entry := mkCacheEntry copy (now + Cache.maxAge cacheOptions * 1000)%Z).
  set (s1 := withCache sc [(url req, entry)]).
  assert (E1 : serve C [cache cacheOptions now; compression zlib options]
                 terminal req s = Ok r s1).
  { rewrite serve_two, (@cache_miss cacheOptions now req _ s Hm Ha Hl), Erun.
    rewrite Hrok, Ec, Mc. cbn [JsMap.set].
    rewrite evict_within by (cbn; lia). reflexivity. }
  assert (Hg : lookupFresh (url req') later (memoryCache s1) = Some entry).
  { rewrite Hurl. unfold s1, lookupFresh. cbn [withCache memoryCache].
    rewrite JsMapFacts.get_cons_same. cbn [expires entry].
    now rewrite (proj2 (Z.gtb_lt _ _) Hlater). }
  assert (Hh : holds s1 (data entry)
                 (brotliCompressSync zlib (bytesOf (terminal req))
                    (level options))) by exact C2.
  destruct (@hit_spec cacheOptions later req'
              (compression zlib options req' (respond terminal req'))
              s1 entry _ Hm' Ha Hg Hh)
    as (r' & s2 & E2 & G1 & G2 & _ & _ & G5 & _).
  exists r, s1, r', s2. split; [exact E1|]. split.
  { rewrite serve_two, E2. reflexivity. }
  split; [exact G5|]. split; [|exact G2].
  destruct G1 as (_ & _ & <-). cbn [data entry].
  destruct C1 as (_ & _ & <-). rewrite N3.
  rewrite HttpFacts.get_delete_other by (vm_compute; discriminate).
  apply HttpFacts.get_set_same.
Qed.

End PipelineFacts.

(** ** What the cache keeps *)

Module CacheInvariants.

Import Runtime Cache Bodies CacheSpec RuntimeFacts CacheFacts.

Section Maps.

Variable V : Type.

Lemma keys_delete k (m : JsMap.t V) :
  JsMap.keys (JsMap.delete k m) =
  filter (fun x => negb (eqb x k)) (JsMap.keys m).
Proof.
  unfold JsMap.keys, JsMap.delete, JsMap.hasKey.
  induction m as [|e m IH]; [reflexivity|]. cbn [filter map].
  destruct (eqb (fst e) k); cbn [negb map]; now rewrite IH.
Qed.

Lemma NoDup_delete k (m : JsMap.t V) :
  NoDup (JsMap.keys m) -> NoDup (JsMap.keys (JsMap.delete k m)).
Proof. intros H. rewrite keys_delete. now apply NoDup_filter. Qed.

Lemma notin_delete k (m : JsMap.t V) : ~ In k (JsMap.keys (JsMap.delete k m)).
Proof.
  rewrite keys_delete. intros H. apply filter_In in H as [_ H].
  now rewrite eqb_refl in H.
Qed.

Lemma In_delete k (m : JsMap.t V) x :
  In x (JsMap.delete k m) -> In x m.
Proof. unfold JsMap.delete. intros H. now apply filter_In in H. Qed.

Lemma In_set k (v : V) (m : JsMap.t V) x :
  In x (JsMap.set k v m) -> x = (k, v) \/ In x m.
Proof.
  induction m as [|e m IH]; cbn [JsMap.set].
  - intros [<- | []]. now left.
  - destruct (JsMap.hasKey k e).
    + intros [<- | H]; [now left | right; now right].
    + intros [<- | H]; [right; now left|].
      destruct (IH H); [now left | right; now right].
Qed.

Lemma get_Some_In k (m : JsMap.t V) v :
  JsMap.get k m = Some v -> In k (JsMap.keys m).
Proof.
  unfold JsMap.get, JsMap.keys, JsMap.hasKey.
  induction m as [|e m IH]; cbn [find map]; [discriminate|].
  destruct (eqb (fst e) k) eqn:E.
  - intros _. left. now apply eqb_spec.
  - intros H. right. now apply IH.
Qed.

Lemma get_Some_entry k (m : JsMap.t V) v :
  JsMap.get k m = Some v -> In (k, v) m.
Proof.
  unfold JsMap.get, JsMap.hasKey.
  induction m as [|e m IH]; cbn [find]; [discriminate|].
  destruct (eqb (fst e) k) eqn:E.
  - cbn. intros [= <-]. left. apply eqb_spec in E. destruct e. cbn in *.
    now subst.
  - intros H. right. now apply IH.
Qed.

Lemma get_None_notin k (m : JsMap.t V) :
  JsMap.get k m = None -> ~ In k (JsMap.keys m).
Proof.
  unfold JsMap.get, JsMap.keys, JsMap.hasKey.
  induction m as [|e m IH]; cbn [find map]; [intros _ []|].
  destruct (eqb (fst e) k) eqn:E; [discriminate|].
  intros H [Hk | Hin]; [|now apply IH].
  subst k. now rewrite eqb_refl in E.
Qed.

Lemma keys_set_present k (v : V) (m : JsMap.t V) :
  In k (JsMap.keys m) ->
  JsMap.keys (JsMap.set k v m) = JsMap.keys m.
Proof.
  unfold JsMap.keys, JsMap.hasKey.
  induction m as [|e m IH]; cbn [map JsMap.set]; [intros []|].
  unfold JsMap.hasKey. destruct (eqb (fst e) k) eqn:E.
  - intros _. cbn [map fst]. apply eqb_spec in E. now rewrite E.
  - intros [Hk | Hin]; [subst k; now rewrite eqb_refl in E|].
    cbn [map]. now rewrite IH.
Qed.

Lemma length_delete_present k (m : JsMap.t V) :
  NoDup (JsMap.keys m) -> In k (JsMap.keys m) ->
  S (List.length (JsMap.delete k m)) = List.length m.
Proof.
  unfold JsMap.keys, JsMap.delete, JsMap.hasKey.
  induction m as [|e m IH]; cbn [map filter List.length]; [intros _ []|].
  intros Hn Hin. inversion Hn as [|? ? Hfresh Hrest]; subst.
  destruct (eqb (fst e) k) eqn:E; cbn [negb List.length].
  - apply eqb_spec in E. f_equal. clear IH Hin Hn.
    induction m as [|e' m IH']; [reflexivity|].
    cbn [filter map] in *. destruct (eqb (fst e') k) eqn:E'.
    + apply eqb_spec in E'. exfalso. apply Hfresh. left. congruence.
    + cbn [negb List.length]. f_equal. apply IH'.
      * intros H. apply Hfresh. now right.
      * now inversion Hrest.
  - f_equal. apply IH; [assumption|].
    destruct Hin as [Hk | Hin]; [|assumption].
    subst k. now rewrite eqb_refl in E.
Qed.

Lemma keys_app (a b : JsMap.t V) :
  JsMap.keys (a ++ b) = JsMap.keys a ++ JsMap.keys b.
Proof. apply map_app. Qed.

Lemma NoDup_snoc {A} (l : list A) x : NoDup l -> ~ In x l -> NoDup (l ++ [x]).
Proof.
  intros Hl Hx. apply NoDup_app; [assumption | repeat constructor; easy|].
  intros y Hy [<- | []]. contradiction.
Qed.

(** Setting a key keeps the keys distinct and adds at most one entry. *)
Lemma set_bounds k (v : V) (m : JsMap.t V) :
  NoDup (JsMap.keys m) ->
  NoDup (JsMap.keys (JsMap.set k v m)) /\
  (JsMap.size (JsMap.set k v m) <= JsMap.size m + 1)%Z /\
  JsMap.set k v m <> [].
Proof.
  intros Hn. destruct (JsMap.get k m) as [old|] eqn:Eg.
  - apply get_Some_In in Eg.
    assert (Hk := @keys_set_present k v m Eg).
    split; [now rewrite Hk|]. split.
    + unfold JsMap.size.
      rewrite <- (length_map (@fst _ _) (JsMap.set k v m)).
      fold (JsMap.keys (JsMap.set k v m)). rewrite Hk.
      unfold JsMap.keys. rewrite length_map. lia.
    + destruct m; [destruct Eg|]. cbn. destruct (JsMap.hasKey k p); discriminate.
  - rewrite (@JsMapFacts.set_absent _ k v m Eg). split; [|split].
    + rewrite keys_app. apply NoDup_snoc; [assumption|].
      now apply get_None_notin.
    + unfold JsMap.size. rewrite length_app. cbn. lia.
    + destruct m; discriminate.
Qed.

End Maps.

(** The step after an insertion keeps the keys distinct and takes one
    entry away when there are more than [maxSize]. *)
Lemma evict_bounds maxSize (m : JsMap.t CacheEntry) :
  NoDup (JsMap.keys m) -> m <> [] ->
  NoDup (JsMap.keys (evict maxSize m)) /\
  (JsMap.size (evict maxSize m) <= Z.max (JsMap.size m - 1) maxSize)%Z /\
  (forall x, In x (evict maxSize m) -> In x m).
Proof.
  intros Hn Hne. unfold evict.
  destruct (JsMap.size m >? maxSize)%Z eqn:E.
  - destruct m as [|[k v] m']; [contradiction|]. cbn [JsMap.firstKey fst].
    repeat split.
    + now apply NoDup_delete.
    + pose proof (@length_delete_present _ k ((k, v) :: m') Hn
                    ltac:(now left)) as Hl.
      unfold JsMap.size. lia.
    + intros x. apply In_delete.
  - repeat split; auto. rewrite Z.gtb_ltb in E. apply Z.ltb_ge in E. lia.
Qed.

Lemma clone_keeps_cache r s :
  memoryCache (stateOf (clone r s)) = memoryCache s.
Proof.
  unfold clone. destruct (Http.body r) as [i|]; [|reflexivity].
  destruct (nth_error (store s) i) as [c|]; [|reflexivity].
  destruct (disturbed c); reflexivity.
Qed.

Lemma clone_sameHead x s r s' : clone x s = Ok r s' -> sameHead x r.
Proof.
  unfold clone. destruct (Http.body x) as [i|].
  - destruct (nth_error (store s) i) as [c|]; [|discriminate].
    destruct (disturbed c); [discriminate|]. cbn.
    intros [= <- _]. now repeat split.
  - intros [= <- _]. now repeat split.
Qed.

Lemma lookupFresh_Some key now m e :
  lookupFresh key now m = Some e ->
  JsMap.get key m = Some e /\ (now < expires e)%Z.
Proof.
  unfold lookupFresh. destruct (JsMap.get key m) as [c|]; [|discriminate].
  destruct (expires c >? now)%Z eqn:E; [|discriminate].
  intros [= <-]. split; [reflexivity|]. now apply Z.gtb_lt.
Qed.

Lemma respond_newBody terminal req s r s' :
  respond terminal req s = Ok r s' -> newBody s r.
Proof.
  unfold respond, bind, recordHandled, newResponse, newBody.
  destruct (replyBody (terminal req)) as [b|]; cbn.
  - intros [= <- _]. now right.
  - intros [= <- _]. now left.
Qed.

(** A stored body and the body of a new response are different cells. *)
Lemma stored_apart s x b r :
  holds s x b -> newBody s r ->
  Http.body x <> Http.body r \/ Http.body x = None.
Proof.
  unfold holds, newBody. destruct (Http.body x) as [i|]; [|now right].
  intros Hi Hr. left.
  assert (i < List.length (store s)) by (apply nth_error_Some; congruence).
  destruct Hr as [-> | ->]; [discriminate | intros [= ->]; lia].
Qed.

Lemma readable_extends s s' :
  extends s s' -> memoryCache s' = memoryCache s -> readable s -> readable s'.
Proof.
  unfold readable. intros X ->. apply Forall_impl.
  intros e [b Hb]. exists b. now apply (@holds_extends s s' _ b X).
Qed.

Lemma guard_cases o req :
  negb (eqb (method req) (str "GET")) || (maxAge o <=? 0)%Z = false ->
  method req = str "GET" /\ (0 < maxAge o)%Z.
Proof.
  intros H. apply orb_false_iff in H as [H1 H2].
  apply negb_false_iff, eqb_spec in H1. apply Z.leb_gt in H2. now split.
Qed.

Lemma new_apart s x b c :
  holds s x b -> newBody s c ->
  Http.body c <> Http.body x \/ Http.body c = None.
Proof.
  unfold holds, newBody. intros Hx [-> | Hc]; [now right|]. left.
  rewrite Hc. destruct (Http.body x) as [i|]; [|discriminate].
  assert (i < List.length (store s)) by (apply nth_error_Some; congruence).
  intros [= Hi]. lia.
Qed.

(** Reading a response whose body is no stored cell leaves the stored
    responses readable. *)
Lemma read_keeps_readable s r b :
  holds s r b ->
  Forall (fun e =>
            (exists bx, holds s (data (snd e)) bx) /\
            (Http.body (data (snd e)) <> Http.body r \/
             Http.body (data (snd e)) = None)) (memoryCache s) ->
  exists s', arrayBuffer r s = Ok b s' /\ readable s /\ readable s'.
Proof.
  intros Hr Hall.
  destruct (@arrayBuffer_spec r s b Hr) as (s' & E & M1 & _ & Hkeep).
  exists s'. split; [exact E|]. unfold readable. rewrite M1. split.
  - eapply Forall_impl; [|exact Hall]. now intros e [H _].
  - eapply Forall_impl; [|exact Hall].
    intros e [[bx Hx] Ha]. exists bx. now apply Hkeep.
Qed.

Lemma cons_neq {A} (x : A) l : x :: l <> l.
Proof.
  intros H. apply (f_equal (@List.length _)) in H. cbn in H. lia.
Qed.

(** The entry map keeps its keys distinct, and a request adds at most
    one entry to it and none past [maxSize]: after the request the map
    is no larger than the larger of its size before and [maxSize]. *)
Theorem cache_stays_within_bounds (options : CacheOptions) (now : Z)
  (req : Request) (terminal : Request -> Reply) (s : State) :
  NoDup (JsMap.keys (memoryCache s)) ->
  let after :=
    memoryCache (stateOf (cache options now req (respond terminal req) s)) in
  NoDup (JsMap.keys after) /\
  (JsMap.size after <=
   Z.max (JsMap.size (memoryCache s)) (maxSize options))%Z.
Proof.
  intros Hn after. unfold after. clear after.
  destruct (respond_spec terminal req s) as (r & s1 & E & _ & B & _ & M1 & _).
  destruct (negb (eqb (method req) (str "GET")) || (maxAge options <=? 0)%Z)
    eqn:G.
  - unfold cache. rewrite G, E. cbn [stateOf]. rewrite M1.
    split; [assumption | lia].
  - apply guard_cases in G as [Hm Ha].
    destruct (lookupFresh (url req) now (memoryCache s)) as [e|] eqn:L.
    + rewrite (@cache_hit options now req _ s e Hm Ha L).
      rewrite clone_keeps_cache. cbn [withCache memoryCache].
      rewrite JsMapFacts.set_delete.
      apply lookupFresh_Some in L as [Hg _]. apply get_Some_In in Hg.
      split.
      * rewrite keys_app. apply NoDup_snoc;
          [now apply NoDup_delete | apply notin_delete].
      * pose proof (@length_delete_present _ (url req) (memoryCache s) Hn Hg) as Hl.
        unfold JsMap.size. rewrite length_app. cbn [List.length]. lia.
    + rewrite (@cache_miss options now req _ s Hm Ha L), E.
      destruct (Http.ok r).
      * destruct (@clone_spec r s1 _ B) as (copy & s2 & Ec & _ & _ & _ & _ & C5 & _).
        rewrite Ec. cbn [stateOf withCache memoryCache]. rewrite C5, M1.
        destruct (@set_bounds _ (url req)
                    (mkCacheEntry copy (now + maxAge options * 1000)%Z)
                    (memoryCache s) Hn) as (N1 & N2 & N3).
        destruct (@evict_bounds (maxSize options) _ N1 N3) as (E1 & E2 & _).
        split; [exact E1 | lia].
      * cbn [stateOf]. rewrite M1. split; [assumption | lia].
Qed.

(** While the stored responses are readable, every request through the
    cache gets a response whose body can be read in full, and the
    stored responses are readable after the request and after the
    response has been read: a stored body is never handed out. *)
Theorem cached_copies_stay_readable (options : CacheOptions) (now : Z)
  (req : Request) (terminal : Request -> Reply) (s : State) :
  readable s ->
  exists r s' b s'',
    cache options now req (respond terminal req) s = Ok r s' /\
    arrayBuffer r s' = Ok b s'' /\
    readable s' /\ readable s''.
Proof.
  intros Hread.
  destruct (respond_spec terminal req s) as (r & s1 & E & _ & B & X & M1 & _).
  pose proof (@respond_newBody terminal req s r s1 E) as Hnew.
  assert (Hold : forall e, In e (memoryCache s) ->
            forall s2, extends s s2 ->
            (exists bx, holds s2 (data (snd e)) bx) /\
            (Http.body (data (snd e)) <> Http.body r \/
             Http.body (data (snd e)) = None)).
  { intros e Hin s2 X2. unfold readable in Hread.
    rewrite Forall_forall in Hread. destruct (Hread e Hin) as [bx Hx].
    split; [exists bx; now apply (@holds_extends s s2 _ bx X2)|].
    now apply (@stored_apart s _ bx r). }
  assert (Hpass : exists b s'',
            arrayBuffer r s1 = Ok b s'' /\ readable s1 /\ readable s'').
  { destruct (@read_keeps_readable s1 r _ B) as (s'' & R & R1 & R2).
    - rewrite M1. apply Forall_forall. intros e Hin. now apply Hold.
    - eauto. }
  destruct (negb (eqb (method req) (str "GET")) || (maxAge options <=? 0)%Z)
    eqn:G.
  - destruct Hpass as (b & s'' & R & R1 & R2).
    exists r, s1, b, s''. unfold cache. rewrite G. repeat split; auto.
  - apply guard_cases in G as [Hm Ha].
    destruct (lookupFresh (url req) now (memoryCache s)) as [e|] eqn:L.
    + rewrite (@cache_hit options now req _ s e Hm Ha L).
      set (s0 := withCache s _).
      pose proof L as L'. apply lookupFresh_Some in L' as [Hg _].
      apply get_Some_entry in Hg.
      assert (He : exists b, holds s0 (data e) b).
      { unfold readable in Hread. rewrite Forall_forall in Hread.
        exact (Hread _ Hg). }
      destruct He as [b Hb].
      destruct (@clone_spec (data e) s0 b Hb)
        as (r' & s' & Ec & _ & C2 & C3 & C4 & C5 & _).
      destruct (@read_keeps_readable s' r' b C2) as (s'' & R & R1 & R2).
      * rewrite C5. unfold s0. cbn [withCache memoryCache].
        rewrite JsMapFacts.set_delete. apply Forall_forall. intros x Hx.
        assert (Hin : In x (memoryCache s)).
        { apply in_app_or in Hx as [Hx | [<- | []]];
            [now apply In_delete in Hx | exact Hg]. }
        unfold readable in Hread. rewrite Forall_forall in Hread.
        destruct (Hread x Hin) as [bx Hx'].
        assert (Hx0 : holds s0 (data (snd x)) bx) by exact Hx'.
        split; [exists bx; now apply (@holds_extends s0 s' _ bx C4)|].
        now apply (@stored_apart s0 _ bx r').
      * exists r', s', b, s''. repeat split; auto.
    + rewrite (@cache_miss options now req _ s Hm Ha L), E.
      destruct (Http.ok r).
      * destruct (@clone_spec r s1 _ B)
          as (copy & s2 & Ec & _ & C2 & C3 & C4 & C5 & _).
        rewrite Ec.
        set (s' := withCache s2 _).
        assert (Hr : holds s' r (bytesOf (terminal req))).
        { now apply (@holds_extends s1 s2 r _ C4). }
        destruct (@read_keeps_readable s' r _ Hr) as (s'' & R & R1 & R2).
        -- unfold s'. cbn [withCache memoryCache]. rewrite C5, M1.
           apply Forall_forall. intros x Hx.
           assert (Hne : JsMap.set (url req)
                           (mkCacheEntry copy (now + maxAge options * 1000)%Z)
                           (memoryCache s) <> []).
           { destruct (memoryCache s) as [|p m']; [discriminate|].
             cbn. destruct (JsMap.hasKey (url req) p); discriminate. }
           unfold evict in Hx.
           assert (Hx' : In x (JsMap.set (url req)
                           (mkCacheEntry copy (now + maxAge options * 1000)%Z)
                           (memoryCache s))).
           { destruct (JsMap.size _ >? maxSize options)%Z; [|exact Hx].
             destruct (JsMap.firstKey _); [|exact Hx].
             now apply In_delete in Hx. }
           apply In_set in Hx' as [-> | Hin].
           ++ cbn [snd data]. split; [eauto|].
              now apply (@new_apart s1 r (bytesOf (terminal req)) copy).
           ++ apply Hold; [exact Hin|].
              destruct X as [m1 H1], C4 as [m2 H2]. exists (m1 ++ m2).
              cbn. now rewrite H2, H1, app_assoc.
        -- exists r, s', (bytesOf (terminal req)), s''. repeat split; auto.
      * destruct Hpass as (b & s'' & R & R1 & R2).
        exists r, s1, b, s''. repeat split; auto.
Qed.

(** A response the terminal handler did not make comes from an entry
    that has not expired: the request is a GET request, the lifetime is
    positive, and the entry of the URL has an expiry time after now. *)
Theorem cache_answers_only_from_fresh_entries (options : CacheOptions)
  (now : Z) (req : Request) (terminal : Request -> Reply)
  (s s' : State) (r : Response) :
  cache options now req (respond terminal req) s = Ok r s' ->
  handled s' = handled s ->
  method req = str "GET" /\ (0 < maxAge options)%Z /\
  exists e,
    JsMap.get (url req) (memoryCache s) = Some e /\
    (now < expires e)%Z /\ sameHead (data e) r.
Proof.
  intros Erun Hsame.
  destruct (respond_spec terminal req s) as (r0 & s1 & E & _ & B & _ & M1 & H1).
  destruct (negb (eqb (method req) (str "GET")) || (maxAge options <=? 0)%Z)
    eqn:G.
  - unfold cache in Erun. rewrite G, E in Erun. injection Erun as <- <-.
    rewrite H1 in Hsame. now apply cons_neq in Hsame.
  - apply guard_cases in G as [Hm Ha]. split; [exact Hm|]. split; [exact Ha|].
    destruct (lookupFresh (url req) now (memoryCache s)) as [e|] eqn:L.
    + rewrite (@cache_hit options now req _ s e Hm Ha L) in Erun.
      apply lookupFresh_Some in L as [Hg Hf]. exists e.
      split; [exact Hg|]. split; [exact Hf|].
      now apply clone_sameHead in Erun.
    + exfalso.
      destruct (@miss_spec options now req terminal s Hm Ha L)
        as (r1 & s2 & E2 & _ & _ & _ & Hh & _).
      rewrite E2 in Erun. injection Erun as <- <-.
      rewrite Hh in Hsame. now apply cons_neq in Hsame.
Qed.

End CacheInvariants.

(** ** More about the CORS stage and the compression stage *)

Module StagesMore.

Import Runtime Bodies StageSpec RuntimeFacts HttpFacts.

Lemma listIncludes_true l x : In x l -> Cors.listIncludes l x = true.
Proof.
  unfold Cors.listIncludes. intros H. apply existsb_exists.
  exists x. split; [exact H | apply eqb_refl].
Qed.

(** A preflight request is answered by the stage itself, with 204 and
    no body; the stages after it and the terminal handler are not
    called and nothing changes.  The answer names the allowed origin,
    the methods and the lifetime, the credentials when they are allowed,
    and, when the request asks for headers, the configured headers or
    else the ones it asked for. *)
Theorem preflight_is_answered_by_the_stage (options : Cors.CorsOptions)
  (req : Request) (next : M Response) (s : State) :
  method req = str "OPTIONS" ->
  exists r,
    Cors.cors options req next s = Ok r s /\
    Http.status r = 204%Z /\ Http.body r = None /\
    allowOrigin r =
      Some (Cors.originValueFor (Cors.origin options)
              (orElse (Http.get (str "Origin") (requestHeaders req)) [])) /\
    Http.get (str "Access-Control-Allow-Methods") (Http.headers r) =
      Some (Cors.joinComma (Cors.methods options)) /\
    Http.get (str "Access-Control-Max-Age") (Http.headers r) =
      Some (JsNumber.toString10 (Cors.maxAge options)) /\
    Http.get (str "Access-Control-Allow-Credentials") (Http.headers r) =
      (if Cors.credentials options then Some (str "true") else None) /\
    Http.get (str "Access-Control-Allow-Headers") (Http.headers r) =
      match Http.get (str "Access-Control-Request-Headers")
              (requestHeaders req) with
      | Some (c :: asked) =>
          Some (orElse (Some (Cors.joinComma (Cors.allowedHeaders options)))
                  (c :: asked))
      | _ => None
      end.
Proof.
  intros Hm. unfold Cors.cors. rewrite Hm.
  replace (eqb (str "OPTIONS") (str "OPTIONS")) with true by reflexivity.
  eexists. split; [reflexivity|]. cbn [Http.status Http.body Http.headers].
  unfold allowOrigin. cbn [Http.headers].
  set (originValue := Cors.originValueFor _ _).
  set (methodsString := Cors.joinComma (Cors.methods options)).
  set (exposed := Cors.joinComma (Cors.exposedHeaders options)).
  set (allowed := Cors.joinComma (Cors.allowedHeaders options)).
  set (maxAge := JsNumber.toString10 (Cors.maxAge options)).
  destruct (Http.get (str "Access-Control-Request-Headers")
              (requestHeaders req)) as [[|c asked]|];
    cbn [orElse Cors.truthy eqb negb];
    destruct (Cors.credentials options), (Cors.truthy exposed);
    repeat split.
Qed.

(** Any other request goes on to the following stages, and their
    response comes back with its status, its body and its other headers,
    and with the allowed origin: the one origin of the options, or for
    a list of origins the origin of the request when the list has it. *)
Theorem cors_marks_the_response (options : Cors.CorsOptions)
  (req : Request) (terminal : Request -> Reply) (s : State) :
  method req <> str "OPTIONS" ->
  let requestOrigin :=
    orElse (Http.get (str "Origin") (requestHeaders req)) [] in
  exists r s',
    Cors.cors options req (respond terminal req) s = Ok r s' /\
    Http.status r = replyStatus (terminal req) /\
    holds s' r (bytesOf (terminal req)) /\
    handled s' = url req :: handled s /\
    (forall name,
       toLowerCase name <> toLowerCase (str "Access-Control-Allow-Origin") ->
       toLowerCase name <>
         toLowerCase (str "Access-Control-Allow-Credentials") ->
       toLowerCase name <>
         toLowerCase (str "Access-Control-Expose-Headers") ->
       Http.get name (Http.headers r) =
       Http.get name (replyHeaders (terminal req))) /\
    (forall value,
       Cors.origin options = Cors.OneOrigin value ->
       allowOrigin r = Some value) /\
    (forall origins,
       Cors.origin options = Cors.OriginList origins ->
       In requestOrigin origins ->
       allowOrigin r = Some requestOrigin).
Proof.
  intros Hm requestOrigin. unfold Cors.cors.
  apply eqb_neq in Hm. rewrite Hm.
  destruct (respond_spec terminal req s)
    as (r0 & s1 & E & (A1 & A2 & A3) & B & _ & _ & Hh).
  unfold bind at 1. rewrite E. unfold Cors.rewrap.
  rewrite (@holds_bodyUsed s1 r0 _ B).
  eexists _, s1. split; [reflexivity|]. cbn [Http.status Http.headers].
  split; [exact A1|]. split; [exact B|]. split; [exact Hh|].
  unfold allowOrigin. cbn [Http.headers]. fold requestOrigin.
  assert (Hget : forall v,
            Cors.originValueFor (Cors.origin options) requestOrigin = v ->
            Http.get (str "Access-Control-Allow-Origin")
              (Cors.setIf
                 (Cors.truthy (Cors.joinComma (Cors.exposedHeaders options)))
                 (str "Access-Control-Expose-Headers")
                 (Cors.joinComma (Cors.exposedHeaders options))
                 (Cors.setIf (Cors.credentials options)
                    (str "Access-Control-Allow-Credentials") (str "true")
                    (Http.set (str "Access-Control-Allow-Origin")
                       (Cors.originValueFor (Cors.origin options)
                          requestOrigin) (Http.headers r0)))) = Some v).
  { intros v <-.
    rewrite !CorsFacts.get_setIf_other by (vm_compute; discriminate).
    apply get_set_same. }
  split; [|split].
  - intros name N1 N2 N3.
    rewrite !CorsFacts.get_setIf_other by assumption.
    rewrite get_set_other by assumption. now rewrite A3.
  - intros value Ho. apply Hget. now rewrite Ho.
  - intros origins Ho Hin. apply Hget. rewrite Ho. cbn [Cors.originValueFor].
    now rewrite listIncludes_true.
Qed.

(** A response whose content type is not in the list goes through the
    compression stage as it is, unread.  For a response of a listed type
    and a request that accepts [gzip] and not [br], the body is replaced
    by its gzip encoding, [Content-Encoding] is [gzip], [Content-Length]
    is gone and the other headers and the status stay. *)
Theorem compression_other_cases (zlib : Compression.Zlib)
  (options : Compression.CompressionOptions)
  (req : Request) (terminal : Request -> Reply) (s : State) :
  let reply := terminal req in
  let acceptEncoding :=
    orElse (Http.get (str "Accept-Encoding") (requestHeaders req)) [] in
  let run := Compression.compression zlib options req (respond terminal req) s in
  (compressible options reply = false -> run = respond terminal req s) /\
  (compressible options reply = true ->
   includes acceptEncoding (str "br") = false ->
   includes acceptEncoding (str "gzip") = true ->
   exists r s',
     run = Ok r s' /\
     Http.status r = replyStatus reply /\
     Http.get (str "Content-Encoding") (Http.headers r) = Some (str "gzip") /\
     Http.get (str "Content-Length") (Http.headers r) = None /\
     holds s' r
       (Compression.gzipSync zlib (bytesOf reply) (Compression.level options)) /\
     (forall name,
        toLowerCase name <> toLowerCase (str "Content-Encoding") ->
        toLowerCase name <> toLowerCase (str "Content-Length") ->
        Http.get name (Http.headers r) = Http.get name (replyHeaders reply))).
Proof.
  intros reply acceptEncoding run.
  destruct (respond_spec terminal req s)
    as (r0 & s1 & E & (A1 & A2 & A3) & B & _ & _ & _).
  split.
  - intros Hc. unfold run, Compression.compression. unfold bind at 1.
    rewrite E, A3. unfold compressible in Hc. fold reply. rewrite Hc.
    reflexivity.
  - intros Hc Hbr Hgz.
    assert (Hct : existsb
              (fun type =>
                 includes
                   (orElse (Http.get (str "Content-Type") (Http.headers r0)) [])
                   type) (Compression.types options) = true).
    { rewrite A3. exact Hc. }
    destruct (@PipelineFacts.compression_reads zlib options req
                (respond terminal req) s r0 s1 _ E B Hct)
      as (s2 & _ & _ & _ & Erun).
    cbv zeta in Erun. fold acceptEncoding in Erun.
    rewrite Hbr, Hgz in Erun. unfold Compression.encoded in Erun.
    destruct (newResponse_spec
                (Some (Compression.gzipSync zlib (bytesOf (terminal req))
                         (Compression.level options)))
                (Http.status r0) (Http.statusText r0)
                (Http.delete (str "Content-Length")
                   (Http.set (str "Content-Encoding") (str "gzip")
                      (Http.headers r0))) s2)
      as (r & s' & En & N1 & _ & N3 & N4 & _).
    exists r, s'. unfold run. rewrite Erun. split; [exact En|].
    rewrite N3. split; [unfold reply; congruence|].
    split; [|split; [|split; [exact N4|]]].
    + rewrite get_delete_other by (vm_compute; discriminate).
      apply get_set_same.
    + apply get_delete_same.
    + intros name N5 N6. rewrite get_delete_other by assumption.
      rewrite get_set_other by assumption. now rewrite A3.
Qed.

End StagesMore.

(** ** The answers of the handler *)

Module HandlerAnswers.

Import NodePath PathUtils Handler HandlerFacts.

Lemma getMimeType_truthy P ext :
  orElse (Some (getMimeType P ext)) (str "application/octet-stream") =
  getMimeType P ext.
Proof.
  unfold getMimeType.
  destruct (option_map _ _) as [[|c r]|]; reflexivity.
Qed.

Lemma serveFile_status P filePath stats method :
  Http.status (fst (serveFile P filePath stats method)) = 200%Z.
Proof.
  unfold serveFile. destruct (eqb method (str "HEAD")); [reflexivity|].
  now rewrite bind_fst_eq.
Qed.

Lemma tryIndex_status P fs indexPath method r :
  fst (tryIndex P fs indexPath method) = Some r -> Http.status r = 200%Z.
Proof.
  unfold tryIndex. rewrite bind_fst_eq. cbn [fst existsSync].
  destruct (fs_existsSync fs indexPath); [|discriminate].
  rewrite bind_fst_eq. cbn [fst stat].
  destruct (fs_stat fs indexPath) as [st|]; [|discriminate].
  rewrite bind_fst_eq. cbn [ret fst]. intros [= <-].
  apply serveFile_status.
Qed.

Lemma serveDirectory_status P fs dirPath urlPath :
  let response := fst (serveDirectory P fs dirPath urlPath) in
  (Http.status response = 200%Z /\ fs_readdir fs dirPath <> None) \/
  (Http.status response = 500%Z /\ fs_readdir fs dirPath = None).
Proof.
  cbv zeta. unfold serveDirectory. rewrite bind_fst_eq. cbn [fst readdir].
  destruct (fs_readdir fs dirPath) as [entries|].
  - left. rewrite bind_fst_eq. split; [reflexivity | discriminate].
  - right. split; reflexivity.
Qed.

Lemma allowed_method method :
  eqb method (str "GET") || eqb method (str "HEAD") =
  negb (negb (eqb method (str "GET")) && negb (eqb method (str "HEAD"))).
Proof. now destruct (eqb method (str "GET")), (eqb method (str "HEAD")). Qed.

(** Past the two checks the answer is 200, 301 or 404, or 500 when the
    directory cannot be read. *)
Lemma checked_status P fs rootDir urlPath method options :
  let filePath := resolveStaticPath rootDir (normalizeUrlPath urlPath) in
  let status :=
    Http.status (fst (handler P fs rootDir urlPath method options)) in
  eqb method (str "GET") || eqb method (str "HEAD") = true ->
  isPathUnderRoot (cwd P) filePath rootDir = true ->
  (status = 200 \/ status = 301 \/ status = 404 \/
   (status = 500 /\ fs_readdir fs filePath = None))%Z.
Proof.
  intros filePath status Hm Hu. unfold status, handler.
  rewrite allowed_method in Hm. apply negb_true_iff in Hm. rewrite Hm.
  fold filePath. rewrite Hu. cbn [negb].
  rewrite bind_fst_eq. cbn [fst stat].
  destruct (fs_stat fs filePath) as [stats | code].
  - destruct (isFile stats); [left; apply serveFile_status|].
    destruct (isDirectory stats); [|right; right; left; reflexivity].
    destruct (endsWith (normalizeUrlPath urlPath) (str "/"));
      cbn [negb]; [|right; left; reflexivity].
    rewrite bind_fst_eq.
    destruct (fst (tryIndex P fs _ method)) as [served|] eqn:Ei;
      [left; now apply tryIndex_status in Ei|].
    destruct (enableDirectoryListing options);
      [|right; right; left; reflexivity].
    destruct (serveDirectory_status P fs filePath (normalizeUrlPath urlPath))
      as [[E _] | [E Hr]]; rewrite E; [now left | now right; right; right].
  - destruct (enableSPA options && eqb code (str "ENOENT"));
      [|right; right; left; reflexivity].
    rewrite bind_fst_eq.
    destruct (fst (tryIndex P fs _ method)) as [served|] eqn:Ei;
      [left; now apply tryIndex_status in Ei | right; right; left; reflexivity].
Qed.

Lemma outside_status P fs rootDir urlPath method options :
  eqb method (str "GET") || eqb method (str "HEAD") = true ->
  isPathUnderRoot (cwd P)
    (resolveStaticPath rootDir (normalizeUrlPath urlPath)) rootDir = false ->
  Http.status (fst (handler P fs rootDir urlPath method options)) = 403%Z.
Proof.
  intros Ea Eu. unfold handler. rewrite allowed_method in Ea.
  apply negb_true_iff in Ea. now rewrite Ea, Eu.
Qed.

Lemma other_method_status P fs rootDir urlPath method options :
  eqb method (str "GET") || eqb method (str "HEAD") = false ->
  Http.status (fst (handler P fs rootDir urlPath method options)) = 405%Z.
Proof.
  intros Ea. unfold handler. rewrite allowed_method in Ea.
  apply negb_false_iff in Ea. now rewrite Ea.
Qed.

(** The handler answers with one of six statuses: 405 exactly for the
    methods other than GET and HEAD, and for those two 403 exactly when
    the resolved path is not under the root; 500 only when a directory
    could not be read. *)
Theorem handler_statuses (P : Platform) (fs : FileSystem)
  (rootDir urlPath method : jstring) (options : HandlerOptions) :
  let response := fst (handler P fs rootDir urlPath method options) in
  let allowed := eqb method (str "GET") || eqb method (str "HEAD") in
  let filePath := resolveStaticPath rootDir (normalizeUrlPath urlPath) in
  In (Http.status response) [200; 301; 403; 404; 405; 500]%Z /\
  (Http.status response = 405%Z <-> allowed = false) /\
  (Http.status response = 403%Z <->
   allowed = true /\ isPathUnderRoot (cwd P) filePath rootDir = false) /\
  (Http.status response = 500%Z -> fs_readdir fs filePath = None).
Proof.
  cbv zeta.
  destruct (eqb method (str "GET") || eqb method (str "HEAD")) eqn:Ea.
  - destruct (isPathUnderRoot (cwd P)
                (resolveStaticPath rootDir (normalizeUrlPath urlPath)) rootDir)
      eqn:Eu.
    + destruct (@checked_status P fs rootDir urlPath method options Ea Eu)
        as [E | [E | [E | [E Hr]]]]; rewrite E; cbn [In];
        repeat split; intros; try tauto; try discriminate;
        try (destruct H; discriminate); auto 10.
    + rewrite (@outside_status P fs rootDir urlPath method options Ea Eu);
        cbn [In];
        repeat split; intros; try tauto; try discriminate; auto 10.
  - assert (E : Http.status
                  (fst (handler P fs rootDir urlPath method options)) = 405%Z).
    { unfold handler. rewrite allowed_method in Ea.
      apply negb_false_iff in Ea. now rewrite Ea. }
    rewrite E; cbn [In];
      repeat split; intros; try tauto; try discriminate;
      try (destruct H; discriminate); auto 10.
Qed.

(** A request for a file under the root is answered with status 200,
    its content type by its extension and the validators made from its
    [stat].  A GET request gets the file as the body, after the [stat]
    and the opening of the file and nothing else; a HEAD request gets no
    body and the size of the file as [Content-Length], and the file is
    not opened. *)
Theorem file_is_served (P : Platform) (fs : FileSystem)
  (rootDir urlPath : jstring) (options : HandlerOptions) (stats : Stats) :
  let filePath := resolveStaticPath rootDir (normalizeUrlPath urlPath) in
  isPathUnderRoot (cwd P) filePath rootDir = true ->
  fs_stat fs filePath = StatOk stats ->
  isFile stats = true ->
  let get := handler P fs rootDir urlPath (str "GET") options in
  let head := handler P fs rootDir urlPath (str "HEAD") options in
  (forall result, result = get \/ result = head ->
     Http.status (fst result) = 200%Z /\
     Http.get (str "Content-Type") (Http.headers (fst result)) =
       Some (getMimeType P (toLowerCase (extname P filePath))) /\
     Http.get (str "Last-Modified") (Http.headers (fst result)) =
       Some (toUTCString P (mtime stats)) /\
     Http.get (str "ETag") (Http.headers (fst result)) =
       Some (etagOf stats)) /\
  Http.body (fst get) = FileBody filePath /\
  Http.get (str "Content-Length") (Http.headers (fst get)) = None /\
  snd get = [OpStat filePath; OpFile filePath] /\
  Http.body (fst head) = NoBody /\
  Http.get (str "Content-Length") (Http.headers (fst head)) =
    Some (JsNumber.toString10 (Z.of_N (size stats))) /\
  snd head = [OpStat filePath].
Proof.
  intros filePath Hin Hstat Hfile get head.
  assert (Eget : get =
            (fst (serveFile P filePath stats (str "GET")),
             [OpStat filePath; OpFile filePath])).
  { unfold get, handler.
    replace (negb (eqb (str "GET") (str "GET")) &&
             negb (eqb (str "GET") (str "HEAD"))) with false by reflexivity.
    fold filePath. rewrite Hin. cbn [negb].
    unfold bind, stat. cbn [fst snd]. rewrite Hstat, Hfile. reflexivity. }
  assert (Ehead : head =
            (fst (serveFile P filePath stats (str "HEAD")),
             [OpStat filePath])).
  { unfold head, handler.
    replace (negb (eqb (str "HEAD") (str "GET")) &&
             negb (eqb (str "HEAD") (str "HEAD"))) with false by reflexivity.
    fold filePath. rewrite Hin. cbn [negb].
    unfold bind, stat. cbn [fst snd]. rewrite Hstat, Hfile. reflexivity. }
  rewrite Eget, Ehead. cbn [fst snd]. unfold serveFile.
  replace (eqb (str "GET") (str "HEAD")) with false by reflexivity.
  replace (eqb (str "HEAD") (str "HEAD")) with true by reflexivity.
  rewrite bind_fst_eq, getMimeType_truthy.
  cbn [fst snd bunFile ret newResponse Http.status Http.body Http.headers].
  split; [|repeat split;
            repeat (rewrite HttpFacts.get_set_other
                      by (vm_compute; discriminate));
            try apply HttpFacts.get_set_same].
  intros result [-> | ->];
    cbn [fst Http.status Http.headers]; repeat split;
    repeat (rewrite HttpFacts.get_set_other by (vm_compute; discriminate));
    try apply HttpFacts.get_set_same.
Qed.

(** A path whose [stat] fails is answered with 404 after that one call,
    unless the SPA mode is on and the failure is [ENOENT]; so is a path
    that is neither a file nor a directory. *)
Theorem missing_is_not_found (P : Platform) (fs : FileSystem)
  (rootDir urlPath method : jstring) (options : HandlerOptions) :
  let filePath := resolveStaticPath rootDir (normalizeUrlPath urlPath) in
  eqb method (str "GET") || eqb method (str "HEAD") = true ->
  isPathUnderRoot (cwd P) filePath rootDir = true ->
  (exists code,
     fs_stat fs filePath = StatError code /\
     enableSPA options && eqb code (str "ENOENT") = false) \/
  (exists stats,
     fs_stat fs filePath = StatOk stats /\
     isFile stats = false /\ isDirectory stats = false) ->
  let result := handler P fs rootDir urlPath method options in
  Http.status (fst result) = 404%Z /\
  Http.body (fst result) = TextBody (str "Not Found") /\
  snd result = [OpStat filePath].
Proof.
  intros filePath Hmethod Hin Hcase result. unfold result, handler.
  replace (negb (eqb method (str "GET")) && negb (eqb method (str "HEAD")))
    with false
    by (destruct (eqb method (str "GET")), (eqb method (str "HEAD"));
        try reflexivity; discriminate).
  fold filePath. rewrite Hin. cbn [negb].
  rewrite bind_fst_eq, bind_snd. cbn [fst snd stat].
  destruct Hcase as [(code & -> & ->) | (stats & -> & -> & ->)];
    repeat split.
Qed.

(** A GET request for the root, under any spelling of its URL (no
    segment but empty ones), is answered with the [index.html] of the
    root directory when that file exists: status 200 and the file as
    the body, after a [stat] of the root, the test for the file and its
    [stat]. *)
Theorem root_index_is_served (P : Platform) (fs : FileSystem)
  (rootDir urlPath : jstring) (options : HandlerOptions)
  (stats indexStats : Stats) :
  Segments.names urlPath = [] ->
  let filePath := resolveStaticPath rootDir (str "/") in
  let indexPath := join [filePath; str "index.html"] in
  isPathUnderRoot (cwd P) filePath rootDir = true ->
  fs_stat fs filePath = StatOk stats ->
  isDirectory stats = true ->
  fs_existsSync fs indexPath = true ->
  fs_stat fs indexPath = StatOk indexStats ->
  let result := handler P fs rootDir urlPath (str "GET") options in
  Http.status (fst result) = 200%Z /\
  Http.body (fst result) = FileBody indexPath /\
  Http.get (str "ETag") (Http.headers (fst result)) =
    Some (etagOf indexStats) /\
  snd result =
    [OpStat filePath; OpExistsSync indexPath; OpStat indexPath;
     OpFile indexPath].
Proof.
  intros Hnames filePath indexPath Hin Hstat Hdir Hexists Hindex result.
  assert (Hfile : isFile stats = false).
  { unfold isFile, isDirectory in *. now destruct (kind stats). }
  assert (Hroot : normalizeUrlPath urlPath = str "/").
  { rewrite PathUtilsFacts.normalizeUrlPath_names, Hnames. reflexivity. }
  unfold result, handler.
  replace (negb (eqb (str "GET") (str "GET")) &&
           negb (eqb (str "GET") (str "HEAD"))) with false by reflexivity.
  rewrite Hroot. fold filePath. rewrite Hin. cbn [negb].
  rewrite bind_fst_eq, bind_snd. cbn [fst snd stat].
  rewrite Hstat, Hfile, Hdir.
  change (endsWith (str "/") (str "/")) with true. cbn [negb].
  fold indexPath.
  assert (Htry : tryIndex P fs indexPath (str "GET") =
                 (Some (fst (serveFile P indexPath indexStats (str "GET"))),
                  [OpExistsSync indexPath; OpStat indexPath;
                   OpFile indexPath])).
  { unfold tryIndex, bind, existsSync, stat. cbn [fst snd].
    rewrite Hexists. cbn [fst snd]. rewrite Hindex. reflexivity. }
  rewrite bind_fst_eq, bind_snd, Htry. cbn [fst snd ret app].
  repeat split.
Qed.

End HandlerAnswers.

(** ** The logger *)

Module LoggerFacts.

Import Logger.

Section WithArguments.

Variable Arg : Type.
Variable L : Logger.

(** What a call writes depends on what was written before, not on the
    options object. *)
Lemma call_console (c : Call Arg) (w w' : World Arg) :
  console w = console w' ->
  console (call L c w) = console (call L c w').
Proof.
  intros H. destruct c; cbn [call];
    unfold setLevel, debug, info, warn, error, request, logMessage;
    try destruct (_ <=? _)%Z; cbn [console]; now rewrite ?H.
Qed.

Lemma calls_console (cs : list (Call Arg)) (w w' : World Arg) :
  console w = console w' ->
  console (calls L cs w) = console (calls L cs w').
Proof.
  revert w w'. induction cs as [|c cs IH]; intros w w' H; [exact H|].
  cbn [calls fold_left]. apply IH. now apply call_console.
Qed.

Lemma calls_app (a b : list (Call Arg)) (w : World Arg) :
  calls L (a ++ b) w = calls L b (calls L a w).
Proof. apply fold_left_app. Qed.

Lemma written_line iso levelName color message args (w : World Arg) line :
  In line (console (logMessage L iso levelName color message args w)) ->
  In line (console w) \/
  line = (formatMessage L iso levelName message color, args).
Proof.
  unfold logMessage. cbn [console]. intros H.
  apply in_app_or in H as [H | [<- | []]]; auto.
Qed.

Lemma formatMessage_escape iso levelName message color :
  timestampTaken L = true ->
  In escape (formatMessage L iso levelName message color).
Proof.
  intros Ht. unfold formatMessage. rewrite Ht. cbn. now left.
Qed.

End WithArguments.

(** The level of a logger is the one its options had when it was made:
    [setLevel] changes the options object, so that a logger made from
    it afterwards takes the new level, but no later call of this logger
    writes more or less because of it. *)
Theorem setLevel_changes_no_output (Arg : Type) (given : LoggerOptions)
  (before later : list (Call Arg)) (newLevel : LogLevel) (w : World Arg) :
  let L := createLogger given in
  console (calls L (before ++ SetLevel Arg newLevel :: later) w) =
  console (calls L (before ++ later) w) /\
  levelTaken L = orDefault (level given) INFO /\
  levelTaken (createLogger (options (setLevel newLevel w))) = newLevel.
Proof.
  intros L. split; [|split; reflexivity].
  rewrite !calls_app. cbn [calls fold_left call].
  apply calls_console. reflexivity.
Qed.

(** A logger writes the messages at its level and above: what makes
    [debug] write makes [info] write, and so on up to [error]; a request
    is written when [info] is, and at the level [NONE] nothing is
    written.  With [colors] off and [timestamp] on, every line written
    still has the escape codes around its timestamp. *)
Theorem logger_thresholds (Arg : Type) (L : Logger)
  (iso message : jstring) (args : list Arg) (now startTime : Z)
  (req : Runtime.Request) (res : Runtime.Response) (w : World Arg) :
  let writes (w' : World Arg) := console w' <> console w in
  (writes (debug L iso message args w) ->
   writes (info L iso message args w)) /\
  (writes (info L iso message args w) ->
   writes (warn L iso message args w)) /\
  (writes (warn L iso message args w) ->
   writes (error L iso message args w)) /\
  (writes (request L iso now req res startTime w) <->
   writes (info L iso message args w)) /\
  (levelTaken L = NONE ->
   forall c : Call Arg, console (call L c w) = console w) /\
  (timestampTaken L = true ->
   forall (c : Call Arg) line,
     In line (console (call L c w)) -> ~ In line (console w) ->
     In escape (fst line)).
Proof.
  intros writes. unfold writes.
  assert (Hgrow : forall line, console w ++ [line] <> console w).
  { intros line H. apply (f_equal (@List.length _)) in H.
    rewrite length_app in H. cbn in H. lia. }
  assert (Hnone : levelTaken L = NONE ->
                  forall c : Call Arg, console (call L c w) = console w).
  { intros El c. destruct c; cbn [call];
      unfold setLevel, debug, info, warn, error, request;
      rewrite ?El; reflexivity. }
  assert (Hescape : timestampTaken L = true ->
            forall (c : Call Arg) line,
              In line (console (call L c w)) -> ~ In line (console w) ->
              In escape (fst line)).
  { intros Ht c line Hin Hnew. destruct c; cbn [call] in Hin;
      unfold setLevel, debug, info, warn, error, request in Hin;
      try destruct (_ <=? _)%Z; cbn [console] in Hin; try contradiction;
      apply written_line in Hin as [Hin | ->]; try contradiction;
      now apply formatMessage_escape. }
  split; [|split; [|split; [|split; [|split; [exact Hnone | exact Hescape]]]]];
    unfold debug, info, warn, error, request, logMessage;
    destruct (levelTaken L); cbn [rank Z.leb Z.compare console];
    try split; intros; try tauto; try apply Hgrow.
Qed.

End LoggerFacts.

(** ** The path of a parsed URL *)

Module UrlFacts.

Import Runtime NodePath PathUtils Lexical Segments PathFacts PathUtilsFacts.

Lemma double_dot_is_removed segment :
  isDoubleDotSegment segment = false -> plain segment.
Proof.
  unfold isDoubleDotSegment, plain, isDotDot. cbv zeta. intros H.
  destruct (eqb segment (str "..")) eqn:E; [|reflexivity].
  apply eqb_spec in E. subst segment. discriminate.
Qed.

Lemma parsePath_plain kept segments :
  Forall plain kept -> Forall plain (parsePath kept segments).
Proof.
  revert kept. induction segments as [|segment rest IH]; intros kept Hk.
  - now apply Forall_rev.
  - cbn [parsePath].
    assert (Ht : Forall plain (tl kept)).
    { destruct kept; [constructor | now inversion Hk]. }
    destruct (isDoubleDotSegment segment) eqn:Ed.
    + apply IH. destruct rest; [constructor; [reflexivity|]|]; exact Ht.
    + destruct (isSingleDotSegment segment).
      * apply IH. destruct rest; [constructor; [reflexivity|]|]; exact Hk.
      * apply IH. constructor; [now apply double_dot_is_removed | exact Hk].
Qed.

Lemma parsePath_slashFree kept segments :
  Forall slashFree kept -> Forall slashFree segments ->
  Forall slashFree (parsePath kept segments).
Proof.
  revert kept. induction segments as [|segment rest IH]; intros kept Hk Hs.
  - now apply Forall_rev.
  - cbn [parsePath]. inversion Hs as [|? ? Hseg Hrest]; subst.
    assert (Ht : Forall slashFree (tl kept)).
    { destruct kept; [constructor | now inversion Hk]. }
    assert (He : slashFree []) by constructor.
    destruct (isDoubleDotSegment segment).
    + apply IH; [|exact Hrest]. destruct rest; [constructor|]; assumption.
    + destruct (isSingleDotSegment segment).
      * apply IH; [|exact Hrest]. destruct rest; [constructor|]; assumption.
      * apply IH; [constructor|]; assumption.
Qed.

Lemma segmentsOf_slashFree path : Forall slashFree (segmentsOf path).
Proof.
  unfold segmentsOf. destruct (asSeparators path) as [|c rest].
  - repeat constructor.
  - apply split_slashFree.
Qed.

Lemma written_path segments :
  segments <> [] ->
  flat_map (fun segment => slash :: segment) segments =
  slash :: joinSlash segments.
Proof.
  induction segments as [|x rest IH]; [contradiction|]. intros _.
  destruct rest as [|y rest'].
  - cbn. now rewrite app_nil_r.
  - cbn [flat_map] in *. rewrite IH by discriminate. reflexivity.
Qed.

(** The path of a parsed URL has no [".."] segment. *)
Lemma parsedPathname_plain path : Forall plain (split (parsedPathname path)).
Proof.
  unfold parsedPathname.
  pose proof (@parsePath_plain [] (segmentsOf path) (Forall_nil _)) as Hp.
  pose proof (@parsePath_slashFree [] (segmentsOf path) (Forall_nil _)
                (segmentsOf_slashFree path)) as Hs.
  destruct (parsePath [] (segmentsOf path)) as [|x rest] eqn:E.
  - repeat constructor.
  - rewrite written_path by discriminate.
    rewrite split_cons_slash by reflexivity.
    rewrite split_joinSlash; [|discriminate | exact Hs].
    constructor; [reflexivity | exact Hp].
Qed.

(** So it never leads out of the root directory. *)
Lemma parsedPathname_under_root cwd rootDir path :
  isAbsolute cwd = true ->
  isPathUnderRoot cwd
    (resolveStaticPath rootDir (normalizeUrlPath (parsedPathname path)))
    rootDir = true.
Proof.
  intros Hcwd. apply isPathUnderRoot_contained; [assumption|].
  unfold contained.
  rewrite place_resolveStaticPath, follow_normalizeUrlPath.
  apply follow_without_dotdot; [apply parsedPathname_plain|].
  apply within_refl.
Qed.

End UrlFacts.

(** ** The server *)

Module ServerFacts.

Import Runtime Server Bodies RuntimeFacts.

(** The server answers every request.  An error of the chain is
    answered with 500, [text/plain] and [Internal Server Error].  A
    server without middleware answers with the status, the headers and
    the body the handler gives for the path of the parsed URL and the
    method of the request.  As the parser has taken the [".."] segments
    out of that path, it never leads out of the root directory: such a
    server does not answer 403. *)
Theorem server_answers_every_request (P : Handler.Platform)
  (fs : Handler.FileSystem) (C : Content) (options : ServerOptions)
  (req : Request) (s : State) :
  let final := respond (staticReply P fs C options) req in
  let answer :=
    fst (Handler.handler P fs (root options) (urlPathname req)
           (method req) (handlerOptions options)) in
  exists r s',
    handleRequest P fs C options req s = Ok r s' /\
    (forall e s0,
       Chain.execute (middleware options) req final s = Throw e s0 ->
       Http.status r = 500%Z /\
       Http.get (str "Content-Type") (Http.headers r) =
         Some (str "text/plain") /\
       holds s' r (encodeText C (str "Internal Server Error"))) /\
    (middleware options = [] ->
     Http.status r = Http.status answer /\
     Http.headers r = Http.headers answer /\
     holds s' r
       (match bodyBytes C (Http.body answer) with
        | Some bytes => bytes
        | None => []
        end) /\
     handled s' = url req :: handled s /\
     (NodePath.isAbsolute (Handler.cwd P) = true ->
      Http.status r <> 403%Z)).
Proof.
  intros final answer. unfold handleRequest, serve. fold final.
  destruct (respond_spec (staticReply P fs C options) req s)
    as (r0 & s1 & E0 & (A1 & A2 & A3) & B & _ & _ & Hh).
  destruct (Chain.execute (middleware options) req final s)
    as [r s' | e s'] eqn:E.
  - exists r, s'. split; [reflexivity|]. split; [intros; discriminate|].
    intros Hm. rewrite Hm in E. cbn [Chain.execute fold_right] in E.
    unfold final in E. rewrite E0 in E. injection E as <- <-.
    split; [exact A1|]. split; [exact A3|]. split; [exact B|].
    split; [exact Hh|].
    intros Hcwd. rewrite A1. cbn [staticReply replyStatus].
    destruct (eqb (method req) (str "GET") || eqb (method req) (str "HEAD"))
      eqn:Ea.
    + pose proof (@HandlerAnswers.checked_status P fs (root options)
                    (urlPathname req) (method req) (handlerOptions options)
                    Ea (@UrlFacts.parsedPathname_under_root (Handler.cwd P)
                          (root options) (pathname (target req)) Hcwd))
        as [H | [H | [H | [H _]]]];
        unfold urlPathname in *; rewrite H; discriminate.
    + rewrite (@HandlerAnswers.other_method_status P fs (root options)
                 (urlPathname req) (method req) (handlerOptions options) Ea).
      discriminate.
  - destruct (newResponse_spec
                (Some (encodeText C (str "Internal Server Error"))) 500 []
                (Http.ofList [(str "Content-Type", str "text/plain")]) s')
      as (r & s2 & En & N1 & _ & N3 & N4 & _).
    exists r, s2. split; [exact En|]. split.
    + intros _ _ _. split; [exact N1|]. split; [|exact N4].
      now rewrite N3.
    + intros Hm. rewrite Hm in E. cbn [Chain.execute fold_right] in E.
      unfold final in E. rewrite E0 in E. discriminate.
Qed.

End ServerFacts.

(** ** The theorems at sample inputs *)

Module Witnesses.

Import NodePath PathUtils Lexical Handler HandlerSpec.

(** What the specification gives as examples of path handling. *)
Example resolve_under_srv :
  resolveStaticPath (str "/srv") (str "/a/b") = str "/srv/a/b" /\
  normalizeUrlPath (str "/a//b/") = str "/a/b" /\
  normalizeUrlPath [] = str "/".
Proof. repeat split. Qed.

Lemma docsTree_entries : entriesAreNames Examples.docsTree.
Proof.
  intros dir entries. unfold Examples.docsTree. cbn [fs_readdir].
  destruct (eqb dir (str "/srv")); [|destruct (eqb dir (str "/srv/docs"))];
    intros [= ?]; subst; repeat constructor; discriminate.
Qed.

Lemma passwd_escapes :
  escapes (cwd Examples.platform) (str "/srv") (str "/../etc/passwd").
Proof. intros [rest H]. vm_compute in H. discriminate. Qed.

Lemma traversal_is_forbidden_witness :
  escapes (cwd Examples.platform) (str "/srv") (str "/../etc/passwd") /\
  (let result :=
     handler Examples.platform Examples.docsTree (str "/srv")
       (str "/../etc/passwd") (str "GET") (false, true) in
   Http.status (fst result) = 403%Z /\ snd result = []) /\
  (let result :=
     handler Examples.platform Examples.docsTree (str "/srv") (str "/")
       (str "GET") (false, true) in
   Forall (fun op => contained (cwd Examples.platform) (str "/srv") (opPath op))
     (snd result) /\
   List.length (snd result) = 4).
Proof.
  split; [exact passwd_escapes|]. split.
  - destruct (@HandlerFacts.traversal_is_forbidden Examples.platform
                Examples.docsTree (str "/srv") (str "/../etc/passwd")
                (str "GET") (false, true) eq_refl docsTree_entries)
      as [H _].
    destruct (H passwd_escapes) as (_ & Hno & H403 & _).
    split; [apply H403; now left | exact Hno].
  - destruct (@HandlerFacts.traversal_is_forbidden Examples.platform
                Examples.docsTree (str "/srv") (str "/")
                (str "GET") (false, true) eq_refl docsTree_entries)
      as [_ H].
    split; [|reflexivity].
    eapply Forall_impl; [|exact H]. cbn beta. intros op Hop. apply Hop.
Defined.

Lemma directory_request_redirects_witness :
  let result :=
    handler Examples.platform Examples.docsTree (str "/srv") (str "/docs/")
      (str "GET") (false, true) in
  Http.status (fst result) = 301%Z /\
  Http.get (str "Location") (Http.headers (fst result)) = Some (str "/docs/") /\
  Http.body (fst result) = NoBody /\
  snd result = [OpStat (str "/srv/docs")].
Proof.
  exact (@HandlerFacts.directory_request_redirects Examples.platform
           Examples.docsTree (str "/srv") (str "/docs/") (str "GET")
           (false, true) (mkStats IsDirectory 4096 0)
           (or_introl eq_refl) ltac:(discriminate) eq_refl eq_refl eq_refl).
Defined.

Lemma etag_weak_and_injective_witness :
  Http.get (str "ETag")
    (Http.headers
       (fst (serveFile Examples.platform (str "/srv/a.html")
               (mkStats IsFile 255 1700000000000) (str "GET")))) =
  Http.get (str "ETag")
    (Http.headers
       (fst (serveFile Examples.platform (str "/srv/b.css")
               (mkStats IsFile 255 1700000000000) (str "HEAD")))).
Proof.
  apply (@EtagFacts.etag_weak_and_injective Examples.platform
           (str "/srv/a.html") (str "/srv/b.css") (str "GET") (str "HEAD")
           (mkStats IsFile 255 1700000000000)
           (mkStats IsFile 255 1700000000000)).
  split; reflexivity.
Defined.

Lemma other_methods_not_allowed_witness :
  Http.status
    (fst (handler Examples.platform Examples.docsTree (str "/srv")
            (str "/docs/guide.txt") (str "DELETE") (false, true))) = 405%Z.
Proof.
  apply (@HandlerMore.other_methods_not_allowed Examples.platform
           Examples.docsTree (str "/srv") (str "/docs/guide.txt")
           (str "DELETE") (false, true));
    discriminate.
Defined.

Lemma spa_fallback_witness :
  Http.status
    (fst (handler Examples.platform Examples.spaTree (str "/srv")
            (str "/app/route") (str "GET") (true, false))) = 200%Z /\
  Http.status
    (fst (handler Examples.platform Examples.spaTree (str "/srv")
            (str "/app/route") (str "GET") (false, false))) = 404%Z.
Proof.
  split.
  - apply (@HandlerMore.spa_fallback Examples.platform Examples.spaTree
             (str "/srv") (str "/app/route") (true, false)
             (mkStats IsFile 512 0) eq_refl eq_refl eq_refl eq_refl).
    reflexivity.
  - apply (@HandlerMore.spa_fallback Examples.platform Examples.spaTree
             (str "/srv") (str "/app/route") (false, false)
             (mkStats IsFile 512 0) eq_refl eq_refl eq_refl eq_refl).
    reflexivity.
Defined.

Lemma listing_directories_first_witness :
  Http.status
    (fst (serveDirectory Examples.platform Examples.docsTree
            (str "/srv/docs") (str "/docs/"))) = 200%Z.
Proof.
  apply (@HandlerMore.listing_directories_first Examples.platform
           Examples.docsTree (str "/srv/docs") (str "/docs/")
           [str "guide.txt"] eq_refl).
Defined.

Lemma root_request_is_listed_witness :
  fst (handler Examples.platform Examples.docsTree (str "/srv") (str "/")
         (str "GET") (false, true)) =
  fst (serveDirectory Examples.platform Examples.docsTree (str "/srv")
         (str "/")).
Proof.
  exact (@HandlerMore.root_request_is_listed Examples.platform
           Examples.docsTree (str "/srv") (false, true)
           (mkStats IsDirectory 4096 0) eq_refl eq_refl eq_refl eq_refl
           eq_refl).
Defined.

End Witnesses.

Module MiddlewareWitnesses.

Import Runtime Cache Bodies CacheSpec StageSpec Examples CacheProperties.

Lemma plain_wellFormed : wellFormed (target viaHttp).
Proof.
  split; [|split].
  - exists (str "http"). split; [reflexivity|]. cbn. intuition discriminate.
  - cbn. intuition discriminate.
  - reflexivity.
Qed.

Lemma secure_wellFormed : wellFormed (target viaHttps).
Proof.
  split; [|split].
  - exists (str "https"). split; [reflexivity|]. cbn. intuition discriminate.
  - cbn. intuition discriminate.
  - reflexivity.
Qed.

Lemma cache_key_is_request_url_witness :
  url viaHttp <> url viaHttps /\
  exists r s',
    cache (mkCacheOptions 60 100) 0 viaHttp (respond answer viaHttp)
      Examples.initial = Ok r s' /\
    handled s' = [url viaHttp].
Proof.
  destruct (@cache_key_is_request_url (mkCacheOptions 60 100) 0%Z viaHttp
              answer Examples.initial eq_refl eq_refl) as (_ & Hmiss & Hkeys).
  split.
  - apply Hkeys;
      [exact plain_wellFormed | exact secure_wellFormed | left; discriminate].
  - destruct (Hmiss eq_refl) as (r & s' & E & Hh & _).
    exists r, s'. split; [exact E | exact Hh].
Defined.


Lemma cache_entry_lifecycle_witness :
  memoryCache
    (stateOf (cache (mkCacheOptions 1 100) 5000 pageA
                (respond (fun _ => Examples.missing) pageA)
                (stateOf (cache (mkCacheOptions 1 100) 0 pageA
                            (respond answer pageA) Examples.initial)))) =
  memoryCache
    (stateOf (cache (mkCacheOptions 1 100) 0 pageA
                (respond answer pageA) Examples.initial)).
Proof.
  destruct (@cache_entry_lifecycle (mkCacheOptions 1 100) 5000%Z pageA
              (fun _ => Examples.missing)
              (stateOf (cache (mkCacheOptions 1 100) 0 pageA
                          (respond answer pageA) Examples.initial)))
    as (_ & H).
  destruct (H eq_refl eq_refl) as (_ & Hmiss).
  destruct (Hmiss eq_refl) as (_ & Hno & _).
  exact (Hno eq_refl).
Defined.


Lemma compression_outcomes_witness :
  exists r s',
    Compression.compression Examples.zlib Compression.defaults pageA
      (respond answer pageA) Examples.initial = Ok r s' /\
    answers Examples.page r /\
    bodyUsed r s' = true /\
    exists e, arrayBuffer r s' = Throw e s'.
Proof.
  destruct (@CompressionFacts.compression_outcomes Examples.zlib
              Compression.defaults pageA answer Examples.initial eq_refl)
    as [_ H].
  destruct (H eq_refl) as (r & s' & E & A & U).
  exists r, s'. split; [exact E|]. split; [exact A|].
  apply U. discriminate.
Defined.

Lemma cors_falls_back_to_first_origin_witness :
  exists r s',
    Cors.cors corsOptions foreign (respond answer foreign) Examples.initial
      = Ok r s' /\
    allowOrigin r = Some (str "https://app.example") /\
    Http.status r = 204%Z /\
  exists r s',
    Cors.cors corsOptions pageA (respond answer pageA) Examples.initial
      = Ok r s' /\
    allowOrigin r = Some (str "https://app.example") /\
    Http.status r = 200%Z.
Proof.
  destruct (@CorsFacts.cors_falls_back_to_first_origin corsOptions
              (str "https://app.example") [str "https://admin.example"]
              foreign answer Examples.initial eq_refl)
    as (r & s' & E & Ho & _ & Hpre & _).
  { cbn. intuition discriminate. }
  { right. exists (str "https://evil.example"). split; [reflexivity|].
    cbn. intuition discriminate. }
  exists r, s'. split; [exact E|]. split; [exact Ho|].
  split; [now apply Hpre|].
  destruct (@CorsFacts.cors_falls_back_to_first_origin corsOptions
              (str "https://app.example") [str "https://admin.example"]
              pageA answer Examples.initial eq_refl)
    as (r2 & s2 & E2 & Ho2 & _ & _ & Hact).
  { cbn. intuition discriminate. }
  { left. reflexivity. }
  exists r2, s2. split; [exact E2|]. split; [exact Ho2|].
  apply Hact. discriminate.
Defined.

End MiddlewareWitnesses.

(** ** The utilities and the handler at sample inputs *)

Module UtilityWitnesses.

Import NodePath PathUtils Lexical Segments.

Lemma guide_stays_inside :
  ~ escapes (Handler.cwd Examples.platform) (str "/srv") (str "/docs/guide.txt").
Proof.
  intros H. apply H. exists [str "docs"; str "guide.txt"]. reflexivity.
Qed.

Lemma safeResolveStaticPath_guards_witness :
  safeResolveStaticPath (Handler.cwd Examples.platform) (str "/srv")
    (str "/../etc/passwd") =
  Throws (str "Path traversal attack detected") /\
  safeResolveStaticPath (Handler.cwd Examples.platform) (str "/srv")
    (str "/docs/guide.txt") =
  Returns (str "/srv/docs/guide.txt").
Proof.
  split.
  - apply (@PathUtilsProperties.safeResolveStaticPath_guards
             (Handler.cwd Examples.platform) (str "/srv")
             (str "/../etc/passwd") eq_refl).
    exact Witnesses.passwd_escapes.
  - apply (@PathUtilsProperties.safeResolveStaticPath_guards
             (Handler.cwd Examples.platform) (str "/srv")
             (str "/docs/guide.txt") eq_refl).
    exact guide_stays_inside.
Defined.

Lemma getUrlPathFromFilePath_spec_witness :
  getUrlPathFromFilePath (Handler.cwd Examples.platform) (str "/srv")
    (str "/srv/docs/guide.txt") = Some (str "/docs/guide.txt") /\
  getUrlPathFromFilePath (Handler.cwd Examples.platform) (str "/srv")
    (str "/etc/passwd") = None.
Proof.
  destruct (@PathUtilsProperties.getUrlPathFromFilePath_spec
              (Handler.cwd Examples.platform) (str "/srv")
              (str "/srv/docs/guide.txt") eq_refl) as [Hin _].
  destruct (@PathUtilsProperties.getUrlPathFromFilePath_spec
              (Handler.cwd Examples.platform) (str "/srv")
              (str "/etc/passwd") eq_refl) as [_ Hout].
  split.
  - exact (Hin [str "docs"; str "guide.txt"] eq_refl).
  - apply Hout. intros [rest H]. vm_compute in H. discriminate.
Defined.

Lemma url_path_round_trip_witness :
  getUrlPathFromFilePath (Handler.cwd Examples.platform) (str "/srv")
    (resolveStaticPath (str "/srv") (str "//docs//guide.txt/")) =
  Some (str "/docs/guide.txt").
Proof.
  apply (@PathUtilsProperties.url_path_round_trip
           (Handler.cwd Examples.platform) (str "/srv")
           (str "//docs//guide.txt/") eq_refl).
  repeat constructor.
Defined.

Lemma parent_of_entry_url_witness :
  getParentDirectoryUrl
    (createDirectoryUrl (fun s => s) (str "/docs") (str "img")) =
  Some (str "/docs/") /\
  getParentDirectoryUrl
    (createFileUrl (fun s => s) (str "/docs/") (str "guide.txt")) =
  Some (str "/docs/").
Proof.
  split.
  - apply (@PathUtilsProperties.parent_of_entry_url (fun s => s)
             (str "/docs") (str "img"));
      [discriminate | repeat constructor].
  - apply (@PathUtilsProperties.parent_of_entry_url (fun s => s)
             (str "/docs/") (str "guide.txt"));
      [discriminate | repeat constructor].
Defined.

Lemma traversal_is_flagged_witness :
  mightContainPathTraversal (str "/../etc/passwd") = true /\
  mightContainPathTraversal (str "..") = false /\
  escapes (Handler.cwd Examples.platform) (str "/srv") (str "..").
Proof.
  destruct (@PathUtilsProperties.traversal_is_flagged
              (Handler.cwd Examples.platform) (str "/srv")
              (str "/../etc/passwd")) as (H1 & H2 & _).
  destruct (@PathUtilsProperties.traversal_is_flagged
              (Handler.cwd Examples.platform) (str "/srv") (str ".."))
    as (_ & _ & H3).
  split; [apply H1; [exact Witnesses.passwd_escapes | discriminate]|].
  split; [exact H2 | apply H3; discriminate].
Defined.

Lemma extension_round_trip_witness :
  getExtension (str "/srv/Photo.JPG") = str ".jpg" /\
  hasExtension (str "/srv/Photo.JPG") (getExtension (str "/srv/Photo.JPG")) =
  true /\
  hasExtension (str "/srv/Photo.JPG") (str ".jpg") =
  hasExtension (str "/srv/Photo.JPG") (str "jpg").
Proof.
  assert (Hascii : isAscii (str "/srv/Photo.JPG")).
  { repeat (constructor; [apply Nat.ltb_lt; reflexivity|]). constructor. }
  assert (Hext : isAscii (str "jpg")).
  { repeat (constructor; [apply Nat.ltb_lt; reflexivity|]). constructor. }
  destruct (@PathUtilsProperties.extension_round_trip
              (str "/srv/Photo.JPG") (str "jpg") Hascii Hext)
    as (_ & H2 & H3).
  split; [reflexivity|]. split; [apply H2; discriminate | now apply H3].
Defined.

Lemma registered_type_is_found_witness :
  Mime.getMimeType
    (Mime.registerMimeType (str ".TS") (str "text/typescript") Mime.initial)
    (str ".ts") = str "text/typescript" /\
  Mime.getMimeType
    (Mime.registerMimeType (str ".TS") (str "text/typescript") Mime.initial)
    (str ".HTML") = str "text/html".
Proof.
  assert (Hascii : forall s : string,
            forallb (fun c => nat_of_ascii c <? 128) (str s) = true ->
            isAscii (str s)).
  { intros s H. apply Forall_forall. intros c Hc.
    rewrite forallb_forall in H. now apply Nat.ltb_lt, H. }
  destruct (@MimeFacts.registered_type_is_found Mime.initial (str ".TS")
              (str "text/typescript") (str ".ts")
              (Hascii ".TS"%string eq_refl) (Hascii ".ts"%string eq_refl)
              eq_refl eq_refl ltac:(discriminate)) as (H1 & _).
  destruct (@MimeFacts.registered_type_is_found Mime.initial (str ".TS")
              (str "text/typescript") (str ".HTML")
              (Hascii ".TS"%string eq_refl) (Hascii ".HTML"%string eq_refl)
              eq_refl eq_refl ltac:(discriminate)) as (_ & H2 & _).
  split; [now apply H1 | rewrite H2; [reflexivity | discriminate]].
Defined.

Lemma file_is_served_witness :
  let get :=
    Handler.handler Examples.platform Examples.docsTree (str "/srv")
      (str "/docs/guide.txt") (str "GET") (false, true) in
  let head :=
    Handler.handler Examples.platform Examples.docsTree (str "/srv")
      (str "/docs/guide.txt") (str "HEAD") (false, true) in
  Http.status (fst get) = 200%Z /\
  Http.body (fst get) = Handler.FileBody (str "/srv/docs/guide.txt") /\
  snd get =
    [Handler.OpStat (str "/srv/docs/guide.txt");
     Handler.OpFile (str "/srv/docs/guide.txt")] /\
  Http.get (str "Content-Length") (Http.headers (fst head)) =
    Some (str "12") /\
  snd head = [Handler.OpStat (str "/srv/docs/guide.txt")].
Proof.
  destruct (@HandlerAnswers.file_is_served Examples.platform
              Examples.docsTree (str "/srv") (str "/docs/guide.txt")
              (false, true) (Handler.mkStats Handler.IsFile 12 0)
              eq_refl eq_refl eq_refl)
    as (Hall & H2 & _ & H4 & _ & H6 & H7).
  split; [exact (proj1 (Hall _ (or_introl eq_refl)))|].
  split; [exact H2|]. split; [exact H4|]. split; [exact H6 | exact H7].
Defined.

Lemma isPathUnderRoot_preorder_witness :
  isPathUnderRoot (Handler.cwd Examples.platform) (str "/srv/docs/guide.txt")
    (str "/srv") = true /\
  resolve (Handler.cwd Examples.platform) (str "/srv/docs/..") =
  resolve (Handler.cwd Examples.platform) (str "/srv/").
Proof.
  destruct (@PathUtilsProperties.isPathUnderRoot_preorder
              (Handler.cwd Examples.platform) (str "/srv")
              (str "/srv/docs") (str "/srv/docs/guide.txt") eq_refl)
    as (_ & Htrans & _).
  destruct (@PathUtilsProperties.isPathUnderRoot_preorder
              (Handler.cwd Examples.platform) (str "/srv/docs/..")
              (str "/srv/") (str "/srv") eq_refl)
    as (_ & _ & Hsame).
  split; [apply Htrans; reflexivity | apply Hsame; reflexivity].
Defined.

Lemma root_index_is_served_witness :
  let result :=
    Handler.handler Examples.platform Examples.siteTree (str "/srv")
      (str "//") (str "GET") (false, true) in
  Http.status (fst result) = 200%Z /\
  Http.body (fst result) = Handler.FileBody (str "/srv/index.html").
Proof.
  destruct (@HandlerAnswers.root_index_is_served Examples.platform
              Examples.siteTree (str "/srv") (str "//") (false, true)
              (Handler.mkStats Handler.IsDirectory 4096 0)
              (Handler.mkStats Handler.IsFile 512 0)
              eq_refl eq_refl eq_refl eq_refl eq_refl eq_refl)
    as (H1 & H2 & _).
  now split.
Defined.

End UtilityWitnesses.

(** ** The stages, the chain and the server at sample inputs *)

Module PipelineWitnesses.

Import Runtime.

Lemma security_headers_on_https_only_witness :
  (exists r s',
     Security.security Security.defaults Examples.viaHttps
       (respond Examples.answer Examples.viaHttps) Examples.initial =
     Ok r s' /\
     Http.get (str "Strict-Transport-Security") (Http.headers r) =
     Some (str "max-age=15552000; includeSubDomains") /\
     Http.get (str "Content-Type") (Http.headers r) = Some (str "text/html")) /\
  Security.security Security.defaults Examples.viaHttp
    (respond Examples.answer Examples.viaHttp) Examples.initial =
  respond Examples.answer Examples.viaHttp Examples.initial.
Proof.
  destruct (@SecurityFacts.security_headers_on_https_only Security.defaults
              Examples.viaHttps (respond Examples.answer Examples.viaHttps)
              Examples.initial) as (_ & Hs & _).
  destruct (@SecurityFacts.security_headers_on_https_only Security.defaults
              Examples.viaHttp (respond Examples.answer Examples.viaHttp)
              Examples.initial) as (Hp & _).
  split; [|now apply Hp].
  destruct (Hs eq_refl _ _ eq_refl) as (r' & E & _ & _ & Hset & Hkeep).
  exists r'. eexists. split; [exact E|]. split.
  - apply Hset. vm_compute. auto 6.
  - rewrite Hkeep; [reflexivity|].
    vm_compute. intros e H.
    repeat destruct H as [<- | H]; try discriminate. destruct H.
Defined.

Lemma chain_wraps_single_calls_witness :
  exists run,
    MiddlewareChain.execute
      [Examples.handsOn; Examples.answersItself; Examples.handsOn]
      Examples.pageA (respond Examples.answer Examples.pageA)
      Examples.initial = Some run /\
    MiddlewareChain.outcome run =
      Ok (Http.mkResponse 204%Z [] [] None) Examples.initial /\
    MiddlewareChain.cursor run <= 2 /\
    MiddlewareChain.finalCalls run = 0.
Proof.
  destruct (@MiddlewareChainFacts.chain_wraps_single_calls
              [Examples.handsOn; Examples.answersItself; Examples.handsOn]
              Examples.pageA (respond Examples.answer Examples.pageA)
              Examples.initial)
    as (run & E & O & _ & L).
  { repeat constructor. }
  exists run. split; [exact E|]. split; [exact O|].
  exact (L 1 Examples.answersItself eq_refl I).
Defined.

Lemma second_call_enters_the_following_witness :
  exists run,
    MiddlewareChain.execute
      [(fun _ =>
          MiddlewareChain.CallNext
            (fun _ =>
               MiddlewareChain.CallNext
                 (fun second => MiddlewareChain.Return second)));
       Examples.answersItself;
       (fun _ => MiddlewareChain.Return (Http.mkResponse 200%Z [] [] None))]
      Examples.pageA (respond Examples.answer Examples.pageA)
      Examples.initial = Some run /\
    MiddlewareChain.outcome run =
      Ok (Http.mkResponse 200%Z [] [] None) Examples.initial.
Proof.
  destruct (@MiddlewareChainFacts.second_call_enters_the_following
              Examples.answersItself
              (fun _ =>
                 MiddlewareChain.Return (Http.mkResponse 200%Z [] [] None))
              Examples.pageA (respond Examples.answer Examples.pageA)
              Examples.initial Examples.initial
              (Http.mkResponse 204%Z [] [] None) I I eq_refl)
    as (run & E & O & _).
  exists run. split; [exact E | exact O].
Defined.

Lemma cached_copy_ignores_accept_encoding_witness :
  exists r s1 r' s2,
    Server.serve Examples.content
      [Cache.cache (Cache.mkCacheOptions 60 2) 0;
       Compression.compression Examples.zlib Compression.defaults]
      Examples.answer Examples.pageWithBrotli Examples.initial = Ok r s1 /\
    Server.serve Examples.content
      [Cache.cache (Cache.mkCacheOptions 60 2) 1000;
       Compression.compression Examples.zlib Compression.defaults]
      Examples.answer Examples.pageA s1 = Ok r' s2 /\
    Http.get (str "Content-Encoding") (Http.headers r') = Some (str "br").
Proof.
  destruct (@PipelineFacts.cached_copy_ignores_accept_encoding
              Examples.content Examples.zlib (Cache.mkCacheOptions 60 2)
              Compression.defaults 0 1000 Examples.pageWithBrotli
              Examples.pageA Examples.answer Examples.initial
              eq_refl eq_refl eq_refl eq_refl ltac:(discriminate) eq_refl
              eq_refl eq_refl eq_refl eq_refl eq_refl)
    as (r & s1 & r' & s2 & E1 & E2 & _ & H & _).
  exists r, s1, r', s2. split; [exact E1|]. split; [exact E2 | exact H].
Defined.

Lemma cache_stays_within_bounds_witness :
  (JsMap.size
     (memoryCache
        (stateOf
           (Cache.cache (Cache.mkCacheOptions 60 2) 0 Examples.pageA
              (respond Examples.answer Examples.pageA) Examples.initial))) <=
   2)%Z.
Proof.
  destruct (@CacheInvariants.cache_stays_within_bounds
              (Cache.mkCacheOptions 60 2) 0 Examples.pageA Examples.answer
              Examples.initial (NoDup_nil _)) as (_ & H).
  exact H.
Defined.

Lemma cached_copies_stay_readable_witness :
  exists r s' b s'',
    Cache.cache (Cache.mkCacheOptions 60 2) 0 Examples.pageA
      (respond Examples.answer Examples.pageA) Examples.initial = Ok r s' /\
    arrayBuffer r s' = Ok b s'' /\
    CacheSpec.readable s' /\ CacheSpec.readable s''.
Proof.
  exact (@CacheInvariants.cached_copies_stay_readable
           (Cache.mkCacheOptions 60 2) 0 Examples.pageA Examples.answer
           Examples.initial (Forall_nil _)).
Defined.

Lemma cache_answers_only_from_fresh_entries_witness :
  let stored :=
    stateOf
      (Cache.cache (Cache.mkCacheOptions 60 2) 0 Examples.pageA
         (respond Examples.answer Examples.pageA) Examples.initial) in
  exists e,
    JsMap.get (url Examples.pageA) (memoryCache stored) = Some e /\
    (1000 < expires e)%Z.
Proof.
  cbv zeta.
  set (stored := stateOf _).
  destruct (Cache.cache (Cache.mkCacheOptions 60 2) 1000 Examples.pageA
              (respond Examples.answer Examples.pageA) stored)
    as [r s' | e s'] eqn:E; [|vm_compute in E; discriminate].
  destruct (@CacheInvariants.cache_answers_only_from_fresh_entries
              (Cache.mkCacheOptions 60 2) 1000 Examples.pageA Examples.answer
              stored s' r E) as (_ & _ & e & G & F & _).
  - vm_compute in E. injection E as _ <-. reflexivity.
  - exists e. split; assumption.
Defined.

Lemma preflight_is_answered_by_the_stage_witness :
  exists r,
    Cors.cors Examples.corsOptions Examples.foreign
      (respond Examples.answer Examples.foreign) Examples.initial =
    Ok r Examples.initial /\
    Http.status r = 204%Z /\
    Http.get (str "Access-Control-Allow-Methods") (Http.headers r) =
    Some (str "GET, POST").
Proof.
  destruct (@StagesMore.preflight_is_answered_by_the_stage
              Examples.corsOptions Examples.foreign
              (respond Examples.answer Examples.foreign) Examples.initial
              eq_refl) as (r & E & H1 & _ & _ & H4 & _).
  exists r. split; [exact E|]. split; [exact H1 | exact H4].
Defined.

Lemma cors_marks_the_response_witness :
  exists r s',
    Cors.cors Cors.defaults Examples.pageA
      (respond Examples.answer Examples.pageA) Examples.initial = Ok r s' /\
    Http.status r = 200%Z /\
    StageSpec.allowOrigin r = Some (str "*") /\
    Http.get (str "Content-Type") (Http.headers r) = Some (str "text/html").
Proof.
  destruct (@StagesMore.cors_marks_the_response Cors.defaults Examples.pageA
              Examples.answer Examples.initial ltac:(discriminate))
    as (r & s' & E & H1 & _ & _ & Hkeep & Hone & _).
  exists r, s'. split; [exact E|]. split; [exact H1|].
  split; [now apply Hone|].
  rewrite Hkeep; [reflexivity | discriminate | discriminate | discriminate].
Defined.

Lemma compression_other_cases_witness :
  exists r s',
    Compression.compression Examples.zlib Compression.defaults
      Examples.pageWithGzip (respond Examples.answer Examples.pageWithGzip)
      Examples.initial = Ok r s' /\
    Http.get (str "Content-Encoding") (Http.headers r) = Some (str "gzip") /\
    Bodies.holds s' r (Byte.x1f :: Bodies.bytesOf Examples.page).
Proof.
  destruct (@StagesMore.compression_other_cases Examples.zlib
              Compression.defaults Examples.pageWithGzip Examples.answer
              Examples.initial) as (_ & H).
  destruct (H eq_refl eq_refl eq_refl) as (r & s' & E & _ & H2 & _ & H4 & _).
  exists r, s'. split; [exact E|]. split; [exact H2 | exact H4].
Defined.

Lemma server_answers_every_request_witness :
  urlPathname
    (Examples.getRequest "http:" "example.org" "/../etc/passwd" EmptyString) =
  str "/etc/passwd" /\
  exists r s',
    Server.handleRequest Examples.platform Examples.docsTree Examples.content
      (Server.defaults (str "/srv"))
      (Examples.getRequest "http:" "example.org" "/../etc/passwd" EmptyString)
      Examples.initial = Ok r s' /\
    Http.status r = 404%Z /\ Http.status r <> 403%Z.
Proof.
  split; [reflexivity|].
  destruct (@ServerFacts.server_answers_every_request Examples.platform
              Examples.docsTree Examples.content (Server.defaults (str "/srv"))
              (Examples.getRequest "http:" "example.org" "/../etc/passwd"
                 EmptyString) Examples.initial)
    as (r & s' & E & _ & H).
  exists r, s'. split; [exact E|].
  destruct (H eq_refl) as (Hstatus & _ & _ & _ & H403).
  split; [rewrite Hstatus; reflexivity | apply H403; reflexivity].
Defined.

End PipelineWitnesses.
